(** * next-crud: the data-access and API layer, embedded and verified

    The development follows the repository file by file:
    - [JS]        the fragment of the ECMAScript runtime the routes rely on
                  (strings, truthiness, numbers, regular expressions);
    - [Db]        [src/lib/db.js], the cached connection ([connectToDatabase]);
    - [Mongoose]  the behaviour of the Mongoose calls the routes make
                  (casting, setters, validators, queries), driven by the two
                  schemas of [src/models/Student.js] and
                  [src/models/Instructor.js];
    - [Routes]    the route handlers of [src/app/api/...];
    - [Components] the form and the list of [src/components/...], as far as
                  they talk to the routes ([handleSubmit], [fetchStudents],
                  [handleDelete]).

    Modelling conventions.  Strings are sequences of 8-bit code units (the
    characters up to 255), with the case folding of these.  Numbers are
    exact decimals [m * 10^e] (no rounding to a double, no overflow), plus
    the two infinities; one number may have several such forms, and a
    statement about whole numbers speaks of their value
    ([Laws.wholeValue]).  A request body is a JSON object of which the three
    schema paths [name], [age], [email] are kept ([Runtime.Body]): with the
    default strict mode Mongoose drops unknown paths.  The PUT routes hand
    the parsed body to [findByIdAndUpdate] as it is; a body that is not such
    an object ([null], update operators, a [__v]) is given by what Mongoose
    and the database make of it ([Runtime.OtherBody]), as long as the three
    fields keep their types.  A search pattern outside the fragment of
    regular expressions written out in [JS] is given by what the engine
    makes of it ([Runtime.engine]).  Mongoose is taken as in its current
    major versions: setters run on updates, update validators run on [$set]
    and [$unset] only, an ObjectId is cast from 24 hexadecimal digits, the
    unique index of a path is in place.  A handler runs from start to end
    before the next one starts; a promise is given by what it settles to, so
    that a pending attempt of another request can still be awaited. *)

From Stdlib Require Import ZArith Ascii String List Bool Lia DecimalString.
From Stdlib Require Import DecimalFacts DecimalPos DecimalN.
From stdpp Require Import base option list gmap strings sorting.

Local Open Scope string_scope.

(* ===================================================================== *)
(** ** The ECMAScript fragment *)
(* ===================================================================== *)

Module JS.

(** *** Characters and strings *)

(** WhiteSpace and LineTerminator code units below 256: TAB, LF, VT, FF,
    CR, SP and NBSP.  [String.prototype.trim] and the class [\s] agree. *)
Definition isWhiteSpace (c : ascii) : bool :=
  let n := nat_of_ascii c in
  ((9 <=? n)%nat && (n <=? 13)%nat) || (n =? 32)%nat || (n =? 160)%nat.

Definition isLineTerminator (c : ascii) : bool :=
  let n := nat_of_ascii c in (n =? 10)%nat || (n =? 13)%nat.

(** The capitals among the code units below 256: [A]-[Z], and 192 to 222
    but the multiplication sign.  Each has its small letter 32 further on.
    (The small letters 181 and 255 have their capitals beyond 255.) *)
Definition isUpper (c : ascii) : bool :=
  let n := nat_of_ascii c in
  ((65 <=? n)%nat && (n <=? 90)%nat) ||
  ((192 <=? n)%nat && (n <=? 222)%nat && negb (n =? 215)%nat).

Definition lowerChar (c : ascii) : ascii :=
  if isUpper c then ascii_of_nat (nat_of_ascii c + 32) else c.

(** [String.prototype.toLowerCase] *)
Fixpoint toLowerCase (s : string) : string :=
  match s with
  | EmptyString => EmptyString
  | String c s' => String (lowerChar c) (toLowerCase s')
  end.

Fixpoint trimStart (s : string) : string :=
  match s with
  | EmptyString => EmptyString
  | String c s' => if isWhiteSpace c then trimStart s' else s
  end.

Fixpoint trimEnd (s : string) : string :=
  match s with
  | EmptyString => EmptyString
  | String c s' =>
      match trimEnd s' with
      | EmptyString => if isWhiteSpace c then EmptyString else String c EmptyString
      | t => String c t
      end
  end.

(** [String.prototype.trim] *)
Definition trim (s : string) : string := trimEnd (trimStart s).

(** [String.prototype.startsWith] *)
Fixpoint startsWith (p s : string) : bool :=
  match p, s with
  | EmptyString, _ => true
  | String a p', String b s' => Ascii.eqb a b && startsWith p' s'
  | String _ _, EmptyString => false
  end.

(** [String.prototype.includes]: [includes needle s] is [s.includes(needle)] *)
Fixpoint includes (needle s : string) : bool :=
  startsWith needle s ||
  match s with
  | EmptyString => false
  | String _ s' => includes needle s'
  end.

Definition isEmpty (s : string) : bool :=
  match s with EmptyString => true | _ => false end.

(** *** Regular expressions

    The fragment needed by the repository: a pattern is a sequence of
    character classes, each taken once or one-or-more times, optionally
    anchored at either end.  The schema's email pattern lies in it, and so
    does every search string made of ordinary characters and dots. *)

Inductive CharClass :=
| CLit (c : ascii)      (* an ordinary or escaped character *)
| CAny                  (* [.] *)
| CNonSpace.            (* [\S] *)

Inductive Quant := QOne | QPlus.

Record RegExp := mkRegExp {
  reStart : bool;                        (* leading [^] *)
  reItems : list (CharClass * Quant);
  reEnd : bool;                          (* trailing [$] *)
  reIgnoreCase : bool                    (* flag [i] *)
}.

(** SyntaxCharacter :: one of [^ $ \ . * + ? ( ) [ ] { } |] *)
Definition isSyntaxCharacter (c : ascii) : bool :=
  existsb (Ascii.eqb c)
    ["^"; "$"; "\"; "."; "*"; "+"; "?"; "("; ")"; "["; "]"; "{"; "}"; "|"]%char.

Record PState := mkPState {
  psStart : bool;
  psItems : list (CharClass * Quant);    (* most recent first *)
  psEsc : bool;                          (* just read a backslash *)
  psEnd : bool                           (* just read the final [$] *)
}.

Definition pushItem (cls : CharClass) (st : PState) : PState :=
  mkPState (psStart st) ((cls, QOne) :: psItems st) false false.

(** One pattern character.  [None] leaves the modelled fragment. *)
Definition parseChar (c : ascii) (st : PState) : option PState :=
  if psEnd st then None
  else if psEsc st then
    if Ascii.eqb c "S" then Some (pushItem CNonSpace st)
    else if isSyntaxCharacter c then Some (pushItem (CLit c) st)
    else None
  else if Ascii.eqb c "\" then Some (mkPState (psStart st) (psItems st) true false)
  else if Ascii.eqb c "." then Some (pushItem CAny st)
  else if Ascii.eqb c "+" then
    match psItems st with
    | (cls, QOne) :: r => Some (mkPState (psStart st) ((cls, QPlus) :: r) false false)
    | _ => None
    end
  else if Ascii.eqb c "^" then
    match psItems st with
    | [] => if psStart st then None else Some (mkPState true [] false false)
    | _ => None
    end
  else if Ascii.eqb c "$" then Some (mkPState (psStart st) (psItems st) false true)
  else if isSyntaxCharacter c then None
  else Some (pushItem (CLit c) st).

Fixpoint parsePattern (p : string) (st : PState) : option PState :=
  match p with
  | EmptyString => if psEsc st then None else Some st
  | String c p' =>
      match parseChar c st with
      | Some st' => parsePattern p' st'
      | None => None
      end
  end.

(** Patterns that [new RegExp] refuses whatever else they hold: a
    quantifier with nothing before it, a backslash with nothing after it, a
    class that is not closed, parentheses that do not pair up.  A backslash
    takes the next character with it, inside a class too; inside a class
    only [\] and the closing bracket count. *)
Fixpoint unbalanced (p : string) (depth : nat) (inClass esc : bool) : bool :=
  match p with
  | EmptyString => esc || inClass || (0 <? depth)%nat
  | String c p' =>
      if esc then unbalanced p' depth inClass false
      else if Ascii.eqb c "\" then unbalanced p' depth inClass true
      else if inClass then unbalanced p' depth (negb (Ascii.eqb c "]")) false
      else if Ascii.eqb c "[" then unbalanced p' depth true false
      else if Ascii.eqb c "(" then unbalanced p' (S depth) false false
      else if Ascii.eqb c ")" then
        match depth with
        | O => true
        | S depth' => unbalanced p' depth' false false
        end
      else unbalanced p' depth false false
  end.

Definition malformed (p : string) : bool :=
  match p with
  | String c _ =>
      Ascii.eqb c "*" || Ascii.eqb c "+" || Ascii.eqb c "?" || unbalanced p 0 false false
  | EmptyString => false
  end.

(** [new RegExp(pattern, ignoreCase ? 'i' : '')], on the fragment. *)
Definition RegExp_new (pattern : string) (ignoreCase : bool) : option RegExp :=
  match parsePattern pattern (mkPState false [] false false) with
  | Some st => Some (mkRegExp (psStart st) (rev (psItems st)) (psEnd st) ignoreCase)
  | None => None
  end.

Definition classMatches (i : bool) (cls : CharClass) (c : ascii) : bool :=
  match cls with
  | CLit a => if i then Ascii.eqb (lowerChar a) (lowerChar c) else Ascii.eqb a c
  | CAny => negb (isLineTerminator c)
  | CNonSpace => negb (isWhiteSpace c)
  end.

(** What may remain of [s] after one or more characters of the class. *)
Fixpoint consumePlus (i : bool) (cls : CharClass) (s : string) : list string :=
  match s with
  | EmptyString => []
  | String c s' => if classMatches i cls c then s' :: consumePlus i cls s' else []
  end.

Definition matchItem (i : bool) (it : CharClass * Quant) (s : string) : list string :=
  match it.2 with
  | QOne =>
      match s with
      | String c s' => if classMatches i it.1 c then [s'] else []
      | EmptyString => []
      end
  | QPlus => consumePlus i it.1 s
  end.

(** What may remain of [s] after the items matched a prefix of it. *)
Fixpoint matchItems (i : bool) (items : list (CharClass * Quant)) (s : string)
  : list string :=
  match items with
  | [] => [s]
  | it :: rest => flat_map (matchItems i rest) (matchItem i it s)
  end.

Definition matchHere (re : RegExp) (s : string) : bool :=
  existsb (fun r => if reEnd re then isEmpty r else true)
          (matchItems (reIgnoreCase re) (reItems re) s).

Fixpoint suffixes (s : string) : list string :=
  s :: match s with
       | EmptyString => []
       | String _ s' => suffixes s'
       end.

(** [RegExp.prototype.test] *)
Definition RegExp_test (re : RegExp) (s : string) : bool :=
  if reStart re then matchHere re s else existsb (matchHere re) (suffixes s).

(** *** Numbers

    A Number is an exact decimal [m * 10^e], an infinity or NaN. *)

Inductive Num :=
| Dec (m e : Z)
| Inf (negative : bool)
| NaN.

Definition isNaN (n : Num) : bool :=
  match n with NaN => true | _ => false end.

Definition isZero (n : Num) : bool :=
  match n with Dec m _ => (m =? 0)%Z | _ => false end.

(** [n >= k] for an integer bound [k] *)
Definition geZ (n : Num) (k : Z) : bool :=
  match n with
  | Dec m e => if (0 <=? e)%Z then (k <=? m * 10 ^ e)%Z else (k * 10 ^ (- e) <=? m)%Z
  | Inf negative => negb negative
  | NaN => false
  end.

(** [Number.isInteger] *)
Definition isInteger (n : Num) : bool :=
  match n with
  | Dec m e => (0 <=? e)%Z || (m mod 10 ^ (- e) =? 0)%Z
  | _ => false
  end.

Definition ofZ (z : Z) : Num := Dec z 0.

Definition digitValue (base : Z) (c : ascii) : option Z :=
  let n := Z.of_nat (nat_of_ascii c) in
  let v := if (48 <=? n)%Z && (n <=? 57)%Z then Some (n - 48)%Z
           else if (97 <=? n)%Z && (n <=? 102)%Z then Some (n - 87)%Z
           else if (65 <=? n)%Z && (n <=? 70)%Z then Some (n - 55)%Z
           else None in
  match v with
  | Some d => if (d <? base)%Z then Some d else None
  | None => None
  end.

(** Reads the longest run of digits: its value on top of [acc], how many
    digits were read on top of [count], and the rest of the string. *)
Fixpoint readDigits (base : Z) (s : string) (acc count : Z) : Z * Z * string :=
  match s with
  | EmptyString => (acc, count, EmptyString)
  | String c s' =>
      match digitValue base c with
      | Some d => readDigits base s' (acc * base + d)%Z (count + 1)%Z
      | None => (acc, count, s)
      end
  end.

(** NonDecimalIntegerLiteral, after its two-character prefix *)
Definition radixLiteral (base : Z) (digits : string) : Num :=
  let '(v, k, rest) := readDigits base digits 0%Z 0%Z in
  if (0 <? k)%Z && isEmpty rest then Dec v 0 else NaN.

Definition readSign (s : string) : bool * string :=
  match s with
  | String "-" r => (true, r)
  | String "+" r => (false, r)
  | _ => (false, s)
  end.

Definition signed (negative : bool) (z : Z) : Z :=
  if negative then (- z)%Z else z.

(** StrDecimalLiteral: sign, [Infinity] or digits with an optional
    fraction and an optional exponent. *)
Definition decimalLiteral (s : string) : Num :=
  let '(negative, s1) := readSign s in
  if String.eqb s1 "Infinity" then Inf negative
  else
    let '(ip, n1, s2) := readDigits 10 s1 0%Z 0%Z in
    let '(m, n2, s3) :=
      match s2 with
      | String "." r => readDigits 10 r ip 0%Z
      | _ => (ip, 0%Z, s2)
      end in
    if (n1 + n2 =? 0)%Z then NaN
    else
      match s3 with
      | EmptyString => Dec (signed negative m) (- n2)
      | String c r =>
          if Ascii.eqb c "e" || Ascii.eqb c "E" then
            let '(eneg, r1) := readSign r in
            let '(ev, k, r2) := readDigits 10 r1 0%Z 0%Z in
            if (0 <? k)%Z && isEmpty r2
            then Dec (signed negative m) (signed eneg ev - n2)
            else NaN
          else NaN
      end.

(** [Number(s)] on a string (StringToNumber) *)
Definition StringToNumber (s : string) : Num :=
  match trim s with
  | EmptyString => Dec 0 0
  | String "0" (String c r) as t =>
      if Ascii.eqb c "x" || Ascii.eqb c "X" then radixLiteral 16 r
      else if Ascii.eqb c "o" || Ascii.eqb c "O" then radixLiteral 8 r
      else if Ascii.eqb c "b" || Ascii.eqb c "B" then radixLiteral 2 r
      else decimalLiteral t
  | t => decimalLiteral t
  end.

(** Strips the trailing zeros of [m], raising [e]; a positive [m] has at
    most [log2 m] of them, which is the fuel [Number_toString] gives. *)
Fixpoint dropTrailingZeros (fuel : nat) (m e : Z) : Z * Z :=
  match fuel with
  | O => (m, e)
  | S fuel' =>
      if (m mod 10 =? 0)%Z then dropTrailingZeros fuel' (m / 10)%Z (e + 1)%Z else (m, e)
  end.

Fixpoint zeros (k : nat) : string :=
  match k with
  | O => EmptyString
  | S k' => String "0" (zeros k')
  end.

Definition digitsOf (z : Z) : string :=
  NilEmpty.string_of_uint (N.to_uint (Z.to_N z)).

(** [Number.prototype.toString()] (radix 10) *)
Definition Number_toString (n : Num) : string :=
  match n with
  | NaN => "NaN"
  | Inf negative => if negative then "-Infinity" else "Infinity"
  | Dec m e =>
      if (m =? 0)%Z then "0"
      else
        let '(a, e') := dropTrailingZeros (Z.to_nat (Z.log2 (Z.abs m))) (Z.abs m) e in
        let ds := digitsOf a in
        let k := Z.of_nat (String.length ds) in
        let p := (k + e')%Z in
        let body :=
          if (k <=? p)%Z && (p <=? 21)%Z then ds ++ zeros (Z.to_nat (p - k))
          else if (0 <? p)%Z && (p <=? 21)%Z then
            substring 0 (Z.to_nat p) ds ++ "." ++
            substring (Z.to_nat p) (Z.to_nat (k - p)) ds
          else if (-6 <? p)%Z && (p <=? 0)%Z then "0." ++ zeros (Z.to_nat (- p)) ++ ds
          else
            substring 0 1 ds ++
            (if (k =? 1)%Z then "" else "." ++ substring 1 (Z.to_nat (k - 1)) ds) ++
            "e" ++ (if (0 <=? p - 1)%Z then "+" else "-") ++ digitsOf (Z.abs (p - 1)) in
        if (m <? 0)%Z then "-" ++ body else body
  end.

(** *** Values of a parsed JSON body

    [VUndefined] is what reading an absent property gives; [VObject] stands
    for an array or a nested object (one without a string [_id] of its own,
    which Mongoose would read as a reference). *)

Inductive Value :=
| VUndefined
| VNull
| VBool (b : bool)
| VNum (n : Num)
| VStr (s : string)
| VObject.

(** ToBoolean *)
Definition truthy (v : Value) : bool :=
  match v with
  | VUndefined | VNull => false
  | VBool b => b
  | VNum n => negb (isZero n || isNaN n)
  | VStr s => negb (isEmpty s)
  | VObject => true
  end.

End JS.

(* ===================================================================== *)
(** ** The models: [src/models/Student.js], [src/models/Instructor.js] *)
(* ===================================================================== *)

Module Models.

Inductive Kind := Student | Instructor.

(** Options of a path of type [String] *)
Record StringPath := mkStringPath {
  sRequired : bool;
  sTrim : bool;
  sLowercase : bool;
  sMatch : option JS.RegExp;
  sUnique : bool
}.

(** Options of a path of type [Number] *)
Record NumberPath := mkNumberPath {
  nRequired : bool;
  nMin : option Z
}.

Record Schema := mkSchema {
  pName : StringPath;
  pAge : NumberPath;
  pEmail : StringPath;
  timestamps : bool
}.

Definition studentSchema : Schema :=
  {| pName := {| sRequired := true; sTrim := true; sLowercase := false;
                 sMatch := None; sUnique := false |};
     pAge := {| nRequired := true; nMin := Some 1%Z |};
     pEmail := {| sRequired := true; sTrim := true; sLowercase := true;
                  sMatch := JS.RegExp_new "^\S+@\S+\.\S+$" false;
                  sUnique := true |};
     timestamps := true |}.

(** The instructor's [email] has no [trim] option. *)
Definition instructorSchema : Schema :=
  {| pName := {| sRequired := true; sTrim := true; sLowercase := false;
                 sMatch := None; sUnique := false |};
     pAge := {| nRequired := true; nMin := Some 1%Z |};
     pEmail := {| sRequired := true; sTrim := false; sLowercase := true;
                  sMatch := JS.RegExp_new "^\S+@\S+\.\S+$" false;
                  sUnique := true |};
     timestamps := true |}.

Definition schemaOf (k : Kind) : Schema :=
  match k with
  | Student => studentSchema
  | Instructor => instructorSchema
  end.

(** An ObjectId, written as its 24 lower-case hexadecimal digits. *)
Definition ObjectId := string.

(** A stored document of either collection. *)
Record Doc := mkDoc {
  _id : ObjectId;
  name : string;
  age : JS.Num;
  email : string;
  createdAt : Z;
  updatedAt : Z;
  __v : Z
}.

End Models.

(* ===================================================================== *)
(** ** The process: shared state, failures, and the monad of a request *)
(* ===================================================================== *)

Module Runtime.
Import Models.

(** What can be thrown inside a handler. *)
Inductive Error :=
| ConnectionError (reason : string)   (* [mongoose.connect] rejected *)
| CastError (path : string)           (* a value does not cast to the path's type *)
| ValidationError (path : string)     (* a validator of the path failed *)
| MongoServerError (code : Z)         (* the server refused the operation *)
| SyntaxError                         (* malformed JSON, malformed pattern *)
| TypeError.

(** [error.code] *)
Definition errorCode (e : Error) : option Z :=
  match e with
  | MongoServerError c => Some c
  | _ => None
  end.

(** What a request does to the outside, in order (newest first). *)
Inductive Event :=
| EvConnect                 (* [mongoose.connect] called *)
| EvValidate (k : Kind)     (* schema validators run *)
| EvFind (k : Kind)
| EvInsert (k : Kind)
| EvUpdate (k : Kind)
| EvDelete (k : Kind).

(** The connection handle [mongoose.connect] resolves to. *)
Definition Handle := nat.

(** A promise, by what it settles to. *)
Inductive Promise :=
| Resolves (h : Handle)
| Rejects (reason : string).

(** [global.mongoose = { conn, promise }] *)
Record Cache := mkCache {
  conn : option Handle;
  promise : option Promise
}.

Record World := mkWorld {
  cached : Cache;
  students : gmap ObjectId Doc;
  instructors : gmap ObjectId Doc;
  trace : list Event
}.

(** What the surroundings decide for one request.  [engine] is what
    [new RegExp(p, 'i')] and the matcher of the database make of a pattern
    [p] outside the modelled fragment: [None] when the pattern is refused,
    else how it tests a string. *)
Record Env := mkEnv {
  connectOutcome : Promise;   (* how a [mongoose.connect] made now would settle *)
  now : Z;                    (* [new Date()] *)
  freshId : ObjectId;         (* [new ObjectId()] *)
  engine : string -> option (string -> bool)
}.

(** A parsed JSON body that is an object of plain fields: its properties
    [name], [age], [email], each absent ([None]) or present with a value.
    (Its other properties are no paths of the schemas and are dropped.) *)
Record Body := mkBody {
  bName : option JS.Value;
  bAge : option JS.Value;
  bEmail : option JS.Value
}.

(** A body of a PUT that is JSON but not such an object.  The routes hand
    the parsed body to [findByIdAndUpdate] as it is, so it may be [null], or
    hold update operators ([$inc], [$max], ...), a [__v], a pipeline.  Such
    an update document is given by what Mongoose and the database make of
    it: Mongoose refuses it before any query ([Rejected]: a value that does
    not cast, an operator without an object, a [$set] that fails an update
    validator), or the database applies it to the addressed document
    ([Modify f]: [f d] is the document to put in place of [d], [None] when
    the server raises an error, as [$inc] on a string does).  No update
    validator runs on what an operator other than [$set] and [$unset]
    stores.  What [Modify f] puts in place is again a document with a
    string for a name, a number for an age and a string for an email, under
    the same [_id]; an update that takes one of these away or stores a value
    of another type in it (as a [$rename] from one path to another does)
    has no counterpart here. *)
Inductive OtherBody :=
| JsonNull
| Rejected
| Modify (f : Doc -> option Doc).

(** Reading a property: an absent one reads as [undefined]. *)
Definition prop (v : option JS.Value) : JS.Value := default JS.VUndefined v.

(** How a computation ends. *)
Inductive Result (A : Type) :=
| Return (a : A)
| Throw (e : Error).
Arguments Return {A} a.
Arguments Throw {A} e.

Definition M (A : Type) : Type := World -> Result A * World.

#[global] Instance M_ret : MRet M := fun A a w => (Return a, w).

#[global] Instance M_bind : MBind M := fun A B f m w =>
  match m w with
  | (Return a, w') => f a w'
  | (Throw e, w') => (Throw e, w')
  end.

Definition throw {A} (e : Error) : M A := fun w => (Throw e, w).

(** [try { body } catch (error) { handler }] *)
Definition tryCatch {A} (body : M A) (handler : Error -> M A) : M A := fun w =>
  match body w with
  | (Return a, w') => (Return a, w')
  | (Throw e, w') => handler e w'
  end.

Definition getCached : M Cache := fun w => (Return (cached w), w).

Definition setConn (h : option Handle) : M unit := fun w =>
  (Return tt, mkWorld (mkCache h (promise (cached w))) (students w) (instructors w) (trace w)).

Definition setPromise (p : option Promise) : M unit := fun w =>
  (Return tt, mkWorld (mkCache (conn (cached w)) p) (students w) (instructors w) (trace w)).

Definition emit (e : Event) : M unit := fun w =>
  (Return tt, mkWorld (cached w) (students w) (instructors w) (e :: trace w)).

Definition collection (k : Kind) (w : World) : gmap ObjectId Doc :=
  match k with
  | Student => students w
  | Instructor => instructors w
  end.

Definition getCollection (k : Kind) : M (gmap ObjectId Doc) := fun w =>
  (Return (collection k w), w).

Definition setCollection (k : Kind) (c : gmap ObjectId Doc) : M unit := fun w =>
  (Return tt,
   match k with
   | Student => mkWorld (cached w) c (instructors w) (trace w)
   | Instructor => mkWorld (cached w) (students w) c (trace w)
   end).

End Runtime.

(* ===================================================================== *)
(** ** The connection: [src/lib/db.js] *)
(* ===================================================================== *)

Module Db.
Import Models Runtime.

(** [mongoose.connect(MONGODB_URI, opts).then(...).catch(...)]: the promise
    that is stored.  Its [catch] handler runs when it rejects. *)
Definition mongoose_connect (env : Env) : M Promise :=
  _ ← emit EvConnect;
  mret (connectOutcome env).

Definition connectToDatabase (env : Env) : M Handle :=
  c ← getCached;
  match conn c with
  | Some h => mret h
  | None =>
      p ← match promise c with
          | Some p => mret p
          | None =>
              p ← mongoose_connect env;
              _ ← setPromise (Some p);
              mret p
          end;
      match p with
      | Resolves h =>
          _ ← setConn (Some h);
          mret h
      | Rejects reason =>
          (* the promise's own [catch]: reset, rethrow *)
          _ ← setPromise None;
          (* the [catch] around the [await]: reset, rethrow *)
          _ ← setPromise None;
          throw (ConnectionError reason)
      end
  end.

End Db.

(* ===================================================================== *)
(** ** Mongoose: casting, setters, validators, queries *)
(* ===================================================================== *)

Module Mongoose.
Import Models Runtime.

(** *** Casting *)

Inductive Cast (A : Type) :=
| Casted (a : A)
| CastFailed.
Arguments Casted {A} a.
Arguments CastFailed {A}.

Definition isHexDigit (c : ascii) : bool :=
  match JS.digitValue 16 c with Some _ => true | None => false end.

Fixpoint allHex (s : string) : bool :=
  match s with
  | EmptyString => true
  | String c s' => isHexDigit c && allHex s'
  end.

(** A string casts to an ObjectId when it is 24 hexadecimal digits. *)
Definition castObjectId (s : string) : option ObjectId :=
  if (String.length s =? 24)%nat && allHex s then Some (JS.toLowerCase s) else None.

(** [castString]; [None] is null or undefined, left as it is. *)
Definition castString (v : JS.Value) : Cast (option string) :=
  match v with
  | JS.VUndefined | JS.VNull => Casted None
  | JS.VStr s => Casted (Some s)
  | JS.VNum n => Casted (Some (JS.Number_toString n))
  | JS.VBool b => Casted (Some (if b then "true" else "false"))
  | JS.VObject => CastFailed
  end.

(** [castNumber] *)
Definition castNumber (v : JS.Value) : Cast (option JS.Num) :=
  match v with
  | JS.VUndefined | JS.VNull => Casted None
  | JS.VStr s =>
      if JS.isEmpty s then Casted None
      else let n := JS.StringToNumber s in
           if JS.isNaN n then CastFailed else Casted (Some n)
  | JS.VBool b => Casted (Some (JS.ofZ (if b then 1 else 0)))
  | JS.VNum n => if JS.isNaN n then CastFailed else Casted (Some n)
  | JS.VObject => CastFailed
  end.

(** The setters the options [trim] and [lowercase] install. *)
Definition applySetters (p : StringPath) (s : string) : string :=
  let s1 := if sTrim p then JS.trim s else s in
  if sLowercase p then JS.toLowerCase s1 else s1.

Definition castStringPath (p : StringPath) (v : JS.Value) : Cast (option string) :=
  match castString v with
  | Casted (Some s) => Casted (Some (applySetters p s))
  | c => c
  end.

(** *** Validators *)

(** [required] on a String path: a non-empty string *)
Definition checkRequiredString (v : option string) : bool :=
  match v with
  | Some s => negb (JS.isEmpty s)
  | None => false
  end.

(** [match]: null and the empty string pass *)
Definition matchValidator (re : JS.RegExp) (v : option string) : bool :=
  match v with
  | Some s => if JS.isEmpty s then true else JS.RegExp_test re s
  | None => true
  end.

Definition validateStringPath (p : StringPath) (v : option string) : bool :=
  (if sRequired p then checkRequiredString v else true) &&
  match sMatch p with
  | Some re => matchValidator re v
  | None => true
  end.

(** [min]: null passes *)
Definition minValidator (lo : Z) (v : option JS.Num) : bool :=
  match v with
  | Some n => JS.geZ n lo
  | None => true
  end.

Definition validateNumberPath (p : NumberPath) (v : option JS.Num) : bool :=
  (if nRequired p then match v with Some _ => true | None => false end else true) &&
  match nMin p with
  | Some lo => minValidator lo v
  | None => true
  end.

(** *** Documents as JSON *)

Inductive Field :=
| FId (i : ObjectId)
| FStr (s : string)
| FNum (n : JS.Num)
| FDate (t : Z).

Definition JsonObject := list (string * Field).

Definition toObject (d : Doc) : JsonObject :=
  [("_id", FId (_id d)); ("name", FStr (name d)); ("age", FNum (age d));
   ("email", FStr (email d)); ("createdAt", FDate (createdAt d));
   ("updatedAt", FDate (updatedAt d)); ("__v", FNum (JS.ofZ (__v d)))].

Definition memString (x : string) (l : list string) : bool :=
  existsb (String.eqb x) l.

(** An inclusive projection: the listed paths, and [_id] unless it is
    excluded by name ([-_id]). *)
Definition project (fields : list string) (o : JsonObject) : JsonObject :=
  List.filter (fun kv => if String.eqb kv.1 "_id" then negb (memString "-_id" fields)
                    else memString kv.1 fields) o.

(** *** Queries *)

Inductive SortKey := ByName | ByCreatedAt.

(** [a] may come before [b] under [{ key: direction }] *)
Definition sortsBefore (key : SortKey) (ascending : bool) (a b : Doc) : bool :=
  match key, ascending with
  | ByName, true => String.leb (name a) (name b)
  | ByName, false => String.leb (name b) (name a)
  | ByCreatedAt, true => (createdAt a <=? createdAt b)%Z
  | ByCreatedAt, false => (createdAt b <=? createdAt a)%Z
  end.

Definition sortRel (key : SortKey) (ascending : bool) : relation Doc :=
  fun a b => sortsBefore key ascending a b = true.

#[global] Instance sortRel_dec key ascending a b : Decision (sortRel key ascending a b).
Proof. unfold sortRel. apply _. Defined.

Record Query := mkQuery {
  qModel : Kind;
  qFilter : Doc -> bool;
  qFields : option (list string);
  qSort : option (SortKey * bool);
  qLimit : option nat
}.

(** [Model.find(filter)] *)
Definition find (k : Kind) (f : Doc -> bool) : Query := mkQuery k f None None None.

(** [.select('a b c')] *)
Definition select (fields : list string) (q : Query) : Query :=
  mkQuery (qModel q) (qFilter q) (Some fields) (qSort q) (qLimit q).

(** [.sort({ key: 1 })] or [.sort({ key: -1 })] *)
Definition sort (key : SortKey) (ascending : bool) (q : Query) : Query :=
  mkQuery (qModel q) (qFilter q) (qFields q) (Some (key, ascending)) (qLimit q).

(** [.limit(n)] *)
Definition limit (n : nat) (q : Query) : Query :=
  mkQuery (qModel q) (qFilter q) (qFields q) (qSort q) (Some n).

(** The documents of a collection, in storage order. *)
Definition documents (c : gmap ObjectId Doc) : list Doc := (map_to_list c).*2.

(** What the server selects for a query: filter, sort, limit. *)
Definition selectDocs (q : Query) (c : gmap ObjectId Doc) : list Doc :=
  let matched := List.filter (qFilter q) (documents c) in
  let sorted := match qSort q with
                | Some (key, ascending) => merge_sort (sortRel key ascending) matched
                | None => matched
                end in
  match qLimit q with
  | Some n => take n sorted
  | None => sorted
  end.

Definition render (q : Query) (d : Doc) : JsonObject :=
  match qFields q with
  | Some fields => project fields (toObject d)
  | None => toObject d
  end.

(** [await query] *)
Definition exec (q : Query) : M (list JsonObject) :=
  _ ← emit (EvFind (qModel q));
  c ← getCollection (qModel q);
  mret (render q <$> selectDocs q c).

(** *** Documents

    Both schemas require every path, so a value that passed validation is
    present. *)

Definition validString (p : StringPath) (c : Cast (option string)) : option string :=
  match c with
  | Casted v => if validateStringPath p v then v else None
  | CastFailed => None
  end.

Definition validNumber (p : NumberPath) (c : Cast (option JS.Num)) : option JS.Num :=
  match c with
  | Casted v => if validateNumberPath p v then v else None
  | CastFailed => None
  end.

(** [new Model({ name, age, email })]: each path cast, setters applied; a
    failed cast is kept for [validate]. *)
Record Draft := mkDraft {
  dName : Cast (option string);
  dAge : Cast (option JS.Num);
  dEmail : Cast (option string)
}.

Definition newModel (k : Kind) (name age email : JS.Value) : Draft :=
  let sch := schemaOf k in
  mkDraft (castStringPath (pName sch) name) (castNumber age)
          (castStringPath (pEmail sch) email).

(** Does the document stored under [j] stand in the way of [d] under [i]?
    (the unique indexes the schema declares) *)
Definition clashes (sch : Schema) (i : ObjectId) (d : Doc) (jd : ObjectId * Doc) : bool :=
  negb (String.eqb jd.1 i) &&
  ((sUnique (pName sch) && String.eqb (name jd.2) (name d)) ||
   (sUnique (pEmail sch) && String.eqb (email jd.2) (email d))).

Definition violatesUnique (sch : Schema) (c : gmap ObjectId Doc) (i : ObjectId) (d : Doc)
  : bool :=
  existsb (clashes sch i d) (map_to_list c).

Definition isSome {A} (o : option A) : bool :=
  match o with Some _ => true | None => false end.

(** [doc.save()] of a new document: validation, then the insert. *)
Definition save (env : Env) (k : Kind) (d : Draft) : M Doc :=
  let sch := schemaOf k in
  _ ← emit (EvValidate k);
  match validString (pName sch) (dName d) with
  | None => throw (ValidationError "name")
  | Some n =>
      match validNumber (pAge sch) (dAge d) with
      | None => throw (ValidationError "age")
      | Some a =>
          match validString (pEmail sch) (dEmail d) with
          | None => throw (ValidationError "email")
          | Some e =>
              _ ← emit (EvInsert k);
              c ← getCollection k;
              let doc := mkDoc (freshId env) n a e (now env) (now env) 0 in
              if isSome (c !! freshId env) || violatesUnique sch c (freshId env) doc
              then throw (MongoServerError 11000)
              else
                _ ← setCollection k (<[freshId env := doc]> c);
                mret doc
          end
      end
  end.

(** [Model.findById(id)] *)
Definition findById (k : Kind) (id : string) : M (option Doc) :=
  match castObjectId id with
  | None => throw (CastError "_id")
  | Some i =>
      _ ← emit (EvFind k);
      c ← getCollection k;
      mret (c !! i)
  end.

(** One path of an update: absent, or cast like the path. *)
Definition castField {A} (path : string) (cast : JS.Value -> Cast (option A))
    (v : option JS.Value) : M (option (option A)) :=
  match v with
  | None => mret None
  | Some x =>
      match cast x with
      | Casted a => mret (Some a)
      | CastFailed => throw (CastError path)
      end
  end.

(** The update validators of one path that is set. *)
Definition validateField {A} (path : string) (valid : option A -> bool)
    (v : option (option A)) : M (option A) :=
  match v with
  | None => mret None
  | Some a =>
      if valid a then
        match a with
        | Some x => mret (Some x)
        | None => throw (ValidationError path)
        end
      else throw (ValidationError path)
  end.

(** [$set] on a stored document, with [updatedAt] refreshed. *)
Definition applyUpdate (sch : Schema) (t : Z) (n : option string) (a : option JS.Num)
    (e : option string) (d : Doc) : Doc :=
  mkDoc (_id d) (default (name d) n) (default (age d) a) (default (email d) e)
        (createdAt d) (if timestamps sch then t else updatedAt d) (__v d).

(** [Model.findByIdAndUpdate(id, body, { new: true, runValidators: true })] *)
Definition findByIdAndUpdate (env : Env) (k : Kind) (id : string) (body : Body)
  : M (option Doc) :=
  let sch := schemaOf k in
  match castObjectId id with
  | None => throw (CastError "_id")
  | Some i =>
      n ← castField "name" (castStringPath (pName sch)) (bName body);
      a ← castField "age" castNumber (bAge body);
      e ← castField "email" (castStringPath (pEmail sch)) (bEmail body);
      _ ← emit (EvValidate k);
      n ← validateField "name" (validateStringPath (pName sch)) n;
      a ← validateField "age" (validateNumberPath (pAge sch)) a;
      e ← validateField "email" (validateStringPath (pEmail sch)) e;
      _ ← emit (EvUpdate k);
      c ← getCollection k;
      match c !! i with
      | None => mret None
      | Some d =>
          let d' := applyUpdate sch (now env) n a e d in
          if violatesUnique sch c i d' then throw (MongoServerError 11000)
          else
            _ ← setCollection k (<[i := d']> c);
            mret (Some d')
      end
  end.

(** What the database stores in place of [d] when an update makes [x] of
    it: the [_id] cannot change, [createdAt] is immutable, the timestamps
    plugin sets [updatedAt]. *)
Definition replaceWith (sch : Schema) (t : Z) (d x : Doc) : Doc :=
  mkDoc (_id d) (name x) (age x) (email x) (createdAt d)
        (if timestamps sch then t else updatedAt x) (__v x).

(** [Model.findByIdAndUpdate(id, body, { new: true, runValidators: true })]
    for a body of the other kind.  With [null] no update is made and the
    call is a [findById].  Otherwise the database puts what [f] makes of
    the addressed document in its place, and the unique index holds for
    this write as for every other. *)
Definition findByIdAndUpdateWith (env : Env) (k : Kind) (id : string) (body : OtherBody)
  : M (option Doc) :=
  let sch := schemaOf k in
  match body with
  | JsonNull => findById k id
  | Rejected =>
      match castObjectId id with
      | None => throw (CastError "_id")
      | Some _ => throw (CastError "update")
      end
  | Modify f =>
      match castObjectId id with
      | None => throw (CastError "_id")
      | Some i =>
          _ ← emit (EvUpdate k);
          c ← getCollection k;
          match c !! i with
          | None => mret None
          | Some d =>
              match f d with
              | None => throw (MongoServerError 2)
              | Some x =>
                  let d' := replaceWith sch (now env) d x in
                  if violatesUnique sch c i d' then throw (MongoServerError 11000)
                  else
                    _ ← setCollection k (<[i := d']> c);
                    mret (Some d')
              end
          end
      end
  end.

(** [Model.findByIdAndDelete(id)] *)
Definition findByIdAndDelete (k : Kind) (id : string) : M (option Doc) :=
  match castObjectId id with
  | None => throw (CastError "_id")
  | Some i =>
      _ ← emit (EvDelete k);
      c ← getCollection k;
      match c !! i with
      | None => mret None
      | Some d =>
          _ ← setCollection k (delete i c);
          mret (Some d)
      end
  end.

End Mongoose.

(* ===================================================================== *)
(** ** The route handlers: [src/app/api/...] *)
(* ===================================================================== *)

Module Routes.
Import Models Runtime Db Mongoose.

Inductive Payload :=
| Docs (l : list JsonObject)
| OneDoc (o : JsonObject)
| ErrorMessage (s : string)
| Message (s : string).

Record Response := mkResponse {
  status : nat;
  payload : Payload
}.

(** [NextResponse.json(data)] and [NextResponse.json(data, { status })] *)
Definition json (data : Payload) : Response := mkResponse 200 data.
Definition jsonStatus (data : Payload) (st : nat) : Response := mkResponse st data.

(** [await request.json()]; [None] is a body that is not JSON. *)
Definition request_json (body : option Body) : M Body :=
  match body with
  | Some b => mret b
  | None => throw SyntaxError
  end.

Definition noun (k : Kind) : string :=
  match k with Student => "student" | Instructor => "instructor" end.

Definition Noun (k : Kind) : string :=
  match k with Student => "Student" | Instructor => "Instructor" end.

(** [GET /api/students], [GET /api/instructors] *)
Definition GET_all (k : Kind) (env : Env) : M Response :=
  tryCatch
    (_ ← connectToDatabase env;
     l ← exec (sort ByCreatedAt false (find k (fun _ => true)));
     mret (json (Docs l)))
    (fun error =>
       mret (jsonStatus (ErrorMessage ("Failed to fetch " ++ noun k ++ "s")) 500)).

(** [POST /api/students], [POST /api/instructors] *)
Definition POST (k : Kind) (request : option Body) (env : Env) : M Response :=
  tryCatch
    (_ ← connectToDatabase env;
     body ← request_json request;
     let name := prop (bName body) in
     let age := prop (bAge body) in
     let email := prop (bEmail body) in
     if negb (JS.truthy name) || negb (JS.truthy age) || negb (JS.truthy email) then
       mret (jsonStatus (ErrorMessage "All fields are required") 400)
     else
       doc ← save env k (newModel k name age email);
       mret (jsonStatus (OneDoc (toObject doc)) 201))
    (fun error =>
       if bool_decide (errorCode error = Some 11000%Z) then
         mret (jsonStatus (ErrorMessage "Email already exists") 400)
       else
         mret (jsonStatus (ErrorMessage ("Failed to create " ++ noun k)) 500)).

(** [GET /api/students/[id]], [GET /api/instructors/[id]] *)
Definition GET_one (k : Kind) (id : string) (env : Env) : M Response :=
  tryCatch
    (_ ← connectToDatabase env;
     found ← findById k id;
     match found with
     | None => mret (jsonStatus (ErrorMessage (Noun k ++ " not found")) 404)
     | Some doc => mret (json (OneDoc (toObject doc)))
     end)
    (fun error => mret (jsonStatus (ErrorMessage "Invalid ID or server error") 400)).

(** [PUT /api/students/[id]], [PUT /api/instructors/[id]] *)
Definition PUT (k : Kind) (id : string) (request : option Body) (env : Env) : M Response :=
  tryCatch
    (_ ← connectToDatabase env;
     body ← request_json request;
     updated ← findByIdAndUpdate env k id body;
     match updated with
     | None => mret (jsonStatus (ErrorMessage (Noun k ++ " not found")) 404)
     | Some doc => mret (json (OneDoc (toObject doc)))
     end)
    (fun error => mret (jsonStatus (ErrorMessage "Failed to update") 400)).

(** The same routes, when the body is of the other kind. *)
Definition PUT_with (k : Kind) (id : string) (body : OtherBody) (env : Env) : M Response :=
  tryCatch
    (_ ← connectToDatabase env;
     updated ← findByIdAndUpdateWith env k id body;
     match updated with
     | None => mret (jsonStatus (ErrorMessage (Noun k ++ " not found")) 404)
     | Some doc => mret (json (OneDoc (toObject doc)))
     end)
    (fun error => mret (jsonStatus (ErrorMessage "Failed to update") 400)).

(** [DELETE /api/students/[id]], [DELETE /api/instructors/[id]] *)
Definition DELETE (k : Kind) (id : string) (env : Env) : M Response :=
  tryCatch
    (_ ← connectToDatabase env;
     deleted ← findByIdAndDelete k id;
     match deleted with
     | None => mret (jsonStatus (ErrorMessage (Noun k ++ " not found")) 404)
     | Some _ => mret (jsonStatus (Message (Noun k ++ " deleted successfully")) 200)
     end)
    (fun error => mret (jsonStatus (ErrorMessage "Failed to delete") 500)).

(** The regular expression of a search: one of the fragment, or one the
    surroundings' engine answers for. *)
Inductive Regex :=
| Modelled (regex : JS.RegExp)
| Foreign (test : string -> bool).

Definition Regex_test (regex : Regex) (s : string) : bool :=
  match regex with
  | Modelled re => JS.RegExp_test re s
  | Foreign test => test s
  end.

(** [$or: [{ name: { $regex: regex } }, { email: { $regex: regex } }]] *)
Definition nameOrEmail (regex : Regex) (d : Doc) : bool :=
  Regex_test regex (name d) || Regex_test regex (email d).

(** [searchParams.get('q')?.trim()] *)
Definition trimmedQuery (q : option string) : option string := JS.trim <$> q.

(** [new RegExp(q, 'i')]: a pattern that is refused throws a SyntaxError. *)
Definition newRegExp (env : Env) (pattern : string) (ignoreCase : bool) : M Regex :=
  match JS.RegExp_new pattern ignoreCase with
  | Some regex => mret (Modelled regex)
  | None =>
      if JS.malformed pattern then throw SyntaxError
      else
        match engine env pattern with
        | Some test => mret (Foreign test)
        | None => throw SyntaxError
        end
  end.

(** [GET /api/students/search?q=...] *)
Definition GET_search (q : option string) (env : Env) : M Response :=
  tryCatch
    (match trimmedQuery q with
     | None => mret (json (Docs []))
     | Some q =>
         if JS.isEmpty q || (String.length q <? 1)%nat then mret (json (Docs []))
         else
           _ ← connectToDatabase env;
           regex ← newRegExp env q true;
           l ← exec (limit 50 (sort ByName true
                       (select ["name"; "age"; "email"]
                          (find Student (nameOrEmail regex)))));
           mret (json (Docs l))
     end)
    (fun error => mret (jsonStatus (ErrorMessage "Failed to search students") 500)).

(** The router: which handler serves which method and path. *)
Inductive Request :=
| ListAll (k : Kind)                                  (* GET /api/<kind>s *)
| Create (k : Kind) (body : option Body)              (* POST /api/<kind>s *)
| Read (k : Kind) (id : string)                       (* GET /api/<kind>s/[id] *)
| Update (k : Kind) (id : string) (body : option Body)  (* PUT /api/<kind>s/[id] *)
| UpdateWith (k : Kind) (id : string) (body : OtherBody)  (* the same, other bodies *)
| Remove (k : Kind) (id : string)                     (* DELETE /api/<kind>s/[id] *)
| Search (q : option string).                         (* GET /api/students/search *)

Definition handle (r : Request) (env : Env) : M Response :=
  match r with
  | ListAll k => GET_all k env
  | Create k body => POST k body env
  | Read k id => GET_one k id env
  | Update k id body => PUT k id body env
  | UpdateWith k id body => PUT_with k id body env
  | Remove k id => DELETE k id env
  | Search q => GET_search q env
  end.

(** The process at start: nothing cached, nothing stored. *)
Definition initial : World := mkWorld (mkCache None None) ∅ ∅ [].

(** Serving requests one after the other. *)
Fixpoint serve (rs : list (Request * Env)) (w : World) : World :=
  match rs with
  | [] => w
  | (r, env) :: rs' => serve rs' (handle r env w).2
  end.

End Routes.

(* ===================================================================== *)
(** ** The vocabulary of the specification *)
(* ===================================================================== *)

Module Spec.
Import Models Runtime Db Mongoose Routes.

(** Does a call of [connectToDatabase] made now obtain the connection? *)
Definition connected (env : Env) (w : World) : bool :=
  match (connectToDatabase env w).1 with
  | Return _ => true
  | _ => false
  end.

(** The promise a call of [connectToDatabase] awaits when no handle is
    cached: the pending one, or that of a new attempt. *)
Definition awaited (env : Env) (w : World) : Promise :=
  default (connectOutcome env) (promise (cached w)).

Definition pending (w : World) : bool := isSome (promise (cached w)).

(** A query that is absent, empty, or only whitespace. *)
Definition blankQuery (q : option string) : Prop :=
  match q with
  | None => True
  | Some s => JS.trim s = ""
  end.

(** [q] occurs in [s], letter case aside. *)
Definition containsCI (q s : string) : bool :=
  JS.includes (JS.toLowerCase q) (JS.toLowerCase s).

(** The search criterion of the specification: the query occurs in the name
    or in the email. *)
Definition specMatches (q : string) (d : Doc) : bool :=
  containsCI q (name d) || containsCI q (email d).

(** The answer the specification asks for: the matching entities, sorted by
    name ascending, capped at 50. *)
Definition searchAnswer (q : string) (c : gmap ObjectId Doc) (ds : list Doc) : Prop :=
  ∃ all : list Doc,
    all ≡ₚ List.filter (specMatches q) (documents c) ∧
    Sorted (sortRel ByName true) all ∧
    ds = take 50 all.

(** How the search route renders an entity. *)
Definition renderFound (d : Doc) : JsonObject :=
  project ["name"; "age"; "email"] (toObject d).

(** The search route answers [q] over the students of [w] as specified. *)
Definition searchAsSpecified (q : string) (env : Env) (w : World) : Prop :=
  ∃ ds : list Doc,
    (GET_search (Some q) env w).1 = Return (json (Docs (renderFound <$> ds))) ∧
    searchAnswer q (students w) ds.

(** A query made of ordinary characters: none is a SyntaxCharacter. *)
Fixpoint ordinary (q : string) : bool :=
  match q with
  | EmptyString => true
  | String c q' => negb (JS.isSyntaxCharacter c) && ordinary q'
  end.

(** The pattern an ordinary query is: its characters, one by one. *)
Fixpoint literals (q : string) : list (JS.CharClass * JS.Quant) :=
  match q with
  | EmptyString => []
  | String c q' => (JS.CLit c, JS.QOne) :: literals q'
  end.

Fixpoint dropChars (n : nat) (s : string) : string :=
  match n, s with
  | S n', String _ s' => dropChars n' s'
  | _, _ => s
  end.

(** The body [{ age: 30 }] *)
Definition ageThirty : option Body :=
  Some (mkBody None (Some (JS.VNum (JS.ofZ 30))) None).

(** An age the schema accepts: it casts to a number, at least 1. *)
Definition acceptableAge (v : JS.Value) : bool :=
  match castNumber v with
  | Casted (Some n) => JS.geZ n 1
  | _ => false
  end.

(** An age as the specification asks for it: moreover an integer. *)
Definition integerAge (v : JS.Value) : bool :=
  match castNumber v with
  | Casted (Some n) => JS.isInteger n && JS.geZ n 1
  | _ => false
  end.

(** The names of the properties of an object, in order. *)
Definition keys (o : JsonObject) : list string := o.*1.

(** The objects a search returned. *)
Definition found (r : Result Response) : list JsonObject :=
  match r with
  | Return (mkResponse _ (Docs l)) => l
  | _ => []
  end.

Definition statusOf (r : Result Response) : option nat :=
  match r with
  | Return resp => Some (status resp)
  | _ => None
  end.

Fixpoint noWhiteSpace (s : string) : bool :=
  match s with
  | EmptyString => true
  | String c s' => negb (JS.isWhiteSpace c) && noWhiteSpace s'
  end.

(** The classes of the items match no whitespace. *)
Definition avoidWhiteSpace (i : bool) (items : list (JS.CharClass * JS.Quant)) : Prop :=
  ∀ it c, In it items → JS.classMatches i it.1 c = true → JS.isWhiteSpace c = false.

(** A stored email in normal form: trimmed, lower case, of the shape the
    schema's pattern describes. *)
Definition emailNormal (e : string) : Prop :=
  JS.trim e = e ∧ JS.toLowerCase e = e ∧
  ∃ re, JS.RegExp_new "^\S+@\S+\.\S+$" false = Some re ∧ JS.RegExp_test re e = true.

Definition emailsNormal (c : gmap ObjectId Doc) : Prop :=
  ∀ i d, c !! i = Some d → emailNormal (email d).

Definition emailsUnique (c : gmap ObjectId Doc) : Prop :=
  ∀ i j d d', c !! i = Some d → c !! j = Some d' → email d = email d' → i = j.

(** *** Failures, by kind (section 7 of the specification) *)

Inductive Failure :=
| MissingField        (* ValidationError: a required field is missing *)
| InvalidField        (* ValidationError: a field is present and bad *)
| DuplicateKey
| InvalidIdentifier
| NotFound
| ConnectionFailed
| Unclassified.       (* here: a body that is not JSON, a pattern that is
                         refused, an error of the server *)

(** The status the specification gives each kind of failure. *)
Definition specStatus (f : Failure) : nat :=
  match f with
  | MissingField | InvalidField | DuplicateKey | InvalidIdentifier => 400
  | NotFound => 404
  | ConnectionFailed | Unclassified => 500
  end.

(** The status each route gives each kind of failure. *)
Definition routeStatus (r : Request) (f : Failure) : nat :=
  match r, f with
  | Create _ _, (MissingField | DuplicateKey) => 400
  | Create _ _, _ => 500
  | (Read _ _ | Update _ _ _ | UpdateWith _ _ _ | Remove _ _), NotFound => 404
  | (Read _ _ | Update _ _ _ | UpdateWith _ _ _), _ => 400
  | Remove _ _, _ => 500
  | (ListAll _ | Search _), _ => 500
  end.

Definition okStatus (r : Request) : nat :=
  match r with
  | Create _ _ => 201
  | _ => 200
  end.

Definition blank (q : option string) : bool :=
  match q with
  | None => true
  | Some s => JS.isEmpty (JS.trim s)
  end.

Definition missingField (b : Body) : bool :=
  negb (JS.truthy (prop (bName b))) || negb (JS.truthy (prop (bAge b))) ||
  negb (JS.truthy (prop (bEmail b))).

(** The document a create request describes, when its three fields are
    valid. *)
Definition draftDoc (env : Env) (k : Kind) (b : Body) : option Doc :=
  let d := newModel k (prop (bName b)) (prop (bAge b)) (prop (bEmail b)) in
  match validString (pName (schemaOf k)) (dName d),
        validNumber (pAge (schemaOf k)) (dAge d),
        validString (pEmail (schemaOf k)) (dEmail d) with
  | Some n, Some a, Some e => Some (mkDoc (freshId env) n a e (now env) (now env) 0)
  | _, _, _ => None
  end.

(** The value an update sets on a path, when the body has one that is valid. *)
Definition setValue {A} (cast : JS.Value -> Cast (option A)) (valid : option A -> bool)
    (v : option JS.Value) : option A :=
  match v with
  | Some x =>
      match cast x with
      | Casted (Some a) => if valid (Some a) then Some a else None
      | _ => None
      end
  | None => None
  end.

(** A path of an update is fine: absent, or present with a valid value. *)
Definition settable {A} (cast : JS.Value -> Cast (option A)) (valid : option A -> bool)
    (v : option JS.Value) : bool :=
  match v with
  | Some _ => isSome (setValue cast valid v)
  | None => true
  end.

Definition validUpdate (k : Kind) (b : Body) : bool :=
  let sch := schemaOf k in
  settable (castStringPath (pName sch)) (validateStringPath (pName sch)) (bName b) &&
  settable castNumber (validateNumberPath (pAge sch)) (bAge b) &&
  settable (castStringPath (pEmail sch)) (validateStringPath (pEmail sch)) (bEmail b).

(** The document an update leaves in place of [d]. *)
Definition updatedDoc (env : Env) (k : Kind) (b : Body) (d : Doc) : Doc :=
  let sch := schemaOf k in
  applyUpdate sch (now env)
    (setValue (castStringPath (pName sch)) (validateStringPath (pName sch)) (bName b))
    (setValue castNumber (validateNumberPath (pAge sch)) (bAge b))
    (setValue (castStringPath (pEmail sch)) (validateStringPath (pEmail sch)) (bEmail b))
    d.

(** By id: a malformed id, or no record under a well-formed one. *)
Definition lookupFailure (k : Kind) (id : string) (w : World) : option Failure :=
  match castObjectId id with
  | None => Some InvalidIdentifier
  | Some i => if isSome (collection k w !! i) then None else Some NotFound
  end.

(** A pattern that [new RegExp] or the database refuses. *)
Definition refusedPattern (env : Env) (q : string) : bool :=
  match JS.RegExp_new q true with
  | Some _ => false
  | None => JS.malformed q || negb (isSome (engine env q))
  end.

(** The failure a request meets, if any, told from the request and the
    world it arrives in, in the words of sections 4 and 7. *)
Definition diagnose (r : Request) (env : Env) (w : World) : option Failure :=
  match r with
  | Search q =>
      if blank q then None
      else if negb (connected env w) then Some ConnectionFailed
      else if refusedPattern env (JS.trim (default "" q)) then Some Unclassified
      else None
  | UpdateWith k id body =>
      if negb (connected env w) then Some ConnectionFailed
      else
        match castObjectId id with
        | None => Some InvalidIdentifier
        | Some i =>
            match body with
            | JsonNull => if isSome (collection k w !! i) then None else Some NotFound
            | Rejected => Some InvalidField
            | Modify f =>
                match collection k w !! i with
                | None => Some NotFound
                | Some d =>
                    match f d with
                    | None => Some Unclassified
                    | Some x =>
                        if violatesUnique (schemaOf k) (collection k w) i
                             (replaceWith (schemaOf k) (now env) d x)
                        then Some DuplicateKey else None
                    end
                end
            end
        end
  | ListAll k => if connected env w then None else Some ConnectionFailed
  | Create k request =>
      if negb (connected env w) then Some ConnectionFailed
      else
        match request with
        | None => Some Unclassified
        | Some b =>
            if missingField b then Some MissingField
            else
              match draftDoc env k b with
              | None => Some InvalidField
              | Some doc =>
                  if isSome (collection k w !! freshId env) ||
                     violatesUnique (schemaOf k) (collection k w) (freshId env) doc
                  then Some DuplicateKey else None
              end
        end
  | Read k id | Remove k id =>
      if negb (connected env w) then Some ConnectionFailed else lookupFailure k id w
  | Update k id request =>
      if negb (connected env w) then Some ConnectionFailed
      else
        match request with
        | None => Some Unclassified
        | Some b =>
            match castObjectId id with
            | None => Some InvalidIdentifier
            | Some i =>
                if negb (validUpdate k b) then Some InvalidField
                else
                  match collection k w !! i with
                  | None => Some NotFound
                  | Some d =>
                      if violatesUnique (schemaOf k) (collection k w) i
                           (updatedDoc env k b d)
                      then Some DuplicateKey else None
                  end
            end
        end
  end.

(** The status the specification predicts, and the one the routes give. *)
Definition specPrediction (r : Request) (env : Env) (w : World) : nat :=
  match diagnose r env w with
  | Some f => specStatus f
  | None => okStatus r
  end.

Definition routePrediction (r : Request) (env : Env) (w : World) : nat :=
  match diagnose r env w with
  | Some f => routeStatus r f
  | None => okStatus r
  end.

(** The invariant of the two collections. *)
Definition storeInv (w : World) : Prop :=
  ∀ k, emailsNormal (collection k w) ∧ emailsUnique (collection k w).

Definition keepsInv : relation World := fun w w' => storeInv w → storeInv w'.

Definition sameCollections : relation World := fun w w' =>
  students w' = students w ∧ instructors w' = instructors w.

(** How many times [mongoose.connect] was called. *)
Fixpoint connects (t : list Event) : nat :=
  match t with
  | [] => 0
  | EvConnect :: t' => S (connects t')
  | _ :: t' => connects t'
  end.

(** [m] keeps the relation [P] between the world before and the world after. *)
Definition preserves {A} (P : relation World) (m : M A) : Prop :=
  ∀ w, P w (m w).2.

(** Same cache, and no new connection attempt. *)
Definition sameConnection : relation World := fun w w' =>
  cached w' = cached w ∧ connects (trace w') = connects (trace w).

(** The cached handle, once there, stays, and no attempt is made. *)
Definition keepsHandle (h : Handle) : relation World := fun w w' =>
  conn (cached w) = Some h →
  conn (cached w') = Some h ∧ connects (trace w') = connects (trace w).

End Spec.

(* ===================================================================== *)
(** ** Sample worlds and requests *)
(* ===================================================================== *)

Module Sample.
Import Models Runtime Db Mongoose Routes Spec.

Definition hasDigit (s : string) : bool :=
  existsb (fun c => isSome (JS.digitValue 10 c)) (list_ascii_of_string s).

(** The engine of the samples, on the patterns they use beyond the
    fragment: [jo|amy] is one or the other, [jo*] is a [j] and any number of
    [o], [\d] is a digit, each anywhere in the string and letter case aside.
    The samples use no other. *)
Definition engine (p : string) : option (string -> bool) :=
  if String.eqb p "jo|amy" then Some (fun s => containsCI "jo" s || containsCI "amy" s)
  else if String.eqb p "jo*" then Some (containsCI "j")
  else if String.eqb p "\d" then Some hasDigit
  else None.

Definition up (t : Z) (id : ObjectId) : Env := mkEnv (Resolves 7) t id engine.
Definition down (t : Z) (id : ObjectId) : Env :=
  mkEnv (Rejects "ECONNREFUSED") t id engine.

(** The update document [{ "$max": { "email": s } }]: the email becomes
    [s] when [s] is the greater, in the order of the code units. *)
Definition maxEmail (s : string) (d : Doc) : option Doc :=
  Some (mkDoc (_id d) (name d) (age d)
              (if String.ltb (email d) s then s else email d)
              (createdAt d) (updatedAt d) (__v d)).

(** The update document [{ "$mul": { "age": 0 } }] *)
Definition mulAgeZero (d : Doc) : option Doc :=
  Some (mkDoc (_id d) (name d) (JS.Dec 0 0) (email d) (createdAt d) (updatedAt d) (__v d)).

(** The update document [{ "__v": v }] *)
Definition setVersion (v : Z) (d : Doc) : option Doc :=
  Some (mkDoc (_id d) (name d) (age d) (email d) (createdAt d) (updatedAt d) v).

Definition idJohn : ObjectId := "671f3a9b2c1d4e5f789abc12".
Definition idAmy : ObjectId := "671f3a9b2c1d4e5f789abc13".
Definition idNew : ObjectId := "671f3a9b2c1d4e5f789abc14".

Definition num (z : Z) : JS.Value := JS.VNum (JS.ofZ z).

Definition fields (name : string) (age : JS.Value) (email : string) : option Body :=
  Some (mkBody (Some (JS.VStr name)) (Some age) (Some (JS.VStr email))).

Definition ageOnly (age : JS.Value) : option Body :=
  Some (mkBody None (Some age) None).

(** Two students, created through the API. *)
Definition twoStudents : World :=
  serve [(Create Student (fields "John Doe" (num 20) "a@x.com"), up 100 idJohn);
         (Create Student (fields "Amy" (num 21) "jo123@y.com"), up 200 idAmy)]
        initial.

Definition john : Doc := mkDoc idJohn "John Doe" (JS.ofZ 20) "a@x.com" 100 100 0.
Definition amy : Doc := mkDoc idAmy "Amy" (JS.ofZ 21) "jo123@y.com" 200 200 0.

(** A third student, created with the age [1e3]. *)
Definition threeStudents : World :=
  serve [(Create Student (fields "Zoe" (JS.VNum (JS.Dec 1 3)) "zoe@x.com"), up 300 idNew)]
        twoStudents.

Definition zoe : Doc := mkDoc idNew "Zoe" (JS.Dec 1 3) "zoe@x.com" 300 300 0.

End Sample.

(* ===================================================================== *)
(** ** The components: [src/components/StudentForm.js], [StudentList.js] *)
(* ===================================================================== *)

Module Components.
Import Models Runtime Db Mongoose Routes.

(** ToString, on what a form field can hold (a typed text, or the string
    or number of the student being edited). *)
Definition ToString (v : JS.Value) : string :=
  match v with
  | JS.VUndefined => "undefined"
  | JS.VNull => "null"
  | JS.VBool b => if b then "true" else "false"
  | JS.VNum n => JS.Number_toString n
  | JS.VStr s => s
  | JS.VObject => "[object Object]"
  end.

(** [parseInt(v, 10)]: leading whitespace skipped, a sign, then the longest
    run of decimal digits; [NaN] when there is none. *)
Definition parseInt10 (v : JS.Value) : JS.Num :=
  let '(negative, s1) := JS.readSign (JS.trimStart (ToString v)) in
  let '(z, k, _) := JS.readDigits 10 s1 0%Z 0%Z in
  if (k =? 0)%Z then JS.NaN else JS.Dec (JS.signed negative z) 0.

(** What [JSON.stringify] followed by the server's [request.json()] makes
    of a property: [undefined] is left out, a number that is not finite
    becomes [null]. *)
Definition viaJson (v : JS.Value) : option JS.Value :=
  match v with
  | JS.VUndefined => None
  | JS.VNum (JS.Dec _ _) => Some v
  | JS.VNum _ => Some JS.VNull
  | _ => Some v
  end.

(** A student as the list received it: the properties the components read. *)
Definition received (v : JS.Value) : JS.Value := default JS.VUndefined (viaJson v).

(** [const [formData, setFormData] = useState({ name: '', age: '', email: '' })] *)
Record FormData := mkFormData {
  fName : JS.Value;
  fAge : JS.Value;
  fEmail : JS.Value
}.

Definition blankForm : FormData :=
  mkFormData (JS.VStr "") (JS.VStr "") (JS.VStr "").

(** [x || ''] *)
Definition orEmpty (v : JS.Value) : JS.Value :=
  if JS.truthy v then v else JS.VStr "".

(** The effect that fills the form when a student is given for editing. *)
Definition prefill (studentToEdit : option Doc) (f : FormData) : FormData :=
  match studentToEdit with
  | Some d =>
      mkFormData (orEmpty (received (JS.VStr (name d))))
                 (orEmpty (received (JS.VNum (age d))))
                 (orEmpty (received (JS.VStr (email d))))
  | None => f
  end.

(** The three inputs of the form, by their [name] attribute. *)
Inductive Input := InputName | InputAge | InputEmail.

(** [handleChange]: [setFormData(prev => ({ ...prev, [name]: value }))] *)
Definition handleChange (input : Input) (value : string) (prev : FormData) : FormData :=
  match input with
  | InputName => mkFormData (JS.VStr value) (fAge prev) (fEmail prev)
  | InputAge => mkFormData (fName prev) (JS.VStr value) (fEmail prev)
  | InputEmail => mkFormData (fName prev) (fAge prev) (JS.VStr value)
  end.

(** [JSON.stringify({ ...formData, age: parseInt(formData.age, 10) })], as
    the server parses it. *)
Definition submittedBody (f : FormData) : Body :=
  mkBody (viaJson (fName f))
         (viaJson (JS.VNum (parseInt10 (fAge f))))
         (viaJson (fEmail f)).

(** The request [handleSubmit] sends: PUT to the student's id when editing,
    POST otherwise. *)
Definition submittedRequest (studentToEdit : option Doc) (f : FormData) : Request :=
  match studentToEdit with
  | Some d => Update Student (_id d) (Some (submittedBody f))
  | None => Create Student (Some (submittedBody f))
  end.

(** [res.ok] *)
Definition ok (resp : Response) : bool :=
  (200 <=? status resp)%nat && (status resp <=? 299)%nat.

(** [err.error || 'Failed to save student'] *)
Definition errorText (data : Payload) : string :=
  match data with
  | ErrorMessage s => if JS.isEmpty s then "Failed to save student" else s
  | _ => "Failed to save student"
  end.

(** What a submit leaves behind: the form, the alert shown if any, and
    whether the callbacks ([onClose], [fetchStudents], [onSaved]) ran. *)
Record Submitted := mkSubmitted {
  formAfter : FormData;
  alerted : option string;
  saved : bool
}.

(** [handleSubmit] *)
Definition handleSubmit (studentToEdit : option Doc) (f : FormData) (env : Env)
    (w : World) : Submitted * World :=
  match handle (submittedRequest studentToEdit f) env w with
  | (Return res, w') =>
      if ok res then (mkSubmitted blankForm None true, w')
      else (mkSubmitted f (Some (errorText (payload res))) false, w')
  | (_, w') =>
      (mkSubmitted f (Some "Network error — check your connection") false, w')
  end.

(** The state of the list: [students] and [loading]. *)
Record ListState := mkListState {
  studentsShown : Payload;
  loading : bool
}.

Definition listAtStart : ListState := mkListState (Docs []) true.

(** [fetchStudents]: whatever the server answers becomes [students]. *)
Definition fetchStudents (env : Env) (st : ListState) (w : World) : ListState * World :=
  match GET_all Student env w with
  | (Return res, w') => (mkListState (payload res) false, w')
  | (_, w') => (mkListState (studentsShown st) false, w')
  end.

(** [handleDelete]: nothing unless confirmed; then the DELETE, then a
    refresh of the list. *)
Definition handleDelete (confirmed : bool) (id : string) (envDelete envFetch : Env)
    (st : ListState) (w : World) : ListState * World :=
  if negb confirmed then (st, w)
  else
    match DELETE Student id envDelete w with
    | (Return _, w') => fetchStudents envFetch st w'
    | (_, w') => (st, w')
    end.

End Components.

(* ===================================================================== *)
(** ** Further vocabulary: effects on the store, validity, time *)
(* ===================================================================== *)

Module Laws.
Import Models Runtime Db Mongoose Routes Spec.

#[global] Instance Kind_eq_dec : EqDecision Kind.
Proof. solve_decision. Defined.

(** The routes that only read. *)
Definition readOnly (r : Request) : bool :=
  match r with
  | ListAll _ | Read _ _ | Search _ => true
  | _ => false
  end.

(** A request that is not an update applied by the database as the client
    wrote it: every request but a PUT whose body holds operators, a [__v] or
    the like. *)
Definition plain (r : Request) : bool :=
  match r with
  | UpdateWith _ _ (Modify _) => false
  | _ => true
  end.

Definition plainRequests (rs : list (Request * Env)) : Prop :=
  Forall (fun re => plain re.1 = true) rs.

(** The entity an update addresses. *)
Definition updateTarget (r : Request) : option (Kind * string) :=
  match r with
  | Update k id _ | UpdateWith k id _ => Some (k, id)
  | _ => None
  end.

(** No two entities of a kind share an email. *)
Definition uniqueEmails (w : World) : Prop :=
  ∀ k, emailsUnique (collection k w).

(** The three ways the store changes. *)
Definition inserted (k : Kind) (i : ObjectId) (d : Doc) (w w' : World) : Prop :=
  collection k w !! i = None ∧
  collection k w' = <[i:=d]> (collection k w) ∧
  ∀ k', k' ≠ k → collection k' w' = collection k' w.

Definition replaced (k : Kind) (i : ObjectId) (d d' : Doc) (w w' : World) : Prop :=
  collection k w !! i = Some d ∧
  collection k w' = <[i:=d']> (collection k w) ∧
  ∀ k', k' ≠ k → collection k' w' = collection k' w.

Definition removed (k : Kind) (i : ObjectId) (d : Doc) (w w' : World) : Prop :=
  collection k w !! i = Some d ∧
  collection k w' = delete i (collection k w) ∧
  ∀ k', k' ≠ k → collection k' w' = collection k' w.

(** A stored document as the schema wants it: filed under its own id, with
    a name that is trimmed and not empty and an age of at least 1. *)
Definition validDoc (i : ObjectId) (d : Doc) : Prop :=
  _id d = i ∧ name d ≠ "" ∧ JS.trim (name d) = name d ∧ JS.geZ (age d) 1 = true.

Definition storeValid (w : World) : Prop :=
  ∀ k i d, collection k w !! i = Some d → validDoc i d.

(** A request that reaches [connectToDatabase]: every one but a search
    with a blank query. *)
Definition reachesConnect (r : Request) : bool :=
  match r with
  | Search q => negb (blank q)
  | _ => true
  end.

(** Nothing cached and nothing pending: a call would start an attempt. *)
Definition idle (w : World) : bool :=
  negb (isSome (conn (cached w))) && negb (isSome (promise (cached w))).

(** The clock of a sequence of requests does not go back, from [t] on. *)
Fixpoint clockFrom (t : Z) (rs : list (Request * Env)) : Prop :=
  match rs with
  | [] => True
  | (_, env) :: rs' => (t ≤ now env)%Z ∧ clockFrom (now env) rs'
  end.

(** The time of the last request served, [t] if there was none. *)
Fixpoint lastTime (t : Z) (rs : list (Request * Env)) : Z :=
  match rs with
  | [] => t
  | (_, env) :: rs' => lastTime (now env) rs'
  end.

(** Every stored document was created no later than it was last updated,
    and that no later than [t]. *)
Definition timesOrdered (t : Z) (w : World) : Prop :=
  ∀ k i d, collection k w !! i = Some d →
    (createdAt d ≤ updatedAt d)%Z ∧ (updatedAt d ≤ t)%Z.

(** The shape of an accepted email: [local@domain.tld], the three parts
    not empty, no whitespace anywhere. *)
Definition emailShape (s : string) : Prop :=
  ∃ a b c : string,
    s = (a ++ String "@" (b ++ String "." c))%string ∧
    a ≠ "" ∧ b ≠ "" ∧ c ≠ "" ∧
    noWhiteSpace a = true ∧ noWhiteSpace b = true ∧ noWhiteSpace c = true.

(** The value of a number that is whole, however it is written. *)
Definition wholeValue (n : JS.Num) : option Z :=
  match n with
  | JS.Dec m e =>
      if (0 <=? e)%Z then Some (m * 10 ^ e)%Z
      else if (m mod 10 ^ (- e) =? 0)%Z then Some (m / 10 ^ (- e))%Z
      else None
  | _ => None
  end.

(** A request refused: an error message with a status from 400 on, and both
    collections as they were. *)
Definition refused (w : World) (res : Result Response * World) : Prop :=
  sameCollections w res.2 ∧
  ∃ msg st, res.1 = Return (jsonStatus (ErrorMessage msg) st) ∧ (400 ≤ st)%nat.

(** An update goes through: there is a connection, the body is valid, and
    the document it leaves clashes with no other. *)
Definition updateGoesThrough (k : Kind) (i : ObjectId) (b : Body) (d : Doc)
    (env : Env) (w : World) : bool :=
  connected env w && validUpdate k b &&
  negb (violatesUnique (schemaOf k) (collection k w) i (updatedDoc env k b d)).

End Laws.

Module Cases.
Import Models Runtime Db Mongoose Routes Components.

Definition formOf (name age email : string) : FormData :=
  mkFormData (JS.VStr name) (JS.VStr age) (JS.VStr email).

End Cases.

(* ===================================================================== *)
(** ** The connection manager, verified *)
(* ===================================================================== *)

Import Models Runtime Db Mongoose Routes Spec Components Laws.

Ltac unfold_monad :=
  unfold mbind, mret, M_bind, M_ret, throw, tryCatch, emit,
    getCached, setConn, setPromise, getCollection, setCollection in *.

(** *** Relations every step of a computation keeps *)

Section Preservation.
Context {P : relation World} `{!PreOrder P}.

Lemma preserves_ret {A} (a : A) : preserves P (mret a).
Proof. intros w. reflexivity. Qed.

Lemma preserves_throw {A} e : preserves P (throw (A:=A) e).
Proof. intros w. reflexivity. Qed.

Lemma preserves_getCached : preserves P getCached.
Proof. intros w. reflexivity. Qed.

Lemma preserves_getCollection k : preserves P (getCollection k).
Proof. intros w. reflexivity. Qed.

Lemma preserves_bind {A B} (m : M A) (f : A → M B) :
  preserves P m → (∀ a, preserves P (f a)) → preserves P (m ≫= f).
Proof.
  intros Hm Hf w. unfold mbind, M_bind. specialize (Hm w).
  destruct (m w) as [[a| e] w1]; simpl in *; try done.
  etrans; [exact Hm|]. apply Hf.
Qed.

Lemma preserves_tryCatch {A} (m : M A) (h : Error → M A) :
  preserves P m → (∀ e, preserves P (h e)) → preserves P (tryCatch m h).
Proof.
  intros Hm Hh w. unfold tryCatch. specialize (Hm w).
  destruct (m w) as [[a| e] w1]; simpl in *; try done.
  etrans; [exact Hm|]. apply Hh.
Qed.

End Preservation.

Ltac preserve_step :=
  first
    [ apply preserves_ret | apply preserves_throw
    | apply preserves_getCached | apply preserves_getCollection
    | apply preserves_bind; [| intros ?]
    | apply preserves_tryCatch; [| intros ?]
    | match goal with
      | |- preserves _ (match ?x with _ => _ end) => destruct x
      end ].

#[local] Instance sameConnection_preorder : PreOrder sameConnection.
Proof.
  split.
  - by intros w.
  - intros w1 w2 w3 [? ?] [? ?]. split; congruence.
Qed.

#[local] Instance keepsHandle_preorder h : PreOrder (keepsHandle h).
Proof.
  split.
  - by intros w.
  - intros w1 w2 w3 H12 H23 Hc. destruct (H12 Hc) as [Hc2 ?].
    destruct (H23 Hc2). split; [done | congruence].
Qed.

Lemma sameConnection_keepsHandle {A} h (m : M A) :
  preserves sameConnection m → preserves (keepsHandle h) m.
Proof. intros Hm w Hc. destruct (Hm w) as [Hk ?]. by rewrite Hk. Qed.

Section Connection.

(** With a cached handle the call is the fast path: the handle, nothing else. *)
Lemma connect_cached env w h :
  conn (cached w) = Some h → connectToDatabase env w = (Return h, w).
Proof.
  intros Hc. unfold connectToDatabase. unfold_monad. simpl. by rewrite Hc.
Qed.

Lemma connect_resolves env w h :
  conn (cached w) = None → awaited env w = Resolves h →
  ∃ w', connectToDatabase env w = (Return h, w') ∧
        cached w' = mkCache (Some h) (Some (Resolves h)) ∧
        students w' = students w ∧ instructors w' = instructors w ∧
        trace w' = (if pending w then trace w else EvConnect :: trace w).
Proof.
  intros Hc Ha. unfold awaited in Ha. unfold pending, connectToDatabase, mongoose_connect.
  unfold_monad. simpl. rewrite Hc.
  destruct (promise (cached w)) as [p|] eqn:Hp; simpl in *; rewrite Ha;
    eexists; (split; [reflexivity|]); simpl; by rewrite ?Hp, ?Ha.
Qed.

Lemma connect_rejects env w reason :
  conn (cached w) = None → awaited env w = Rejects reason →
  ∃ w', connectToDatabase env w = (Throw (ConnectionError reason), w') ∧
        cached w' = mkCache None None ∧
        students w' = students w ∧ instructors w' = instructors w ∧
        trace w' = (if pending w then trace w else EvConnect :: trace w).
Proof.
  intros Hc Ha. unfold awaited in Ha. unfold pending, connectToDatabase, mongoose_connect.
  unfold_monad. simpl. rewrite Hc.
  destruct (promise (cached w)) as [p|] eqn:Hp; simpl in *; rewrite Ha;
    eexists; (split; [reflexivity|]); simpl; by rewrite ?Hc, ?Hp, ?Ha.
Qed.

(** A call never touches the collections. *)
Lemma connect_frame env w :
  let '(r, w') := connectToDatabase env w in
  students w' = students w ∧ instructors w' = instructors w ∧
  (∀ h, conn (cached w) = Some h → conn (cached w') = Some h) ∧
  ((∃ h, r = Return h ∧ conn (cached w') = Some h) ∨
   (∃ reason, r = Throw (ConnectionError reason) ∧ conn (cached w) = None)).
Proof.
  destruct (conn (cached w)) as [h|] eqn:Hc.
  - rewrite (connect_cached env w h Hc). rewrite Hc. naive_solver.
  - destruct (awaited env w) as [h|reason] eqn:Ha.
    + destruct (connect_resolves env w h Hc Ha) as (w' & -> & Hw & ? & ? & ?).
      rewrite Hw. simpl. naive_solver.
    + destruct (connect_rejects env w reason Hc Ha) as (w' & -> & Hw & ? & ? & ?).
      naive_solver.
Qed.

(** The two ways a call can go, seen from a handler. *)
Lemma connected_run env w :
  connected env w = true →
  ∃ h w1, connectToDatabase env w = (Return h, w1) ∧
          students w1 = students w ∧ instructors w1 = instructors w ∧
          (trace w1 = trace w ∨ trace w1 = EvConnect :: trace w).
Proof.
  unfold connected. intros Hcon.
  destruct (conn (cached w)) as [h|] eqn:Hc.
  { rewrite (connect_cached env w h Hc). exists h, w. naive_solver. }
  destruct (awaited env w) as [h|reason] eqn:Ha.
  - destruct (connect_resolves env w h Hc Ha) as (w1 & Hrun & _ & ? & ? & Ht).
    exists h, w1. rewrite Ht. destruct (pending w); naive_solver.
  - destruct (connect_rejects env w reason Hc Ha) as (w1 & Hrun & _).
    by rewrite Hrun in Hcon.
Qed.

Lemma disconnected_run env w :
  connected env w = false →
  ∃ reason w1, connectToDatabase env w = (Throw (ConnectionError reason), w1) ∧
          students w1 = students w ∧ instructors w1 = instructors w ∧
          (trace w1 = trace w ∨ trace w1 = EvConnect :: trace w).
Proof.
  unfold connected. intros Hcon.
  destruct (conn (cached w)) as [h|] eqn:Hc.
  { by rewrite (connect_cached env w h Hc) in Hcon. }
  destruct (awaited env w) as [h|reason] eqn:Ha.
  - destruct (connect_resolves env w h Hc Ha) as (w1 & Hrun & _).
    by rewrite Hrun in Hcon.
  - destruct (connect_rejects env w reason Hc Ha) as (w1 & Hrun & _ & ? & ? & Ht).
    exists reason, w1. rewrite Ht. destruct (pending w); naive_solver.
Qed.

(** C7.  When the awaited connection attempt fails, [connectToDatabase]
    throws the connection error to its caller, leaves no pending promise and
    no cached handle, and the next call starts a new attempt. *)
Theorem connect_failure_resets env w reason :
  conn (cached w) = None →
  awaited env w = Rejects reason →
  ∃ w', connectToDatabase env w = (Throw (ConnectionError reason), w') ∧
        promise (cached w') = None ∧ conn (cached w') = None ∧
        ∀ env', trace (connectToDatabase env' w').2 = EvConnect :: trace w'.
Proof.
  intros Hc Ha.
  destruct (connect_rejects env w reason Hc Ha) as (w' & Hrun & Hw & _).
  exists w'. rewrite Hw. repeat split; try done.
  intros env'. destruct (connectOutcome env') as [h|r] eqn:Ho.
  - destruct (connect_resolves env' w' h) as (w'' & Hrun' & _ & _ & _ & Ht).
    + by rewrite Hw.
    + unfold awaited. by rewrite Hw.
    + rewrite Hrun'. simpl. rewrite Ht. unfold pending. by rewrite Hw.
  - destruct (connect_rejects env' w' r) as (w'' & Hrun' & _ & _ & _ & Ht).
    + by rewrite Hw.
    + unfold awaited. by rewrite Hw.
    + rewrite Hrun'. simpl. rewrite Ht. unfold pending. by rewrite Hw.
Qed.

Lemma connect_failure_resets_witness :
  conn (cached initial) = None ∧
  awaited (Sample.down 0 Sample.idNew) initial = Rejects "ECONNREFUSED" ∧
  ∃ w', connectToDatabase (Sample.down 0 Sample.idNew) initial
          = (Throw (ConnectionError "ECONNREFUSED"), w') ∧
        promise (cached w') = None ∧ conn (cached w') = None ∧
        ∀ env', trace (connectToDatabase env' w').2 = EvConnect :: trace w'.
Proof.
  split; [reflexivity|]. split; [reflexivity|].
  apply (connect_failure_resets (Sample.down 0 Sample.idNew) initial "ECONNREFUSED");
    reflexivity.
Defined.

(** *** The Mongoose calls leave the connection alone *)

Lemma emit_sameConnection e : e ≠ EvConnect → preserves sameConnection (emit e).
Proof. intros He w. split; [done|]. simpl. by destruct e. Qed.

Lemma setCollection_sameConnection k c : preserves sameConnection (setCollection k c).
Proof. intros w. by destruct k. Qed.

Lemma castField_same {A} (P : relation World) `{!PreOrder P} path
    (cast : JS.Value → Cast (option A)) v :
  preserves P (castField path cast v).
Proof. unfold castField. repeat preserve_step. Qed.

Lemma validateField_same {A} (P : relation World) `{!PreOrder P} path
    (valid : option A → bool) v :
  preserves P (validateField path valid v).
Proof. unfold validateField. repeat preserve_step. Qed.

Ltac preserve_conn :=
  repeat first
    [ preserve_step
    | apply emit_sameConnection; done
    | apply setCollection_sameConnection
    | apply castField_same; apply _
    | apply validateField_same; apply _ ].

Lemma exec_sameConnection q : preserves sameConnection (exec q).
Proof. unfold exec. preserve_conn. Qed.

Lemma save_sameConnection env k d : preserves sameConnection (save env k d).
Proof. unfold save. preserve_conn. Qed.

Lemma findById_sameConnection k id : preserves sameConnection (findById k id).
Proof. unfold findById. preserve_conn. Qed.

Lemma findByIdAndUpdate_sameConnection env k id body :
  preserves sameConnection (findByIdAndUpdate env k id body).
Proof. unfold findByIdAndUpdate. preserve_conn. Qed.

Lemma findByIdAndUpdateWith_sameConnection env k id body :
  preserves sameConnection (findByIdAndUpdateWith env k id body).
Proof.
  unfold findByIdAndUpdateWith.
  destruct body; [apply findById_sameConnection | preserve_conn | preserve_conn].
Qed.

Lemma findByIdAndDelete_sameConnection k id :
  preserves sameConnection (findByIdAndDelete k id).
Proof. unfold findByIdAndDelete. preserve_conn. Qed.

Lemma connect_keepsHandle h env : preserves (keepsHandle h) (connectToDatabase env).
Proof. intros w Hc. by rewrite (connect_cached env w h Hc). Qed.

Ltac preserve_handle :=
  repeat first
    [ apply connect_keepsHandle
    | apply sameConnection_keepsHandle;
      first [ apply exec_sameConnection | apply save_sameConnection
            | apply findById_sameConnection | apply findByIdAndUpdate_sameConnection
            | apply findByIdAndUpdateWith_sameConnection
            | apply findByIdAndDelete_sameConnection ]
    | preserve_step ].

Lemma handle_keepsHandle h r env : preserves (keepsHandle h) (handle r env).
Proof.
  destruct r; simpl;
    unfold GET_all, POST, GET_one, PUT, PUT_with, DELETE, GET_search, request_json,
      newRegExp;
    preserve_handle.
Qed.

Lemma serve_keepsHandle h rs w :
  conn (cached w) = Some h →
  conn (cached (serve rs w)) = Some h ∧
  connects (trace (serve rs w)) = connects (trace w).
Proof.
  revert w. induction rs as [|[r env] rs IH]; intros w Hc; simpl; [done|].
  destruct (handle_keepsHandle h r env w Hc) as [Hc' Hn].
  destruct (IH _ Hc') as [? ?]. split; [done | congruence].
Qed.

(** C8.  Once a call of [connectToDatabase] has succeeded, the handle is
    cached, and every later call, whatever requests were served in between,
    returns that same handle and changes nothing: no connection attempt is
    made again. *)
Theorem connection_cached_for_good env w h w' :
  connectToDatabase env w = (Return h, w') →
  conn (cached w') = Some h ∧
  ∀ rs env',
    connectToDatabase env' (serve rs w') = (Return h, serve rs w') ∧
    connects (trace (serve rs w')) = connects (trace w').
Proof.
  intros Hrun.
  assert (Hc : conn (cached w') = Some h).
  { pose proof (connect_frame env w) as Hf. rewrite Hrun in Hf.
    destruct Hf as (_ & _ & _ & [(h' & [= ->] & ?) | (? & [=] & _)]). done. }
  split; [done|]. intros rs env'.
  destruct (serve_keepsHandle h rs w' Hc) as [Hc' Hn].
  split; [by apply connect_cached | done].
Qed.

Lemma connection_cached_for_good_witness :
  ∃ w', connectToDatabase (Sample.up 0 Sample.idNew) initial = (Return 7, w') ∧
    conn (cached w') = Some 7 ∧
    ∀ rs env',
      connectToDatabase env' (serve rs w') = (Return 7, serve rs w') ∧
      connects (trace (serve rs w')) = connects (trace w').
Proof.
  eexists. split; [reflexivity|].
  apply (connection_cached_for_good (Sample.up 0 Sample.idNew) initial 7).
  reflexivity.
Defined.

End Connection.

(* ===================================================================== *)
(** ** Search, verified *)
(* ===================================================================== *)

Section Search.

(** C6.  A query that is absent, empty or whitespace-only gets the empty
    list at once: the world is left as it was, so no connection was asked
    for and the storage was not read. *)
Theorem blank_query_answers_at_once q env w :
  blankQuery q →
  GET_search q env w = (Return (json (Docs [])), w).
Proof.
  intros Hq. unfold GET_search, trimmedQuery. unfold_monad.
  destruct q as [s|]; simpl in *; [|done]. by rewrite Hq.
Qed.

Lemma blank_query_answers_at_once_witness :
  blankQuery (Some "   ") ∧
  GET_search (Some "   ") (Sample.down 0 Sample.idNew) Sample.twoStudents
    = (Return (json (Docs [])), Sample.twoStudents).
Proof.
  split; [reflexivity|].
  apply (blank_query_answers_at_once (Some "   ")). reflexivity.
Defined.

(** *** Ordinary queries are matched as substrings *)

Lemma parseChar_ordinary c st :
  JS.isSyntaxCharacter c = false → JS.psEsc st = false → JS.psEnd st = false →
  JS.parseChar c st = Some (JS.pushItem (JS.CLit c) st).
Proof.
  intros Hc He Hd. unfold JS.parseChar. rewrite He, Hd, Hc.
  repeat match goal with
         | |- context [Ascii.eqb c ?x] =>
             destruct (Ascii.eqb_spec c x) as [->|_]; [discriminate Hc|]
         end.
  reflexivity.
Qed.

Lemma parsePattern_ordinary q st :
  ordinary q = true → JS.psEsc st = false → JS.psEnd st = false →
  JS.parsePattern q st =
  Some (JS.mkPState (JS.psStart st) (rev (literals q) ++ JS.psItems st) false false).
Proof.
  revert st. induction q as [|c q IH]; intros st Hq He Hd; simpl in *.
  - rewrite He. destruct st; simpl in *; by subst.
  - apply andb_true_iff in Hq as [Hc Hq]. apply negb_true_iff in Hc.
    rewrite (parseChar_ordinary c st Hc He Hd).
    rewrite (IH (JS.pushItem (JS.CLit c) st) Hq eq_refl eq_refl). simpl.
    by rewrite <- app_assoc.
Qed.

Lemma RegExp_new_ordinary q i :
  ordinary q = true → JS.RegExp_new q i = Some (JS.mkRegExp false (literals q) false i).
Proof.
  intros Hq. unfold JS.RegExp_new.
  rewrite (parsePattern_ordinary q (JS.mkPState false [] false false) Hq eq_refl eq_refl).
  simpl.
  by rewrite app_nil_r, rev_involutive.
Qed.

Lemma matchItems_literals q s :
  JS.matchItems true (literals q) s =
  if JS.startsWith (JS.toLowerCase q) (JS.toLowerCase s)
  then [dropChars (String.length q) s] else [].
Proof.
  revert s. induction q as [|a q IH]; intros s; simpl.
  - by destruct s.
  - destruct s as [|b s]; simpl; [done|]. unfold JS.matchItem. simpl.
    destruct (Ascii.eqb (JS.lowerChar a) (JS.lowerChar b)); simpl; [|done].
    rewrite IH. by rewrite app_nil_r.
Qed.

Lemma matchHere_literals q s :
  JS.matchHere (JS.mkRegExp false (literals q) false true) s =
  JS.startsWith (JS.toLowerCase q) (JS.toLowerCase s).
Proof.
  unfold JS.matchHere. simpl. rewrite matchItems_literals.
  by destruct (JS.startsWith _ _).
Qed.

Lemma test_literals q s :
  JS.RegExp_test (JS.mkRegExp false (literals q) false true) s = containsCI q s.
Proof.
  unfold JS.RegExp_test, containsCI. simpl.
  induction s as [|b s IH]; simpl.
  - rewrite matchHere_literals. simpl. by rewrite !orb_false_r.
  - rewrite matchHere_literals. simpl. f_equal. exact IH.
Qed.

(** On an ordinary query the route's filter is the criterion of the
    specification. *)
Lemma nameOrEmail_ordinary q d :
  nameOrEmail (Modelled (JS.mkRegExp false (literals q) false true)) d = specMatches q d.
Proof. unfold nameOrEmail, specMatches. simpl. by rewrite !test_literals. Qed.

(** *** Sorting by name *)

#[local] Instance sortRel_total key ascending : Total (sortRel key ascending).
Proof.
  intros a b. unfold sortRel, sortsBefore.
  destruct key, ascending.
  - apply String.leb_total.
  - apply String.leb_total.
  - destruct (Z.le_ge_cases (createdAt a) (createdAt b)); [left|right];
      by apply Z.leb_le.
  - destruct (Z.le_ge_cases (createdAt a) (createdAt b)); [right|left];
      by apply Z.leb_le.
Qed.

(** What [exec] returns. *)
Lemma exec_run q w :
  exec q w =
  (Return (render q <$> selectDocs q (collection (qModel q) w)),
   mkWorld (cached w) (students w) (instructors w) (EvFind (qModel q) :: trace w)).
Proof. reflexivity. Qed.

Lemma keys_renderFound d : keys (renderFound d) = ["_id"; "name"; "age"; "email"].
Proof. reflexivity. Qed.

(** C2, as the code has it.  Every object the search returns has exactly
    the four properties [_id], [name], [age], [email]: the projection
    drops the timestamps and the version key and keeps the id. *)
Theorem search_results_have_four_fields q env w :
  Forall (fun o => keys o = ["_id"; "name"; "age"; "email"])
         (found (GET_search q env w).1).
Proof.
  unfold GET_search, trimmedQuery, newRegExp.
  destruct q as [s|]; simpl; [|by constructor].
  destruct (JS.isEmpty (JS.trim s) || (String.length (JS.trim s) <? 1)%nat);
    [by constructor|].
  unfold tryCatch, mbind, M_bind.
  destruct (connectToDatabase env w) as [[h|e] w1]; simpl; try by constructor.
  assert (Hkeys : ∀ re w2,
    Forall (fun o => keys o = ["_id"; "name"; "age"; "email"])
      (found ((l ← exec (limit 50 (sort ByName true (select ["name"; "age"; "email"]
                  (find Student (nameOrEmail re)))));
               mret (json (Docs l))) w2).1)).
  { intros re w2. unfold mbind, M_bind, mret, M_ret. simpl.
    apply Forall_fmap, Forall_forall. intros d _. reflexivity. }
  destruct (JS.RegExp_new (JS.trim s) true) as [re|]; simpl; [apply Hkeys|].
  destruct (JS.malformed (JS.trim s)); simpl; [by constructor|].
  destruct (engine env (JS.trim s)) as [test|]; simpl; [apply Hkeys | by constructor].
Qed.

(** C2, as stated, fails: the two students found for [jo] come with their
    [_id]. *)
Lemma search_results_three_fields_fails :
  ¬ Forall (fun o => keys o = ["name"; "age"; "email"])
      (found (GET_search (Some "jo") (Sample.up 300 Sample.idNew) Sample.twoStudents).1).
Proof.
  intros H. vm_compute in H. inversion H as [|o l Ho _]. discriminate Ho.
Qed.

Lemma Sorted_take {A} (R : relation A) n (l : list A) :
  Sorted R l → Sorted R (take n l).
Proof.
  revert l. induction n as [|n IH]; intros l Hl; [by constructor|].
  destruct l as [|x l]; [by constructor|]. simpl.
  apply Sorted_inv in Hl as [Hl Hhd]. constructor; [by apply IH|].
  destruct l as [|y l]; [by destruct n; constructor|].
  apply HdRel_inv in Hhd. destruct n; by constructor.
Qed.

(** What an answer as specified amounts to, entity by entity. *)
Lemma searchAnswer_facts q c ds :
  searchAnswer q c ds →
  (length ds ≤ 50)%nat ∧
  Sorted (sortRel ByName true) ds ∧
  (∀ d, d ∈ ds → d ∈ documents c ∧ specMatches q d = true) ∧
  ((length (List.filter (specMatches q) (documents c)) ≤ 50)%nat →
   ∀ d, d ∈ documents c → specMatches q d = true → d ∈ ds).
Proof.
  intros (all & Hperm & Hsorted & ->). split_and!.
  - rewrite length_take. lia.
  - by apply Sorted_take.
  - intros d Hd. apply subseteq_take in Hd. rewrite Hperm in Hd.
    apply list_elem_of_In, filter_In in Hd as [Hd ?]. by apply list_elem_of_In in Hd.
  - intros Hfew d Hd Hm. rewrite take_ge; [|by rewrite Hperm].
    rewrite Hperm. apply list_elem_of_In, filter_In. by apply list_elem_of_In in Hd.
Qed.

(** C1, as the code has it.  When the connection is there and the trimmed
    query is not empty and made of ordinary characters, the search returns
    the students whose name or email contains the trimmed query, letter
    case aside, sorted by name ascending and capped at 50. *)
Theorem search_answers_trimmed_ordinary_query s env w :
  connected env w = true →
  JS.trim s ≠ "" →
  ordinary (JS.trim s) = true →
  ∃ ds, (GET_search (Some s) env w).1 = Return (json (Docs (renderFound <$> ds))) ∧
        searchAnswer (JS.trim s) (students w) ds.
Proof.
  intros Hcon Hne Hord.
  destruct (connected_run env w Hcon) as (h & w1 & Hrun & Hs & _).
  set (re := Modelled (JS.mkRegExp false (literals (JS.trim s)) false true)).
  set (R := sortRel ByName true).
  exists (take 50 (merge_sort R (List.filter (nameOrEmail re) (documents (students w))))).
  split.
  - unfold GET_search, trimmedQuery, newRegExp. simpl.
    destruct (JS.trim s) as [|c q] eqn:Hq; [done|]. simpl.
    unfold tryCatch, mbind, M_bind. rewrite Hrun.
    rewrite (RegExp_new_ordinary _ true Hord). unfold mret at 1, M_ret at 1.
    rewrite exec_run. simpl. by rewrite Hs.
  - exists (merge_sort R (List.filter (nameOrEmail re) (documents (students w)))).
    split_and!; [| apply (Sorted_merge_sort R) | done].
    rewrite (merge_sort_Permutation R).
    by rewrite (List.filter_ext _ _ (nameOrEmail_ordinary (JS.trim s))).
Qed.

Lemma search_answers_trimmed_ordinary_query_witness :
  connected (Sample.up 300 Sample.idNew) Sample.twoStudents = true ∧
  JS.trim " jo " ≠ "" ∧
  ordinary (JS.trim " jo ") = true ∧
  ∃ ds, (GET_search (Some " jo ") (Sample.up 300 Sample.idNew) Sample.twoStudents).1
          = Return (json (Docs (renderFound <$> ds))) ∧
        searchAnswer (JS.trim " jo ") (students Sample.twoStudents) ds.
Proof.
  split; [reflexivity|]. split; [discriminate|]. split; [reflexivity|].
  apply (search_answers_trimmed_ordinary_query " jo "
           (Sample.up 300 Sample.idNew) Sample.twoStudents);
    [reflexivity | discriminate | reflexivity].
Defined.

(** The search for [jo] (given with blanks around it) on the two sample
    students, run: Amy before John Doe, each with four properties. *)
Example search_jo :
  (GET_search (Some " jo ") (Sample.up 300 Sample.idNew) Sample.twoStudents).1
  = Return (json (Docs [renderFound Sample.amy; renderFound Sample.john])).
Proof. vm_compute. reflexivity. Qed.

(** C1, as stated, fails: the query [" jo "] is not empty and no name or
    email contains it, blanks included; the route trims it and finds both
    students. *)
Lemma search_untrimmed_query_fails :
  ¬ searchAsSpecified " jo " (Sample.up 300 Sample.idNew) Sample.twoStudents.
Proof.
  intros (ds & Hrun & all & Hperm & _ & ->).
  vm_compute in Hperm. apply Permutation_nil_r in Hperm. subst all.
  vm_compute in Hrun. discriminate Hrun.
Qed.

(** Nor does a query with a syntax character behave as a substring: [a.x]
    is read as a pattern, its dot matches the [@] of [a@x.com]. *)
Example search_dot_is_a_wildcard :
  specMatches "a.x" Sample.john = false ∧
  (GET_search (Some "a.x") (Sample.up 300 Sample.idNew) Sample.twoStudents).1
  = Return (json (Docs [renderFound Sample.john])).
Proof. split; vm_compute; reflexivity. Qed.

End Search.

(* ===================================================================== *)
(** ** Create, verified *)
(* ===================================================================== *)

Section Create.

(** C10.  A create request whose [age] is the number 0 never reaches the
    schema: whatever the world, no validator runs, nothing is inserted and
    both collections stay as they were; and once the connection is there the
    answer is status 400 with "All fields are required", the check on the
    three fields coming before the document is built. *)
Theorem zero_age_counts_as_missing k body env w n :
  bAge body = Some (JS.VNum n) →
  JS.isZero n = true →
  students (POST k (Some body) env w).2 = students w ∧
  instructors (POST k (Some body) env w).2 = instructors w ∧
  (trace (POST k (Some body) env w).2 = trace w ∨
   trace (POST k (Some body) env w).2 = EvConnect :: trace w) ∧
  (connected env w = true →
   (POST k (Some body) env w).1
   = Return (jsonStatus (ErrorMessage "All fields are required") 400)).
Proof.
  intros Hage Hz. unfold POST, request_json.
  destruct (connected env w) eqn:Hcon.
  - destruct (connected_run env w Hcon) as (h & w1 & Hrun & Hs & Hi & Ht).
    unfold_monad. rewrite Hrun. simpl.
    rewrite Hage. simpl. rewrite Hz. simpl. by rewrite orb_true_r.
  - destruct (disconnected_run env w Hcon) as (reason & w1 & Hrun & Hs & Hi & Ht).
    unfold_monad. rewrite Hrun. simpl. done.
Qed.

Lemma zero_age_counts_as_missing_witness :
  bAge (mkBody (Some (JS.VStr "Zed")) (Some (Sample.num 0)) (Some (JS.VStr "z@x.com")))
    = Some (JS.VNum (JS.ofZ 0)) ∧
  JS.isZero (JS.ofZ 0) = true ∧
  students (POST Student (Sample.fields "Zed" (Sample.num 0) "z@x.com")
              (Sample.up 300 Sample.idNew) Sample.twoStudents).2
    = students Sample.twoStudents ∧
  instructors (POST Student (Sample.fields "Zed" (Sample.num 0) "z@x.com")
                 (Sample.up 300 Sample.idNew) Sample.twoStudents).2
    = instructors Sample.twoStudents ∧
  (trace (POST Student (Sample.fields "Zed" (Sample.num 0) "z@x.com")
            (Sample.up 300 Sample.idNew) Sample.twoStudents).2
     = trace Sample.twoStudents ∨
   trace (POST Student (Sample.fields "Zed" (Sample.num 0) "z@x.com")
            (Sample.up 300 Sample.idNew) Sample.twoStudents).2
     = EvConnect :: trace Sample.twoStudents) ∧
  (connected (Sample.up 300 Sample.idNew) Sample.twoStudents = true →
   (POST Student (Sample.fields "Zed" (Sample.num 0) "z@x.com")
         (Sample.up 300 Sample.idNew) Sample.twoStudents).1
   = Return (jsonStatus (ErrorMessage "All fields are required") 400)).
Proof.
  split; [reflexivity|]. split; [reflexivity|].
  apply (zero_age_counts_as_missing Student
           (mkBody (Some (JS.VStr "Zed")) (Some (Sample.num 0)) (Some (JS.VStr "z@x.com")))
           (Sample.up 300 Sample.idNew) Sample.twoStudents (JS.ofZ 0)); reflexivity.
Defined.

(** Such a request, run: the connection is there, the answer is the
    missing-field one. *)
Example zero_age_answer :
  connected (Sample.up 300 Sample.idNew) Sample.twoStudents = true ∧
  (POST Student (Sample.fields "Zed" (Sample.num 0) "z@x.com")
        (Sample.up 300 Sample.idNew) Sample.twoStudents).1
  = Return (jsonStatus (ErrorMessage "All fields are required") 400).
Proof. split; vm_compute; reflexivity. Qed.

End Create.

Section CreateAge.

(** An age the schema does not accept never passes [validNumber]. *)
Lemma validNumber_unacceptable k v :
  acceptableAge v = false → validNumber (pAge (schemaOf k)) (castNumber v) = None.
Proof.
  unfold acceptableAge, validNumber, validateNumberPath, minValidator.
  destruct k; simpl; destruct (castNumber v) as [[n|]|]; simpl; try done;
    intros ->; done.
Qed.

(** C5, as the code has it.  A create request whose age does not cast to a
    number of at least 1 is refused and both collections stay as they were.
    The answer is fixed by the cause: without a connection it is 500
    "Failed to create <kind>"; with one, a body in which a field is missing
    or falsy is answered 400 "All fields are required"; and otherwise the
    age fails the schema and the answer is again 500 "Failed to create
    <kind>".  (An age need not be an integer.) *)
Theorem create_refuses_unacceptable_age k body env w :
  acceptableAge (prop (bAge body)) = false →
  (POST k (Some body) env w).1
  = Return (if negb (connected env w) then
              jsonStatus (ErrorMessage ("Failed to create " ++ noun k)) 500
            else if missingField body then
              jsonStatus (ErrorMessage "All fields are required") 400
            else jsonStatus (ErrorMessage ("Failed to create " ++ noun k)) 500) ∧
  students (POST k (Some body) env w).2 = students w ∧
  instructors (POST k (Some body) env w).2 = instructors w.
Proof.
  intros Hage. unfold POST, request_json, missingField.
  destruct (connected env w) eqn:Hcon.
  - destruct (connected_run env w Hcon) as (h & w1 & Hrun & Hs & Hi & _).
    unfold_monad. rewrite Hrun. simpl.
    destruct (negb (JS.truthy (prop (bName body))) || negb (JS.truthy (prop (bAge body)))
              || negb (JS.truthy (prop (bEmail body)))); simpl; [by auto|].
    unfold save, newModel. unfold_monad. simpl.
    rewrite (validNumber_unacceptable k _ Hage).
    destruct (validString _ _); simpl; auto.
  - destruct (disconnected_run env w Hcon) as (reason & w1 & Hrun & Hs & Hi & _).
    unfold_monad. rewrite Hrun. simpl. auto.
Qed.

Lemma create_refuses_unacceptable_age_witness :
  acceptableAge (prop (bAge (mkBody (Some (JS.VStr "Zed")) (Some (Sample.num (-5)))
                                    (Some (JS.VStr "z@x.com"))))) = false ∧
  (POST Student (Sample.fields "Zed" (Sample.num (-5)) "z@x.com")
        (Sample.up 300 Sample.idNew) Sample.twoStudents).1
  = Return (jsonStatus (ErrorMessage "Failed to create student") 500) ∧
  students (POST Student (Sample.fields "Zed" (Sample.num (-5)) "z@x.com")
              (Sample.up 300 Sample.idNew) Sample.twoStudents).2
    = students Sample.twoStudents ∧
  instructors (POST Student (Sample.fields "Zed" (Sample.num (-5)) "z@x.com")
                 (Sample.up 300 Sample.idNew) Sample.twoStudents).2
    = instructors Sample.twoStudents.
Proof.
  split; [reflexivity|].
  apply (create_refuses_unacceptable_age Student
           (mkBody (Some (JS.VStr "Zed")) (Some (Sample.num (-5))) (Some (JS.VStr "z@x.com")))
           (Sample.up 300 Sample.idNew) Sample.twoStudents).
  reflexivity.
Defined.

(** The three causes, run: no connection, a missing age, an age below 1. *)
Example create_refusals_by_cause :
  (POST Student (Sample.fields "Zed" (Sample.num (-5)) "z@x.com")
        (Sample.down 300 Sample.idNew) initial).1
  = Return (jsonStatus (ErrorMessage "Failed to create student") 500) ∧
  (POST Instructor (Some (mkBody (Some (JS.VStr "Zed")) None (Some (JS.VStr "z@x.com"))))
        (Sample.up 300 Sample.idNew) Sample.twoStudents).1
  = Return (jsonStatus (ErrorMessage "All fields are required") 400) ∧
  (POST Instructor (Sample.fields "Zed" (Sample.num (-5)) "z@x.com")
        (Sample.up 300 Sample.idNew) Sample.twoStudents).1
  = Return (jsonStatus (ErrorMessage "Failed to create instructor") 500).
Proof. repeat split; vm_compute; reflexivity. Qed.

(** C5, as stated, fails: 2.5 is not an integer, and the student is created
    with that age. *)
Lemma create_accepts_fractional_age :
  integerAge (JS.VNum (JS.Dec 25 (-1))) = false ∧
  statusOf (POST Student (Sample.fields "Bob" (JS.VNum (JS.Dec 25 (-1))) "bob@x.com")
              (Sample.up 300 Sample.idNew) Sample.twoStudents).1 = Some 201 ∧
  students (POST Student (Sample.fields "Bob" (JS.VNum (JS.Dec 25 (-1))) "bob@x.com")
              (Sample.up 300 Sample.idNew) Sample.twoStudents).2 !! Sample.idNew
    = Some (mkDoc Sample.idNew "Bob" (JS.Dec 25 (-1)) "bob@x.com" 300 300 0) ∧
  students Sample.twoStudents !! Sample.idNew = None.
Proof. repeat split; vm_compute; reflexivity. Qed.

End CreateAge.

(* ===================================================================== *)
(** ** Update, verified *)
(* ===================================================================== *)

Section Update.

Lemma violatesUnique_false k (c : gmap ObjectId Doc) i d :
  (∀ j dj, c !! j = Some dj → j ≠ i → email dj ≠ email d) →
  violatesUnique (schemaOf k) c i d = false.
Proof.
  intros Hfree. unfold violatesUnique. apply not_true_is_false. intros Hex.
  apply existsb_exists in Hex as ([j dj] & Hin & Hcl).
  apply list_elem_of_In, elem_of_map_to_list in Hin.
  unfold clashes in Hcl. simpl in Hcl.
  apply andb_true_iff in Hcl as [Hne Heq].
  apply negb_true_iff, String.eqb_neq in Hne.
  assert (Hu : sUnique (pName (schemaOf k)) = false) by by destruct k.
  rewrite Hu in Heq. simpl in Heq.
  apply andb_true_iff in Heq as [_ Heq]. apply String.eqb_eq in Heq.
  by apply (Hfree j dj).
Qed.

Lemma violatesUnique_true k (c : gmap ObjectId Doc) i d :
  violatesUnique (schemaOf k) c i d = true →
  ∃ j dj, c !! j = Some dj ∧ j ≠ i ∧ email dj = email d.
Proof.
  unfold violatesUnique. intros Hex.
  apply existsb_exists in Hex as ([j dj] & Hin & Hcl).
  apply list_elem_of_In, elem_of_map_to_list in Hin.
  unfold clashes in Hcl. simpl in Hcl.
  apply andb_true_iff in Hcl as [Hne Heq].
  apply negb_true_iff, String.eqb_neq in Hne.
  assert (Hu : sUnique (pName (schemaOf k)) = false) by by destruct k.
  rewrite Hu in Heq. simpl in Heq.
  apply andb_true_iff in Heq as [_ Heq]. apply String.eqb_eq in Heq.
  by exists j, dj.
Qed.

(** C9.  An update of an existing entity with the body [{ age: 30 }] leaves
    its id, name, email, creation time (and version) as they were, and
    leaves every other entity untouched.  When the connection is there (and
    stored emails are unique, as they are in every world the API brings about) the
    entity afterwards has age 30 and the time of the update as [updatedAt],
    and it is what the route returns. *)
Theorem update_age_changes_age_only k id i d env w :
  castObjectId id = Some i →
  collection k w !! i = Some d →
  ∃ d', collection k (PUT k id ageThirty env w).2 !! i = Some d' ∧
        _id d' = _id d ∧ name d' = name d ∧ email d' = email d ∧
        createdAt d' = createdAt d ∧ __v d' = __v d ∧
        (∀ k' j, (k', j) ≠ (k, i) →
           collection k' (PUT k id ageThirty env w).2 !! j
           = collection k' w !! j) ∧
        (connected env w = true → emailsUnique (collection k w) →
           (PUT k id ageThirty env w).1
             = Return (json (OneDoc (toObject d'))) ∧
           age d' = JS.ofZ 30 ∧ updatedAt d' = now env).
Proof.
  intros Hid Hd. unfold PUT, request_json, ageThirty.
  destruct (connected env w) eqn:Hcon.
  - destruct (connected_run env w Hcon) as (h & w1 & Hrun & Hs & Hi & _).
    unfold findByIdAndUpdate, castField, validateField. unfold_monad.
    rewrite Hrun. destruct k; simpl in *; rewrite Hid; simpl.
    all: rewrite ?Hs, ?Hi, Hd.
    all: match goal with
         | |- context [violatesUnique ?s ?c ?j ?x] =>
             destruct (violatesUnique s c j x) eqn:Hviol
         end; simpl.
    all: try (exists d; rewrite ?Hs, ?Hi; split_and!; try done;
              intros _ Huniq; exfalso;
              first [ apply (violatesUnique_true Student) in Hviol
                    | apply (violatesUnique_true Instructor) in Hviol ];
              destruct Hviol as (j & dj & Hj & Hne & Heq);
              apply Hne; by eapply Huniq).
    all: eexists; (split; [apply lookup_insert_eq|]); simpl;
      split_and!; try done;
      intros [] j Hne; simpl; rewrite ?Hs, ?Hi; try done;
      apply lookup_insert_ne; congruence.
  - destruct (disconnected_run env w Hcon) as (reason & w1 & Hrun & Hs & Hi & _).
    assert (Hc1 : ∀ k', collection k' w1 = collection k' w)
      by (intros []; simpl; congruence).
    unfold_monad. rewrite Hrun. simpl. exists d. rewrite Hc1.
    split_and!; try done. intros k' j _. by rewrite Hc1.
Qed.

Lemma update_age_changes_age_only_witness :
  castObjectId Sample.idJohn = Some Sample.idJohn ∧
  collection Student Sample.twoStudents !! Sample.idJohn = Some Sample.john ∧
  ∃ d', collection Student
          (PUT Student Sample.idJohn ageThirty
               (Sample.up 300 Sample.idNew) Sample.twoStudents).2 !! Sample.idJohn
        = Some d' ∧
        _id d' = _id Sample.john ∧ name d' = name Sample.john ∧
        email d' = email Sample.john ∧
        createdAt d' = createdAt Sample.john ∧ __v d' = __v Sample.john ∧
        (∀ k' j, (k', j) ≠ (Student, Sample.idJohn) →
           collection k'
             (PUT Student Sample.idJohn ageThirty
                  (Sample.up 300 Sample.idNew) Sample.twoStudents).2 !! j
           = collection k' Sample.twoStudents !! j) ∧
        (connected (Sample.up 300 Sample.idNew) Sample.twoStudents = true →
         emailsUnique (collection Student Sample.twoStudents) →
           (PUT Student Sample.idJohn ageThirty
                (Sample.up 300 Sample.idNew) Sample.twoStudents).1
             = Return (json (OneDoc (toObject d'))) ∧
           age d' = JS.ofZ 30 ∧ updatedAt d' = now (Sample.up 300 Sample.idNew)).
Proof.
  split; [reflexivity|]. split; [vm_compute; reflexivity|].
  apply (update_age_changes_age_only Student Sample.idJohn Sample.idJohn Sample.john
           (Sample.up 300 Sample.idNew) Sample.twoStudents).
  - reflexivity.
  - vm_compute; reflexivity.
Defined.

(** The update on the two sample students, run. *)
Example update_age_of_john :
  (PUT Student Sample.idJohn (Sample.ageOnly (Sample.num 30))
       (Sample.up 300 Sample.idNew) Sample.twoStudents).1
  = Return (json (OneDoc (toObject
      (mkDoc Sample.idJohn "John Doe" (JS.ofZ 30) "a@x.com" 100 300 0)))).
Proof. vm_compute. reflexivity. Qed.

End Update.

(* ===================================================================== *)
(** ** Stored emails *)
(* ===================================================================== *)

Section Emails.

Lemma lowerChar_idem c : JS.lowerChar (JS.lowerChar c) = JS.lowerChar c.
Proof. by destruct c as [[] [] [] [] [] [] [] []]. Qed.

Lemma toLowerCase_idem s : JS.toLowerCase (JS.toLowerCase s) = JS.toLowerCase s.
Proof. induction s as [|c s IH]; simpl; [done|]. by rewrite lowerChar_idem, IH. Qed.

(** The fold reaches the capitals beyond [Z]: code unit 201 becomes 233,
    the multiplication sign 215 stays. *)
Example toLowerCase_beyond_ascii :
  JS.toLowerCase (String (ascii_of_nat 201) (String (ascii_of_nat 215) "Z"))
  = String (ascii_of_nat 233) (String (ascii_of_nat 215) "z").
Proof. reflexivity. Qed.

Lemma trimEnd_noWhiteSpace s : noWhiteSpace s = true → JS.trimEnd s = s.
Proof.
  induction s as [|c s IH]; simpl; [done|].
  intros [Hc Hs]%andb_true_iff. apply negb_true_iff in Hc.
  rewrite (IH Hs), Hc. by destruct s.
Qed.

Lemma trim_noWhiteSpace s : noWhiteSpace s = true → JS.trim s = s.
Proof.
  intros Hs. unfold JS.trim.
  assert (JS.trimStart s = s) as ->; [|by apply trimEnd_noWhiteSpace].
  destruct s as [|c s]; simpl in *; [done|].
  apply andb_true_iff in Hs as [Hc _]. apply negb_true_iff in Hc. by rewrite Hc.
Qed.

Lemma append_cons c (s t : string) : (String c s ++ t)%string = String c (s ++ t).
Proof. reflexivity. Qed.

Lemma noWhiteSpace_app s t :
  noWhiteSpace s = true → noWhiteSpace t = true → noWhiteSpace (s ++ t) = true.
Proof.
  induction s as [|c s IH]; [done|]. rewrite append_cons. simpl.
  intros [Hc Hs]%andb_true_iff Ht. rewrite Hc. simpl. by apply IH.
Qed.

Lemma append_empty_r (s : string) : (s ++ "")%string = s.
Proof. induction s as [|c s IH]; [done|]. by rewrite append_cons, IH. Qed.

Lemma append_assoc (s t u : string) : ((s ++ t) ++ u)%string = (s ++ (t ++ u))%string.
Proof. induction s as [|c s IH]; [done|]. by rewrite !append_cons, IH. Qed.

(** What a quantified class consumes is a prefix it matches throughout. *)
Lemma consumePlus_prefix i cls s r :
  (∀ c, JS.classMatches i cls c = true → JS.isWhiteSpace c = false) →
  In r (JS.consumePlus i cls s) →
  ∃ pre, s = (pre ++ r)%string ∧ noWhiteSpace pre = true.
Proof.
  intros Hcls. revert r. induction s as [|c s IH]; intros r Hin; simpl in *; [done|].
  destruct (JS.classMatches i cls c) eqn:Hm; [|done].
  destruct Hin as [<- | Hin].
  - exists (String c ""). simpl. by rewrite (Hcls c Hm).
  - destruct (IH r Hin) as (pre & -> & Hpre).
    exists (String c pre). simpl. by rewrite (Hcls c Hm), Hpre.
Qed.

Lemma matchItem_prefix i it s r :
  (∀ c, JS.classMatches i it.1 c = true → JS.isWhiteSpace c = false) →
  In r (JS.matchItem i it s) →
  ∃ pre, s = (pre ++ r)%string ∧ noWhiteSpace pre = true.
Proof.
  intros Hcls. unfold JS.matchItem. destruct it.2.
  - destruct s as [|c s]; simpl; [done|].
    destruct (JS.classMatches i it.1 c) eqn:Hm; simpl; [|done].
    intros [<- | []]. exists (String c ""). simpl. by rewrite (Hcls c Hm).
  - by apply consumePlus_prefix.
Qed.

Lemma matchItems_prefix i items s r :
  avoidWhiteSpace i items →
  In r (JS.matchItems i items s) →
  ∃ pre, s = (pre ++ r)%string ∧ noWhiteSpace pre = true.
Proof.
  revert s. induction items as [|it items IH]; intros s Hav Hin; simpl in *.
  - destruct Hin as [<- | []]. by exists "".
  - apply in_flat_map in Hin as (t & Ht & Hr).
    destruct (matchItem_prefix i it s t) as (p1 & -> & Hp1); [|done|].
    { intros c. apply Hav. by left. }
    destruct (IH t) as (p2 & -> & Hp2); [|done|].
    { intros it' c Hin'. apply Hav. by right. }
    exists (p1 ++ p2)%string. rewrite append_assoc. split; [done|].
    by apply noWhiteSpace_app.
Qed.

(** A string an anchored pattern of such classes accepts has no whitespace. *)
Lemma test_anchored_noWhiteSpace re s :
  JS.reStart re = true → JS.reEnd re = true →
  avoidWhiteSpace (JS.reIgnoreCase re) (JS.reItems re) →
  JS.RegExp_test re s = true → noWhiteSpace s = true.
Proof.
  intros Hst Hen Hav. unfold JS.RegExp_test, JS.matchHere. rewrite Hst, Hen.
  intros Hex. apply existsb_exists in Hex as (r & Hin & Hr).
  destruct r; [|done].
  destruct (matchItems_prefix _ _ s "" Hav Hin) as (pre & Heq & Hpre).
  rewrite append_empty_r in Heq. by subst s.
Qed.

Lemma email_pattern_parses :
  JS.RegExp_new "^\S+@\S+\.\S+$" false =
  Some (JS.mkRegExp true
          [(JS.CNonSpace, JS.QPlus); (JS.CLit "@", JS.QOne); (JS.CNonSpace, JS.QPlus);
           (JS.CLit ".", JS.QOne); (JS.CNonSpace, JS.QPlus)] true false).
Proof. reflexivity. Qed.

(** An email that went through the setters and passed the validators of
    either schema is in normal form. *)
Lemma validated_email_normal k v e :
  castStringPath (pEmail (schemaOf k)) v = Casted (Some e) →
  validateStringPath (pEmail (schemaOf k)) (Some e) = true →
  emailNormal e.
Proof.
  intros Hcast Hvalid.
  assert (Hlow : JS.toLowerCase e = e).
  { unfold castStringPath in Hcast.
    destruct (castString v) as [[s|]|]; try done.
    injection Hcast as <-. destruct k; simpl; apply toLowerCase_idem. }
  assert (Htest : ∃ re, JS.RegExp_new "^\S+@\S+\.\S+$" false = Some re ∧
                        JS.RegExp_test re e = true).
  { eexists. split; [apply email_pattern_parses|].
    unfold validateStringPath in Hvalid.
    assert (Hm : sMatch (pEmail (schemaOf k)) = JS.RegExp_new "^\S+@\S+\.\S+$" false)
      by by destruct k.
    assert (Hr : sRequired (pEmail (schemaOf k)) = true) by by destruct k.
    rewrite Hm, Hr, email_pattern_parses in Hvalid. simpl in Hvalid.
    apply andb_true_iff in Hvalid as [Hreq Hmatch].
    apply negb_true_iff in Hreq. by rewrite Hreq in Hmatch. }
  split_and!; [|done|done].
  destruct Htest as (re & Hre & Htest).
  rewrite email_pattern_parses in Hre. injection Hre as <-.
  apply trim_noWhiteSpace.
  refine (test_anchored_noWhiteSpace _ e _ _ _ Htest); [done|done|].
  intros it c Hin Hm. simpl in Hin.
  destruct Hin as [<-|[<-|[<-|[<-|[<-|[]]]]]]; cbn [JS.classMatches fst] in Hm.
  - by apply negb_true_iff in Hm.
  - by apply Ascii.eqb_eq in Hm as <-.
  - by apply negb_true_iff in Hm.
  - by apply Ascii.eqb_eq in Hm as <-.
  - by apply negb_true_iff in Hm.
Qed.

Lemma violatesUnique_free k (c : gmap ObjectId Doc) i d :
  violatesUnique (schemaOf k) c i d = false →
  ∀ j dj, c !! j = Some dj → j ≠ i → email dj ≠ email d.
Proof.
  intros Hv j dj Hj Hne Heq.
  assert (Hex : violatesUnique (schemaOf k) c i d = true); [|congruence].
  apply existsb_exists. exists (j, dj). split.
  - by apply list_elem_of_In, elem_of_map_to_list.
  - unfold clashes. simpl.
    apply andb_true_iff. split.
    + apply negb_true_iff. by apply String.eqb_neq.
    + apply orb_true_iff. right. apply andb_true_iff.
      split; [by destruct k | by apply String.eqb_eq].
Qed.

(** Writing a document with a normal email nobody else has keeps the
    collection's emails normal and unique. *)
Lemma insert_keeps_emails (c : gmap ObjectId Doc) i d :
  emailsNormal c → emailsUnique c →
  emailNormal (email d) →
  (∀ j dj, c !! j = Some dj → j ≠ i → email dj ≠ email d) →
  emailsNormal (<[i:=d]> c) ∧ emailsUnique (<[i:=d]> c).
Proof.
  intros Hn Hu Hd Hfree. split.
  - intros j dj. rewrite lookup_insert. case_decide.
    + by intros [= <-].
    + apply Hn.
  - intros j1 j2 d1 d2. rewrite !lookup_insert.
    repeat case_decide; subst.
    + done.
    + intros [= <-] H2 Heq. exfalso. by eapply (Hfree j2 d2).
    + intros H1 [= <-] Heq. exfalso. by eapply (Hfree j1 d1).
    + apply Hu.
Qed.

Lemma delete_keeps_emails (c : gmap ObjectId Doc) i :
  emailsNormal c → emailsUnique c →
  emailsNormal (delete i c) ∧ emailsUnique (delete i c).
Proof.
  intros Hn Hu. split.
  - intros j dj [_ Hj]%lookup_delete_Some. by eapply Hn.
  - intros j1 j2 d1 d2 [_ H1]%lookup_delete_Some [_ H2]%lookup_delete_Some.
    by eapply Hu.
Qed.

End Emails.

(* ===================================================================== *)
(** ** The invariant of the collections *)
(* ===================================================================== *)

Section Invariant.

#[local] Instance sameCollections_preorder : PreOrder sameCollections.
Proof.
  split.
  - by intros w.
  - intros w1 w2 w3 [? ?] [? ?]. split; congruence.
Qed.

#[local] Instance keepsInv_preorder : PreOrder keepsInv.
Proof.
  split.
  - intros w H. exact H.
  - intros w1 w2 w3 H12 H23 H. by apply H23, H12.
Qed.

Lemma storeInv_same w w' : sameCollections w w' → storeInv w → storeInv w'.
Proof. intros [Hs Hi] Hinv k. specialize (Hinv k). destruct k; simpl in *; congruence. Qed.

Lemma sameCollections_keepsInv {A} (m : M A) :
  preserves sameCollections m → preserves keepsInv m.
Proof. intros Hm w Hinv. by apply (storeInv_same w), Hinv. Qed.

Lemma emit_sameCollections e : preserves sameCollections (emit e).
Proof. by intros w. Qed.

Lemma setConn_sameCollections h : preserves sameCollections (setConn h).
Proof. by intros w. Qed.

Lemma setPromise_sameCollections p : preserves sameCollections (setPromise p).
Proof. by intros w. Qed.

Ltac preserve_coll :=
  repeat first
    [ preserve_step
    | apply emit_sameCollections
    | apply setConn_sameCollections
    | apply setPromise_sameCollections ].

Lemma connect_sameCollections env : preserves sameCollections (connectToDatabase env).
Proof. unfold connectToDatabase, mongoose_connect. preserve_coll. Qed.

Lemma exec_sameCollections q : preserves sameCollections (exec q).
Proof. unfold exec. preserve_coll. Qed.

Lemma findById_sameCollections k id : preserves sameCollections (findById k id).
Proof. unfold findById. preserve_coll. Qed.

Lemma validString_Some p v e :
  validString p (castStringPath p v) = Some e →
  castStringPath p v = Casted (Some e) ∧ validateStringPath p (Some e) = true.
Proof.
  unfold validString. destruct (castStringPath p v) as [[s|]|]; try done.
  - destruct (validateStringPath p (Some s)) eqn:Hv; [|done]. by intros [= ->].
  - by destruct (validateStringPath p None).
Qed.

(** [save] of a document built from request values keeps the invariant. *)
Lemma save_keepsInv env k name age email :
  preserves keepsInv (save env k (newModel k name age email)).
Proof.
  intros w Hinv. unfold save, newModel. unfold_monad. simpl.
  destruct (validString (pName (schemaOf k)) _) as [n|];
    [|by apply (storeInv_same w)].
  destruct (validNumber (pAge (schemaOf k)) _) as [a|];
    [|by apply (storeInv_same w)].
  destruct (validString (pEmail (schemaOf k)) _) as [e|] eqn:He;
    [|by apply (storeInv_same w)].
  apply validString_Some in He as [Hcast Hvalid].
  pose proof (validated_email_normal k _ e Hcast Hvalid) as Hnormal.
  destruct (isSome _ || violatesUnique _ _ _ _) eqn:Hdup; simpl;
    [by apply (storeInv_same w)|].
  apply orb_false_iff in Hdup as [_ Hviol].
  pose proof (violatesUnique_free k _ _ _ Hviol) as Hfree.
  intros k'. specialize (Hinv k') as Hk'. destruct (Hinv k) as [Hn Hu].
  destruct k, k'; simpl in *; try done;
    by apply insert_keeps_emails.
Qed.

Lemma validateField_email_normal k v (a : option string) e w w' :
  castStringPath (pEmail (schemaOf k)) v = Casted a →
  validateField "email" (validateStringPath (pEmail (schemaOf k))) (Some a) w
    = (Return (Some e), w') →
  emailNormal e.
Proof.
  intros Hcast. unfold validateField. unfold_monad.
  destruct (validateStringPath _ a) eqn:Hv; [|done].
  destruct a as [x|]; [|done]. intros [= -> _].
  by eapply validated_email_normal.
Qed.

Lemma findByIdAndUpdate_keepsInv env k id body :
  preserves keepsInv (findByIdAndUpdate env k id body).
Proof.
  intros w Hinv. unfold findByIdAndUpdate, castField, validateField. unfold_monad.
  destruct (castObjectId id) as [i|]; [|done].
  destruct (bName body) as [vn|]; [destruct (castStringPath _ vn) as [an|] eqn:Hcn|];
    simpl; try done.
  all: destruct (bAge body) as [va|]; [destruct (castNumber va) as [aa|] eqn:Hca|];
    simpl; try done.
  all: destruct (bEmail body) as [ve|]; [destruct (castStringPath _ ve) as [ae|] eqn:Hce|];
    simpl; try done.
  all: repeat match goal with
       | |- context [if validateStringPath ?p ?a then _ else _] =>
           destruct (validateStringPath p a) eqn:?; simpl
       | |- context [if validateNumberPath ?p ?a then _ else _] =>
           destruct (validateNumberPath p a) eqn:?; simpl
       | |- context [match ?a with Some _ => _ | None => _ end] =>
           is_var a; destruct a; simpl
       end.
  all: try by apply (storeInv_same w).
  all: match goal with
       | |- context [collection ?kk ?w1 !! ?j] =>
           change (collection kk w1) with (collection kk w);
           destruct (collection kk w !! j) as [d|] eqn:Hd; simpl
       end.
  all: try by apply (storeInv_same w).
  all: match goal with
       | |- context [violatesUnique ?s ?c ?j ?x] =>
           destruct (violatesUnique s c j x) eqn:Hviol; simpl
       end.
  all: try by apply (storeInv_same w).
  all: pose proof (violatesUnique_free k _ _ _ Hviol) as Hfree.
  all: intros k'; specialize (Hinv k') as Hk'; destruct (Hinv k) as [Hn Hu].
  all: assert (Hnormal : emailNormal (email d)) by by eapply Hn.
  all: try match goal with
           | H : castStringPath (pEmail _) _ = Casted (Some ?e) |- _ =>
               assert (Hnew : emailNormal e) by by eapply validated_email_normal
           end.
  all: destruct k, k'; simpl in *; try done; by apply insert_keeps_emails.
Qed.

Lemma findByIdAndDelete_keepsInv k id : preserves keepsInv (findByIdAndDelete k id).
Proof.
  intros w Hinv. unfold findByIdAndDelete. unfold_monad.
  destruct (castObjectId id) as [i|]; [|done]. simpl.
  change (collection k _) with (collection k w).
  destruct (collection k w !! i) as [d|]; simpl; [|by apply (storeInv_same w)].
  intros k'. specialize (Hinv k') as Hk'. destruct (Hinv k) as [Hn Hu].
  destruct k, k'; simpl in *; try done; by apply delete_keeps_emails.
Qed.

Ltac preserve_inv :=
  repeat first
    [ apply save_keepsInv
    | apply findByIdAndUpdate_keepsInv
    | apply findByIdAndDelete_keepsInv
    | apply sameCollections_keepsInv;
      first [ apply connect_sameCollections | apply exec_sameCollections
            | apply findById_sameCollections ]
    | preserve_step ].

(** Every request keeps the invariant, but an update that the database
    applies as the client wrote it. *)
Lemma handle_keepsInv r env : plain r = true → preserves keepsInv (handle r env).
Proof.
  destruct r as [k|k request|k id|k id request|k id body|k id|q]; simpl; intros Hplain;
    try destruct body; try discriminate Hplain;
    unfold GET_all, POST, GET_one, PUT, PUT_with, findByIdAndUpdateWith, DELETE,
      GET_search, request_json, newRegExp;
    preserve_inv.
Qed.

Lemma initial_storeInv : storeInv initial.
Proof. intros k. split; destruct k; simpl; intros ?; intros; simplify_map_eq. Qed.

(** The two schemas treat blanks around an email differently: a student is
    stored with the email trimmed, an instructor is refused.  Either way
    nothing untrimmed is stored. *)
Example blanks_around_email :
  statusOf (POST Student (Sample.fields "Eve" (Sample.num 30) " Eve@X.org ")
              (Sample.up 300 Sample.idNew) initial).1 = Some 201 ∧
  email <$> students (POST Student (Sample.fields "Eve" (Sample.num 30) " Eve@X.org ")
                        (Sample.up 300 Sample.idNew) initial).2 !! Sample.idNew
    = Some "eve@x.org" ∧
  statusOf (POST Instructor (Sample.fields "Eve" (Sample.num 30) " Eve@X.org ")
              (Sample.up 300 Sample.idNew) initial).1 = Some 500 ∧
  instructors (POST Instructor (Sample.fields "Eve" (Sample.num 30) " Eve@X.org ")
                 (Sample.up 300 Sample.idNew) initial).2 = ∅.
Proof. split_and!; vm_compute; reflexivity. Qed.

(** A second create with the same email, letter case and blanks aside, is
    refused as a duplicate. *)
Example duplicate_email_refused :
  (POST Student (Sample.fields "Johnny" (Sample.num 30) " A@X.COM ")
        (Sample.up 300 Sample.idNew) Sample.twoStudents).1
  = Return (jsonStatus (ErrorMessage "Email already exists") 400).
Proof. vm_compute. reflexivity. Qed.

End Invariant.

(* ===================================================================== *)
(** ** Failures and statuses *)
(* ===================================================================== *)

Section Statuses.

Ltac connect_cases env w :=
  let Hcon := fresh "Hcon" in
  destruct (connected env w) eqn:Hcon;
  [ destruct (connected_run env w Hcon) as (?h & ?w1 & Hrun & Hs & Hi & _)
  | destruct (disconnected_run env w Hcon) as (?reason & ?w1 & Hrun & Hs & Hi & _) ].

Lemma status_ListAll k env w :
  statusOf (handle (ListAll k) env w).1 = Some (routePrediction (ListAll k) env w).
Proof.
  unfold routePrediction, diagnose. simpl. unfold GET_all.
  connect_cases env w; unfold tryCatch, mbind, M_bind; rewrite Hrun; reflexivity.
Qed.

Lemma status_Read k id env w :
  statusOf (handle (Read k id) env w).1 = Some (routePrediction (Read k id) env w).
Proof.
  unfold routePrediction, diagnose, lookupFailure. simpl. unfold GET_one, findById.
  connect_cases env w; unfold_monad; rewrite Hrun; simpl; [|done].
  destruct (castObjectId id) as [i|]; simpl; [|done].
  destruct k; simpl; rewrite ?Hs, ?Hi;
    match goal with |- context [?c !! i] => by destruct (c !! i) end.
Qed.

Lemma status_Remove k id env w :
  statusOf (handle (Remove k id) env w).1 = Some (routePrediction (Remove k id) env w).
Proof.
  unfold routePrediction, diagnose, lookupFailure. simpl. unfold DELETE, findByIdAndDelete.
  connect_cases env w; unfold_monad; rewrite Hrun; simpl; [|done].
  destruct (castObjectId id) as [i|]; simpl; [|done].
  destruct k; simpl; rewrite ?Hs, ?Hi;
    match goal with |- context [?c !! i] => by destruct (c !! i) end.
Qed.

Lemma status_Search q env w :
  statusOf (handle (Search q) env w).1 = Some (routePrediction (Search q) env w).
Proof.
  unfold routePrediction, diagnose, blank, refusedPattern, handle, GET_search,
    trimmedQuery, newRegExp.
  destruct q as [s|]; [|done].
  change (JS.trim <$> Some s) with (Some (JS.trim s)).
  change (default "" (Some s)) with s.
  destruct (JS.trim s) as [|c t]; [done|].
  generalize (JS.malformed (String c t)) (JS.RegExp_new (String c t) true)
    (engine env (String c t)).
  intros m re test. simpl.
  connect_cases env w; unfold_monad; rewrite Hrun; simpl; [|done].
  destruct re; simpl; [done|]. destruct m; simpl; [done|]. by destruct test.
Qed.

Lemma status_Create k request env w :
  statusOf (handle (Create k request) env w).1
  = Some (routePrediction (Create k request) env w).
Proof.
  unfold routePrediction, diagnose. simpl. unfold POST, request_json.
  connect_cases env w; unfold_monad; rewrite Hrun; simpl; [|done].
  destruct request as [b|]; simpl; [|done].
  unfold missingField.
  destruct (negb (JS.truthy (prop (bName b))) || negb (JS.truthy (prop (bAge b)))
            || negb (JS.truthy (prop (bEmail b)))); simpl; [done|].
  unfold save, draftDoc. unfold_monad. simpl.
  destruct (validString (pName (schemaOf k)) _) as [n|]; simpl; [|done].
  destruct (validNumber (pAge (schemaOf k)) _) as [a|]; simpl; [|done].
  destruct (validString (pEmail (schemaOf k)) _) as [e|]; simpl; [|done].
  destruct k; simpl; rewrite ?Hs, ?Hi;
    match goal with
    | |- context [isSome ?x || violatesUnique ?s ?c ?j ?d] =>
        by destruct (isSome x || violatesUnique s c j d)
    end.
Qed.

Lemma status_Update k id request env w :
  statusOf (handle (Update k id request) env w).1
  = Some (routePrediction (Update k id request) env w).
Proof.
  unfold routePrediction, diagnose. simpl. unfold PUT, request_json.
  connect_cases env w; unfold_monad; rewrite Hrun; simpl; [|done].
  destruct request as [b|]; simpl; [|done].
  unfold findByIdAndUpdate, castField, validateField. unfold_monad.
  destruct (castObjectId id) as [i|]; simpl; [|done].
  unfold validUpdate, updatedDoc, settable, setValue.
  destruct (bName b) as [vn|], (bAge b) as [va|], (bEmail b) as [ve|]; simpl.
  all: repeat match goal with
       | |- context [match castStringPath ?p ?v with _ => _ end] =>
           destruct (castStringPath p v) as [[?|]|] eqn:?; simpl
       | |- context [match castNumber ?v with _ => _ end] =>
           destruct (castNumber v) as [[?|]|] eqn:?; simpl
       | |- context [if validateStringPath ?p ?a then _ else _] =>
           destruct (validateStringPath p a) eqn:?; simpl
       | |- context [if validateNumberPath ?p ?a then _ else _] =>
           destruct (validateNumberPath p a) eqn:?; simpl
       end; try done.
  all: destruct k; simpl; rewrite ?Hs, ?Hi.
  all: match goal with
       | |- context [@lookup _ _ (gmap _ _) _ ?j ?c] =>
           destruct (c !! j) as [d|]; simpl; [|done]
       end.
  all: match goal with
       | |- context [violatesUnique ?s ?c ?j ?x] =>
           by destruct (violatesUnique s c j x)
       end.
Qed.

Lemma status_UpdateWith k id body env w :
  statusOf (handle (UpdateWith k id body) env w).1
  = Some (routePrediction (UpdateWith k id body) env w).
Proof.
  unfold routePrediction, diagnose. simpl. unfold PUT_with, findByIdAndUpdateWith, findById.
  connect_cases env w; unfold_monad; rewrite Hrun; simpl; [|done].
  destruct (castObjectId id) as [i|]; simpl; [|by destruct body].
  destruct body as [| |f]; simpl; [|done|].
  - destruct k; simpl; rewrite ?Hs, ?Hi;
      match goal with |- context [?c !! i] => by destruct (c !! i) end.
  - destruct k; simpl; rewrite ?Hs, ?Hi.
    all: match goal with
         | |- context [@lookup _ _ (gmap _ _) _ ?j ?c] =>
             destruct (c !! j) as [d|]; simpl; [|done]
         end.
    all: destruct (f d) as [x|]; simpl; [|done].
    all: match goal with
         | |- context [violatesUnique ?s ?c ?j ?y] =>
             by destruct (violatesUnique s c j y)
         end.
Qed.

(** C4, as the code has it.  The status of a failed request is fixed by
    the route, not by the kind of failure alone: a missing record gives 404
    on the three routes by id; any other failure gives 400 on GET and PUT by
    id and 500 on DELETE, on the list and on the search; on POST a missing
    field and a duplicate key give 400 and every other failure (a field
    that fails validation, no connection, a body that is not JSON) gives
    500.  This holds of every request: of a PUT whatever its body, and of a
    search whatever its pattern (one that is refused is a failure of the
    search, answered 500). *)
Theorem status_is_fixed_by_route r env w :
  statusOf (handle r env w).1 = Some (routePrediction r env w).
Proof.
  destruct r as [k|k request|k id|k id request|k id body|k id|q].
  - apply status_ListAll.
  - apply status_Create.
  - apply status_Read.
  - apply status_Update.
  - apply status_UpdateWith.
  - apply status_Remove.
  - apply status_Search.
Qed.

(** C4, as stated, fails: a create request with the age -5 fails
    validation, for which the specification gives 400; the route answers
    500. *)
Lemma status_by_failure_kind_fails :
  diagnose (Create Student (Sample.fields "Zed" (Sample.num (-5)) "z@x.com"))
           (Sample.up 300 Sample.idNew) Sample.twoStudents = Some InvalidField ∧
  specPrediction (Create Student (Sample.fields "Zed" (Sample.num (-5)) "z@x.com"))
                 (Sample.up 300 Sample.idNew) Sample.twoStudents = 400 ∧
  (handle (Create Student (Sample.fields "Zed" (Sample.num (-5)) "z@x.com"))
          (Sample.up 300 Sample.idNew) Sample.twoStudents).1
  = Return (jsonStatus (ErrorMessage "Failed to create student") 500).
Proof. split_and!; vm_compute; reflexivity. Qed.

(** Likewise without a connection a read by id answers 400, and a delete
    under a malformed id answers 500. *)
Example status_other_mismatches :
  diagnose (Read Student Sample.idJohn) (Sample.down 300 Sample.idNew) initial
    = Some ConnectionFailed ∧
  statusOf (handle (Read Student Sample.idJohn) (Sample.down 300 Sample.idNew) initial).1
    = Some 400 ∧
  diagnose (Remove Student "42") (Sample.up 300 Sample.idNew) Sample.twoStudents
    = Some InvalidIdentifier ∧
  statusOf (handle (Remove Student "42") (Sample.up 300 Sample.idNew)
              Sample.twoStudents).1
    = Some 500.
Proof. split_and!; vm_compute; reflexivity. Qed.

(** The scenario of section 8: create, create again with the same email,
    update the age, delete, read. *)
Example scenario_statuses :
  let ann := Sample.fields "Ann" (Sample.num 20) "ann@x.com" in
  let w1 := (handle (Create Student ann) (Sample.up 1 Sample.idJohn) initial).2 in
  let w2 := (handle (Create Student ann) (Sample.up 2 Sample.idAmy) w1).2 in
  let w3 := (handle (Update Student Sample.idJohn (Sample.ageOnly (Sample.num 21)))
                    (Sample.up 3 Sample.idNew) w2).2 in
  let w4 := (handle (Remove Student Sample.idJohn) (Sample.up 4 Sample.idNew) w3).2 in
  statusOf (handle (Create Student ann) (Sample.up 1 Sample.idJohn) initial).1 = Some 201 ∧
  statusOf (handle (Create Student ann) (Sample.up 2 Sample.idAmy) w1).1 = Some 400 ∧
  (handle (Update Student Sample.idJohn (Sample.ageOnly (Sample.num 21)))
          (Sample.up 3 Sample.idNew) w2).1
    = Return (json (OneDoc (toObject
        (mkDoc Sample.idJohn "Ann" (JS.ofZ 21) "ann@x.com" 1 3 0)))) ∧
  statusOf (handle (Remove Student Sample.idJohn) (Sample.up 4 Sample.idNew) w3).1
    = Some 200 ∧
  statusOf (handle (Read Student Sample.idJohn) (Sample.up 5 Sample.idNew) w4).1
    = Some 404.
Proof. split_and!; vm_compute; reflexivity. Qed.

End Statuses.

(* ===================================================================== *)
(** ** What each write does, outcome by outcome *)
(* ===================================================================== *)

#[local] Instance sameCollections_order : PreOrder sameCollections.
Proof.
  split.
  - by intros w.
  - intros w1 w2 w3 [? ?] [? ?]. split; congruence.
Qed.

#[local] Instance sameConnection_order : PreOrder sameConnection.
Proof.
  split.
  - by intros w.
  - intros w1 w2 w3 [? ?] [? ?]. split; congruence.
Qed.

#[local] Existing Instance sortRel_total.

Section Outcomes.

Lemma connected_run_cached env w :
  connected env w = true →
  ∃ h w1, connectToDatabase env w = (Return h, w1) ∧
          conn (cached w1) = Some h ∧
          students w1 = students w ∧ instructors w1 = instructors w.
Proof.
  unfold connected. intros Hcon. pose proof (connect_frame env w) as Hf.
  destruct (connectToDatabase env w) as [r w1]. simpl in Hcon.
  destruct Hf as (Hs & Hi & _ & [(h & -> & Hc) | (reason & -> & _)]); [|done].
  by exists h, w1.
Qed.

Lemma isSome_false {A} (o : option A) : isSome o = false → o = None.
Proof. by destruct o. Qed.

(** A create either stores the document the body describes, under the
    fresh id, or changes nothing and answers with an error. *)
Lemma POST_outcome k request env w :
  (∃ b doc, request = Some b ∧ connected env w = true ∧ missingField b = false ∧
            draftDoc env k b = Some doc ∧
            violatesUnique (schemaOf k) (collection k w) (freshId env) doc = false ∧
            (POST k request env w).1 = Return (jsonStatus (OneDoc (toObject doc)) 201) ∧
            inserted k (freshId env) doc w (POST k request env w).2 ∧
            is_Some (conn (cached (POST k request env w).2))) ∨
  (sameCollections w (POST k request env w).2 ∧
   ∃ msg st, (POST k request env w).1 = Return (jsonStatus (ErrorMessage msg) st) ∧
             (400 ≤ st)%nat).
Proof.
  unfold POST, request_json.
  destruct (connected env w) eqn:Hcon.
  2:{ destruct (disconnected_run env w Hcon) as (reason & w1 & Hrun & Hs & Hi & _).
      right. unfold_monad. rewrite Hrun. simpl. split; [done|]. eauto with lia. }
  destruct (connected_run_cached env w Hcon) as (h & w1 & Hrun & Hc & Hs & Hi).
  unfold_monad. rewrite Hrun. simpl.
  destruct request as [b|]; simpl.
  2:{ right. split; [done|]. eauto with lia. }
  destruct (negb (JS.truthy (prop (bName b))) || negb (JS.truthy (prop (bAge b)))
            || negb (JS.truthy (prop (bEmail b)))) eqn:Hmiss; simpl.
  { right. split; [done|]. eauto with lia. }
  unfold save. unfold_monad. simpl.
  destruct (draftDoc env k b) as [doc|] eqn:Hdoc; pose proof Hdoc as Hdoc0;
    unfold draftDoc in Hdoc; simpl in Hdoc.
  - destruct (validString (pName (schemaOf k)) _) as [n|]; [|done].
    destruct (validNumber (pAge (schemaOf k)) _) as [a|]; [|done].
    destruct (validString (pEmail (schemaOf k)) _) as [e|]; [|done].
    injection Hdoc as <-. simpl.
    assert (Hcoll : ∀ t, collection k (mkWorld (cached w1) (students w1) (instructors w1) t)
                         = collection k w) by (intros t; destruct k; simpl; congruence).
    rewrite !Hcoll.
    destruct (isSome _ || violatesUnique _ _ _ _) eqn:Hdup; simpl.
    + right. split; [done|]. eauto with lia.
    + left. apply orb_false_iff in Hdup as [Hfresh Hviol].
      apply isSome_false in Hfresh.
      eexists b, _. split_and!; try done.
      * split; [done|]. split.
        -- destruct k; simpl; done.
        -- intros k' Hne. destruct k, k'; simpl; congruence.
      * destruct k; simpl; rewrite Hc; eauto.
  - right.
    destruct (validString (pName (schemaOf k)) _) as [n|]; simpl;
      [|split; [done|]; eauto with lia].
    destruct (validNumber (pAge (schemaOf k)) _) as [a|]; simpl;
      [|split; [done|]; eauto with lia].
    destruct (validString (pEmail (schemaOf k)) _) as [e|]; simpl;
      [done|split; [done|]; eauto with lia].
Qed.

Ltac refuse := split; [done|]; eauto with lia.

(** An update either replaces the addressed document by the one the body
    describes, or changes nothing and answers with an error. *)
Lemma PUT_outcome k id request env w :
  match request, castObjectId id with
  | Some b, Some i =>
      match collection k w !! i with
      | Some d =>
          if updateGoesThrough k i b d env w then
            (PUT k id request env w).1
              = Return (json (OneDoc (toObject (updatedDoc env k b d)))) ∧
            replaced k i d (updatedDoc env k b d) w (PUT k id request env w).2 ∧
            is_Some (conn (cached (PUT k id request env w).2))
          else refused w (PUT k id request env w)
      | None => refused w (PUT k id request env w)
      end
  | _, _ => refused w (PUT k id request env w)
  end.
Proof.
  unfold updateGoesThrough, refused, PUT, request_json.
  destruct (connected env w) eqn:Hcon.
  2:{ destruct (disconnected_run env w Hcon) as (reason & w1 & Hrun & Hs & Hi & _).
      unfold_monad. rewrite Hrun. simpl. repeat case_match; refuse. }
  destruct (connected_run_cached env w Hcon) as (h & w1 & Hrun & Hc & Hs & Hi).
  unfold_monad. rewrite Hrun. simpl.
  destruct request as [b|]; simpl; [|refuse].
  unfold findByIdAndUpdate, castField, validateField. unfold_monad.
  destruct (castObjectId id) as [i|]; simpl; [|refuse].
  unfold validUpdate, updatedDoc, settable, setValue.
  destruct (bName b) as [vn|], (bAge b) as [va|], (bEmail b) as [ve|]; simpl.
  all: repeat match goal with
       | |- context [match castStringPath ?p ?v with _ => _ end] =>
           destruct (castStringPath p v) as [[?|]|] eqn:?; simpl
       | |- context [match castNumber ?v with _ => _ end] =>
           destruct (castNumber v) as [[?|]|] eqn:?; simpl
       | |- context [if validateStringPath ?p ?a then _ else _] =>
           destruct (validateStringPath p a) eqn:?; simpl
       | |- context [if validateNumberPath ?p ?a then _ else _] =>
           destruct (validateNumberPath p a) eqn:?; simpl
       end.
  all: destruct k; simpl; rewrite ?Hs, ?Hi.
  all: match goal with
       | |- context [@lookup _ _ (gmap _ _) _ ?j ?c] =>
           destruct (c !! j) as [d|] eqn:Hd; simpl
       end.
  all: try refuse.
  all: match goal with
       | |- context [violatesUnique ?s ?c ?j ?x] =>
           destruct (violatesUnique s c j x) eqn:Hviol; simpl
       end.
  all: try refuse.
  all: split_and!; try done; try (rewrite Hc; eauto).
  all: split; [done|]; split; [done|]; intros []; simpl; congruence.
Qed.

(** A delete either removes the addressed document, or changes nothing and
    answers with an error. *)
Lemma DELETE_outcome k id env w :
  match castObjectId id with
  | Some i =>
      match collection k w !! i with
      | Some d =>
          if connected env w then
            (DELETE k id env w).1
              = Return (jsonStatus (Message (Noun k ++ " deleted successfully")) 200) ∧
            removed k i d w (DELETE k id env w).2 ∧
            is_Some (conn (cached (DELETE k id env w).2))
          else refused w (DELETE k id env w)
      | None => refused w (DELETE k id env w)
      end
  | None => refused w (DELETE k id env w)
  end.
Proof.
  unfold refused, DELETE, findByIdAndDelete.
  destruct (connected env w) eqn:Hcon.
  2:{ destruct (disconnected_run env w Hcon) as (reason & w1 & Hrun & Hs & Hi & _).
      unfold_monad. rewrite Hrun. simpl. repeat case_match; refuse. }
  destruct (connected_run_cached env w Hcon) as (h & w1 & Hrun & Hc & Hs & Hi).
  unfold_monad. rewrite Hrun. simpl.
  destruct (castObjectId id) as [i|]; simpl; [|refuse].
  destruct k; simpl; rewrite ?Hs, ?Hi.
  all: match goal with
       | |- context [@lookup _ _ (gmap _ _) _ ?j ?c] =>
           destruct (c !! j) as [d|] eqn:Hd; simpl
       end.
  all: try refuse.
  all: split_and!; try done; try (rewrite Hc; eauto).
  all: split; [done|]; split; [done|]; intros []; simpl; congruence.
Qed.

(** An update the database applies as the client wrote it either puts what
    it makes of the addressed document in its place, or changes nothing
    and answers with an error. *)
Lemma PUT_modify_outcome k id f env w :
  match castObjectId id with
  | Some i =>
      match collection k w !! i with
      | Some d =>
          match f d with
          | Some x =>
              if connected env w &&
                 negb (violatesUnique (schemaOf k) (collection k w) i
                         (replaceWith (schemaOf k) (now env) d x))
              then
                (PUT_with k id (Modify f) env w).1
                  = Return (json (OneDoc (toObject (replaceWith (schemaOf k) (now env) d x)))) ∧
                replaced k i d (replaceWith (schemaOf k) (now env) d x) w
                  (PUT_with k id (Modify f) env w).2 ∧
                is_Some (conn (cached (PUT_with k id (Modify f) env w).2))
              else refused w (PUT_with k id (Modify f) env w)
          | None => refused w (PUT_with k id (Modify f) env w)
          end
      | None => refused w (PUT_with k id (Modify f) env w)
      end
  | None => refused w (PUT_with k id (Modify f) env w)
  end.
Proof.
  unfold refused, PUT_with, findByIdAndUpdateWith.
  destruct (connected env w) eqn:Hcon.
  2:{ destruct (disconnected_run env w Hcon) as (reason & w1 & Hrun & Hs & Hi & _).
      unfold_monad. rewrite Hrun. simpl. repeat case_match; refuse. }
  destruct (connected_run_cached env w Hcon) as (h & w1 & Hrun & Hc & Hs & Hi).
  unfold_monad. rewrite Hrun. simpl.
  destruct (castObjectId id) as [i|]; simpl; [|refuse].
  destruct k; simpl; rewrite ?Hs, ?Hi.
  all: match goal with
       | |- context [@lookup _ _ (gmap _ _) _ ?j ?c] =>
           destruct (c !! j) as [d|] eqn:Hd; simpl
       end.
  all: try refuse.
  all: destruct (f d) as [x|]; simpl; [|refuse].
  all: match goal with
       | |- context [violatesUnique ?s ?c ?j ?y] =>
           destruct (violatesUnique s c j y) eqn:Hviol; simpl
       end.
  all: try refuse.
  all: split_and!; try done; try (rewrite Hc; eauto).
  all: split; [done|]; split; [done|]; intros []; simpl; congruence.
Qed.

(** A body [null] makes a read of the update; one that Mongoose refuses is
    answered with an error.  Neither changes anything. *)
Lemma PUT_null_outcome k id env w :
  sameCollections w (PUT_with k id JsonNull env w).2 ∧
  (PUT_with k id JsonNull env w).1 = (GET_one k id env w).1 ∨
  refused w (PUT_with k id JsonNull env w).
Proof.
  unfold refused, PUT_with, GET_one, findByIdAndUpdateWith, findById.
  destruct (connected env w) eqn:Hcon.
  2:{ destruct (disconnected_run env w Hcon) as (reason & w1 & Hrun & Hs & Hi & _).
      right. unfold_monad. rewrite Hrun. simpl. refuse. }
  destruct (connected_run_cached env w Hcon) as (h & w1 & Hrun & Hc & Hs & Hi).
  unfold_monad. rewrite Hrun. simpl.
  destruct (castObjectId id) as [i|]; simpl; [|right; refuse].
  left. destruct k; simpl;
    match goal with
    | |- context [@lookup _ _ (gmap _ _) _ ?j ?c] => by destruct (c !! j)
    end.
Qed.

Lemma PUT_rejected_outcome k id env w : refused w (PUT_with k id Rejected env w).
Proof.
  unfold refused, PUT_with, findByIdAndUpdateWith.
  destruct (connected env w) eqn:Hcon.
  - destruct (connected_run_cached env w Hcon) as (h & w1 & Hrun & Hc & Hs & Hi).
    unfold_monad. rewrite Hrun. simpl. destruct (castObjectId id); simpl; refuse.
  - destruct (disconnected_run env w Hcon) as (reason & w1 & Hrun & Hs & Hi & _).
    unfold_monad. rewrite Hrun. simpl. refuse.
Qed.

Lemma PUT_plain_sameCollections k id body env w :
  plain (UpdateWith k id body) = true → sameCollections w (PUT_with k id body env w).2.
Proof.
  destruct body as [| |f]; [| |done]; intros _.
  - by destruct (PUT_null_outcome k id env w) as [[? _]|[? _]].
  - by destruct (PUT_rejected_outcome k id env w).
Qed.

Ltac keep_collections :=
  repeat first
    [ apply connect_sameCollections | apply exec_sameCollections
    | apply findById_sameCollections | preserve_step ].

(** The routes that only read leave both collections as they are. *)
Lemma readOnly_sameCollections r env :
  readOnly r = true → preserves sameCollections (handle r env).
Proof.
  destruct r; simpl; try done; intros _;
    unfold GET_all, GET_one, GET_search, newRegExp; keep_collections.
Qed.

Lemma collection_same k w w' : sameCollections w w' → collection k w' = collection k w.
Proof. intros [? ?]. destruct k; simpl; congruence. Qed.

(** To show that something holds after a request, it is enough to show it
    for the five things a request can do to the store: nothing, the insert
    of a create, the replacement an update of plain fields makes, the
    replacement the database makes for another update, the removal of a
    delete.  Every write has passed the unique index. *)
Lemma handle_inv (I : World → Prop) r env w :
  (∀ w', sameCollections w w' → I w') →
  (∀ k b doc w', r = Create k (Some b) → draftDoc env k b = Some doc →
     violatesUnique (schemaOf k) (collection k w) (freshId env) doc = false →
     inserted k (freshId env) doc w w' → I w') →
  (∀ k id i b d w', r = Update k id (Some b) → castObjectId id = Some i →
     validUpdate k b = true →
     violatesUnique (schemaOf k) (collection k w) i (updatedDoc env k b d) = false →
     replaced k i d (updatedDoc env k b d) w w' → I w') →
  (∀ k id i f d x w', r = UpdateWith k id (Modify f) → castObjectId id = Some i →
     f d = Some x →
     violatesUnique (schemaOf k) (collection k w) i
       (replaceWith (schemaOf k) (now env) d x) = false →
     replaced k i d (replaceWith (schemaOf k) (now env) d x) w w' → I w') →
  (∀ k id i d w', r = Remove k id → castObjectId id = Some i →
     removed k i d w w' → I w') →
  I (handle r env w).2.
Proof.
  intros Hsame Hins Hrep Hmod Hrem.
  destruct r as [k|k request|k id|k id request|k id body|k id|q].
  - by apply Hsame, (readOnly_sameCollections (ListAll k)).
  - simpl. destruct (POST_outcome k request env w)
      as [(b & doc & -> & _ & _ & Hdoc & Hfree & _ & Hi & _) | [Hs _]]; [|by apply Hsame].
    by eapply Hins.
  - by apply Hsame, (readOnly_sameCollections (Read k id)).
  - simpl. pose proof (PUT_outcome k id request env w) as Hout.
    destruct request as [b|]; [|apply Hsame, Hout].
    destruct (castObjectId id) as [i|] eqn:Hid; [|apply Hsame, Hout].
    destruct (collection k w !! i) as [d|] eqn:Hd; [|apply Hsame, Hout].
    destruct (updateGoesThrough k i b d env w) eqn:Hgo; [|apply Hsame, Hout].
    destruct Hout as (_ & Hr & _).
    apply andb_true_iff in Hgo as [Hgo Hfree]. apply andb_true_iff in Hgo as [_ Hvalid].
    apply negb_true_iff in Hfree. by eapply Hrep.
  - simpl. destruct body as [| |f];
      [by apply Hsame, PUT_plain_sameCollections
      |by apply Hsame, PUT_plain_sameCollections|].
    pose proof (PUT_modify_outcome k id f env w) as Hout.
    destruct (castObjectId id) as [i|] eqn:Hid; [|apply Hsame, Hout].
    destruct (collection k w !! i) as [d|] eqn:Hd; [|apply Hsame, Hout].
    destruct (f d) as [x|] eqn:Hf; [|apply Hsame, Hout].
    destruct (connected env w && _) eqn:Hgo; [|apply Hsame, Hout].
    destruct Hout as (_ & Hr & _).
    apply andb_true_iff in Hgo as [_ Hfree]. apply negb_true_iff in Hfree.
    by eapply Hmod.
  - simpl. pose proof (DELETE_outcome k id env w) as Hout.
    destruct (castObjectId id) as [i|] eqn:Hid; [|apply Hsame, Hout].
    destruct (collection k w !! i) as [d|] eqn:Hd; [|apply Hsame, Hout].
    destruct (connected env w); [|apply Hsame, Hout].
    destruct Hout as (_ & Hr & _). by eapply Hrem.
  - by apply Hsame, (readOnly_sameCollections (Search q)).
Qed.

End Outcomes.

(* ===================================================================== *)
(** ** Reading, and requests that are refused *)
(* ===================================================================== *)

Section Reading.

(** X1.  The routes that only read (the list, the read by id, the search)
    leave both collections exactly as they were, whatever they answer. *)
Theorem reads_leave_the_store r env w :
  readOnly r = true →
  students (handle r env w).2 = students w ∧
  instructors (handle r env w).2 = instructors w.
Proof. intros Hr. exact (readOnly_sameCollections r env Hr w). Qed.

Lemma reads_leave_the_store_witness :
  readOnly (Search (Some "a.x")) = true ∧
  students (handle (Search (Some "a.x")) (Sample.up 300 Sample.idNew)
              Sample.twoStudents).2 = students Sample.twoStudents ∧
  instructors (handle (Search (Some "a.x")) (Sample.up 300 Sample.idNew)
                 Sample.twoStudents).2 = instructors Sample.twoStudents.
Proof.
  split; [reflexivity|].
  apply (reads_leave_the_store (Search (Some "a.x"))). reflexivity.
Defined.

(** X2.  A request answered with a status from 400 on has changed neither
    collection: a refused create, update or delete writes nothing. *)
Theorem refused_requests_leave_the_store r env w st :
  statusOf (handle r env w).1 = Some st →
  (400 ≤ st)%nat →
  students (handle r env w).2 = students w ∧
  instructors (handle r env w).2 = instructors w.
Proof.
  intros Hst Hge.
  destruct r as [k|k request|k id|k id request|k id body|k id|q].
  - by apply (readOnly_sameCollections (ListAll k)).
  - simpl in *. destruct (POST_outcome k request env w)
      as [(b & doc & _ & _ & _ & _ & _ & Hres & _) | [Hsame _]]; [|done].
    rewrite Hres in Hst. simpl in Hst. injection Hst as <-. lia.
  - by apply (readOnly_sameCollections (Read k id)).
  - simpl in *. pose proof (PUT_outcome k id request env w) as Hout.
    repeat case_match; try (by destruct Hout as [Hsame _]).
    destruct Hout as (Hres & _). rewrite Hres in Hst. simpl in Hst.
    injection Hst as <-. lia.
  - simpl in *. destruct body as [| |f];
      [by apply PUT_plain_sameCollections | by apply PUT_plain_sameCollections|].
    pose proof (PUT_modify_outcome k id f env w) as Hout.
    repeat case_match; try (by destruct Hout as [Hsame _]).
    destruct Hout as (Hres & _). rewrite Hres in Hst. simpl in Hst.
    injection Hst as <-. lia.
  - simpl in *. pose proof (DELETE_outcome k id env w) as Hout.
    repeat case_match; try (by destruct Hout as [Hsame _]).
    destruct Hout as (Hres & _). rewrite Hres in Hst. simpl in Hst.
    injection Hst as <-. lia.
  - by apply (readOnly_sameCollections (Search q)).
Qed.

Lemma refused_requests_leave_the_store_witness :
  statusOf (handle (Update Student Sample.idJohn
                      (Some (mkBody None None (Some (JS.VStr "JO123@y.com")))))
              (Sample.up 300 Sample.idNew) Sample.twoStudents).1 = Some 400 ∧
  (400 ≤ 400)%nat ∧
  students (handle (Update Student Sample.idJohn
                      (Some (mkBody None None (Some (JS.VStr "JO123@y.com")))))
              (Sample.up 300 Sample.idNew) Sample.twoStudents).2
    = students Sample.twoStudents ∧
  instructors (handle (Update Student Sample.idJohn
                      (Some (mkBody None None (Some (JS.VStr "JO123@y.com")))))
              (Sample.up 300 Sample.idNew) Sample.twoStudents).2
    = instructors Sample.twoStudents.
Proof.
  split; [vm_compute; reflexivity|]. split; [lia|].
  apply (refused_requests_leave_the_store
           (Update Student Sample.idJohn
              (Some (mkBody None None (Some (JS.VStr "JO123@y.com")))))
           (Sample.up 300 Sample.idNew) Sample.twoStudents 400);
    [vm_compute; reflexivity | lia].
Defined.

Lemma Sorted_weaken {A} (R R' : relation A) (l : list A) :
  (∀ a b, R a b → R' a b) → Sorted R l → Sorted R' l.
Proof.
  intros Himp. induction 1 as [|x l Hl IH Hhd]; constructor; [done|].
  destruct Hhd; constructor. by apply Himp.
Qed.

(** X3.  With a connection, the list route returns every stored document
    of the kind, each once and in full, the most recently created first. *)
Theorem list_is_complete_newest_first k env w :
  connected env w = true →
  ∃ ds, (GET_all k env w).1 = Return (json (Docs (toObject <$> ds))) ∧
        ds ≡ₚ documents (collection k w) ∧
        Sorted (fun a b => (createdAt b ≤ createdAt a)%Z) ds.
Proof.
  intros Hcon.
  destruct (connected_run env w Hcon) as (h & w1 & Hrun & Hs & Hi & _).
  set (R := sortRel ByCreatedAt false).
  exists (merge_sort R (documents (collection k w))).
  split_and!.
  - unfold GET_all, tryCatch, mbind, M_bind. rewrite Hrun.
    rewrite exec_run. simpl.
    assert (Hc : collection k w1 = collection k w) by (destruct k; simpl; congruence).
    rewrite Hc. unfold selectDocs. simpl.
    assert (Hall : List.filter (fun _ : Doc => true) (documents (collection k w))
                   = documents (collection k w)).
    { induction (documents (collection k w)) as [|x l IH]; simpl; [done|]. by rewrite IH. }
    by rewrite Hall.
  - apply (merge_sort_Permutation R).
  - pose proof (Sorted_merge_sort R (documents (collection k w))) as Hsorted.
    eapply Sorted_weaken; [|exact Hsorted].
    intros a b Hab. unfold R, sortRel, sortsBefore in Hab. by apply Z.leb_le.
Qed.

Lemma list_is_complete_newest_first_witness :
  connected (Sample.up 300 Sample.idNew) Sample.twoStudents = true ∧
  ∃ ds, (GET_all Student (Sample.up 300 Sample.idNew) Sample.twoStudents).1
          = Return (json (Docs (toObject <$> ds))) ∧
        ds ≡ₚ documents (collection Student Sample.twoStudents) ∧
        Sorted (fun a b => (createdAt b ≤ createdAt a)%Z) ds.
Proof.
  split; [reflexivity|].
  apply (list_is_complete_newest_first Student (Sample.up 300 Sample.idNew)
           Sample.twoStudents). reflexivity.
Defined.

End Reading.

(* ===================================================================== *)
(** ** Create, read and delete, composed *)
(* ===================================================================== *)

Section Composition.

Lemma isWhiteSpace_lowerChar c : JS.isWhiteSpace (JS.lowerChar c) = JS.isWhiteSpace c.
Proof. by destruct c as [[] [] [] [] [] [] [] []]. Qed.

Lemma noWhiteSpace_toLowerCase s : noWhiteSpace (JS.toLowerCase s) = noWhiteSpace s.
Proof.
  induction s as [|c s IH]; simpl; [done|]. by rewrite isWhiteSpace_lowerChar, IH.
Qed.

(** A value the email validators accept has no whitespace. *)
Lemma validated_email_noWhiteSpace k e :
  validateStringPath (pEmail (schemaOf k)) (Some e) = true → noWhiteSpace e = true.
Proof.
  intros Hvalid. unfold validateStringPath in Hvalid.
  assert (Hm : sMatch (pEmail (schemaOf k)) = JS.RegExp_new "^\S+@\S+\.\S+$" false)
    by by destruct k.
  assert (Hr : sRequired (pEmail (schemaOf k)) = true) by by destruct k.
  rewrite Hm, Hr, email_pattern_parses in Hvalid. simpl in Hvalid.
  apply andb_true_iff in Hvalid as [Hreq Hmatch].
  apply negb_true_iff in Hreq. rewrite Hreq in Hmatch.
  refine (test_anchored_noWhiteSpace _ e _ _ _ Hmatch); [done|done|].
  intros it c Hin Hcls. simpl in Hin.
  destruct Hin as [<-|[<-|[<-|[<-|[<-|[]]]]]]; cbn [JS.classMatches fst] in Hcls.
  - by apply negb_true_iff in Hcls.
  - by apply Ascii.eqb_eq in Hcls as <-.
  - by apply negb_true_iff in Hcls.
  - by apply Ascii.eqb_eq in Hcls as <-.
  - by apply negb_true_iff in Hcls.
Qed.

Lemma trimStart_idem s : JS.trimStart (JS.trimStart s) = JS.trimStart s.
Proof.
  induction s as [|c s IH]; simpl; [done|].
  destruct (JS.isWhiteSpace c) eqn:Hc; [done|]. simpl. by rewrite Hc.
Qed.

Lemma trimEnd_idem s : JS.trimEnd (JS.trimEnd s) = JS.trimEnd s.
Proof.
  induction s as [|c s IH]; simpl; [done|].
  destruct (JS.trimEnd s) as [|a t] eqn:Ht.
  - destruct (JS.isWhiteSpace c) eqn:Hc; simpl; [done|]. by rewrite Hc.
  - simpl in *. by rewrite IH.
Qed.

Lemma trimStart_trimEnd t :
  JS.trimStart t = t → JS.trimStart (JS.trimEnd t) = JS.trimEnd t.
Proof.
  destruct t as [|c t]; simpl; [done|].
  destruct (JS.isWhiteSpace c) eqn:Hc.
  - intros Heq. exfalso.
    assert (Hlen : (String.length (JS.trimStart t) ≤ String.length t)%nat).
    { clear. induction t as [|a t IH]; simpl; [done|].
      destruct (JS.isWhiteSpace a); simpl; lia. }
    rewrite Heq in Hlen. simpl in Hlen. lia.
  - intros _. destruct (JS.trimEnd t); simpl; by rewrite Hc.
Qed.

(** [trim] leaves a trimmed string as it is. *)
Lemma trim_idem s : JS.trim (JS.trim s) = JS.trim s.
Proof.
  unfold JS.trim.
  rewrite (trimStart_trimEnd (JS.trimStart s) (trimStart_idem s)).
  apply trimEnd_idem.
Qed.

(** What the document of a valid create request holds. *)
Lemma draftDoc_fields env k b doc :
  draftDoc env k b = Some doc →
  _id doc = freshId env ∧ createdAt doc = now env ∧ updatedAt doc = now env ∧
  (∀ s, bName b = Some (JS.VStr s) → name doc = JS.trim s) ∧
  (∀ s, bEmail b = Some (JS.VStr s) → email doc = JS.toLowerCase (JS.trim s)) ∧
  (∀ n, bAge b = Some (JS.VNum n) → age doc = n) ∧
  name doc ≠ "" ∧ JS.trim (name doc) = name doc ∧ JS.geZ (age doc) 1 = true.
Proof.
  unfold draftDoc, newModel. simpl.
  destruct (validString (pName (schemaOf k)) _) as [n|] eqn:Hn; [|done].
  destruct (validNumber (pAge (schemaOf k)) _) as [a|] eqn:Ha; [|done].
  destruct (validString (pEmail (schemaOf k)) _) as [e|] eqn:He; [|done].
  intros [= <-]. simpl.
  apply validString_Some in Hn as [Hncast Hnvalid].
  apply validString_Some in He as [Hecast Hevalid].
  split_and!; try done.
  - intros s Hs. rewrite Hs in Hncast. simpl in Hncast.
    unfold castStringPath in Hncast. simpl in Hncast. injection Hncast as <-.
    by destruct k.
  - intros s Hs. rewrite Hs in Hecast. simpl in Hecast.
    unfold castStringPath in Hecast. simpl in Hecast. injection Hecast as <-.
    destruct k; [done|]. simpl.
    pose proof (validated_email_noWhiteSpace Instructor _ Hevalid) as Hws.
    simpl in Hws. rewrite noWhiteSpace_toLowerCase in Hws.
    by rewrite (trim_noWhiteSpace s Hws).
  - intros x Hx. rewrite Hx in Ha. unfold validNumber, castNumber, prop in Ha.
    simpl in Ha. destruct (JS.isNaN x); [done|].
    destruct (validateNumberPath _ _); [|done]. by injection Ha as <-.
  - unfold validateStringPath in Hnvalid. intros ->.
    by destruct k.
  - unfold castStringPath in Hncast.
    destruct (castString (prop (bName b))) as [[s|]|]; try done.
    injection Hncast as <-. destruct k; simpl; apply trim_idem.
  - unfold validNumber in Ha.
    destruct (castNumber (prop (bAge b))) as [v|]; [|done].
    destruct (validateNumberPath (pAge (schemaOf k)) v) eqn:Hv; [|done].
    subst v. unfold validateNumberPath in Hv. by destruct k.
Qed.

(** A read by id, once the handle is cached. *)
Lemma GET_one_run h k id i env w :
  conn (cached w) = Some h → castObjectId id = Some i →
  (GET_one k id env w).1 =
  match collection k w !! i with
  | Some d => Return (json (OneDoc (toObject d)))
  | None => Return (jsonStatus (ErrorMessage (Noun k ++ " not found")) 404)
  end.
Proof.
  intros Hc Hid. unfold GET_one, findById. unfold_monad.
  rewrite (connect_cached env w h Hc). simpl. rewrite Hid. simpl.
  destruct k; simpl;
    match goal with
    | |- context [@lookup _ _ (gmap _ _) _ ?j ?c] => by destruct (c !! j)
    end.
Qed.

(** X4.  A successful create stores one document, under the fresh id, and
    nothing else changes.  The document has that id and the time of the
    request as both [createdAt] and [updatedAt]; a name given as a string is
    stored trimmed, an email given as a string is stored trimmed and in
    lower case (for either kind), an age given as a number is stored as it
    is. *)
Theorem created_document_is_normalised k b env w o :
  (POST k (Some b) env w).1 = Return (jsonStatus (OneDoc o) 201) →
  ∃ d, o = toObject d ∧
       inserted k (freshId env) d w (POST k (Some b) env w).2 ∧
       _id d = freshId env ∧ createdAt d = now env ∧ updatedAt d = now env ∧
       (∀ s, bName b = Some (JS.VStr s) → name d = JS.trim s) ∧
       (∀ s, bEmail b = Some (JS.VStr s) → email d = JS.toLowerCase (JS.trim s)) ∧
       (∀ n, bAge b = Some (JS.VNum n) → age d = n).
Proof.
  intros Hres.
  destruct (POST_outcome k (Some b) env w)
    as [(b' & doc & [= <-] & _ & _ & Hdoc & _ & Hok & Hins & _)
       | [_ (msg & st & Herr & _)]].
  - rewrite Hok in Hres. injection Hres as <-.
    destruct (draftDoc_fields env k b doc Hdoc) as (? & ? & ? & ? & ? & ? & _).
    exists doc. split_and!; done.
  - rewrite Herr in Hres. discriminate Hres.
Qed.

Lemma created_document_is_normalised_witness :
  (POST Instructor (Sample.fields " Eve " (Sample.num 30) "Eve@X.org")
        (Sample.up 300 Sample.idNew) initial).1
  = Return (jsonStatus
      (OneDoc (toObject (mkDoc Sample.idNew "Eve" (JS.ofZ 30) "eve@x.org" 300 300 0))) 201) ∧
  ∃ d, toObject (mkDoc Sample.idNew "Eve" (JS.ofZ 30) "eve@x.org" 300 300 0) = toObject d ∧
       inserted Instructor Sample.idNew d initial
         (POST Instructor (Sample.fields " Eve " (Sample.num 30) "Eve@X.org")
               (Sample.up 300 Sample.idNew) initial).2 ∧
       _id d = Sample.idNew ∧ createdAt d = 300%Z ∧ updatedAt d = 300%Z ∧
       (∀ s, Some (JS.VStr " Eve ") = Some (JS.VStr s) → name d = JS.trim s) ∧
       (∀ s, Some (JS.VStr "Eve@X.org") = Some (JS.VStr s) →
             email d = JS.toLowerCase (JS.trim s)) ∧
       (∀ n, Some (Sample.num 30) = Some (JS.VNum n) → age d = n).
Proof.
  split; [vm_compute; reflexivity|].
  apply (created_document_is_normalised Instructor
           (mkBody (Some (JS.VStr " Eve ")) (Some (Sample.num 30))
                   (Some (JS.VStr "Eve@X.org")))
           (Sample.up 300 Sample.idNew) initial).
  vm_compute; reflexivity.
Defined.

(** X5.  Create, then read: when the fresh id is a well-formed ObjectId, a
    read by that id right after a successful create returns the document
    the create returned (the connection is already cached, whatever the
    surroundings of the read). *)
Theorem create_then_read k b env w o env' :
  castObjectId (freshId env) = Some (freshId env) →
  (POST k (Some b) env w).1 = Return (jsonStatus (OneDoc o) 201) →
  (GET_one k (freshId env) env' (POST k (Some b) env w).2).1
  = Return (json (OneDoc o)).
Proof.
  intros Hid Hres.
  destruct (POST_outcome k (Some b) env w)
    as [(b' & doc & [= <-] & _ & _ & _ & _ & Hok & (_ & Hins & _) & [h Hc])
       | [_ (msg & st & Herr & _)]].
  - rewrite Hok in Hres. injection Hres as <-.
    rewrite (GET_one_run h k _ _ env' _ Hc Hid), Hins.
    by rewrite lookup_insert_eq.
  - rewrite Herr in Hres. discriminate Hres.
Qed.

Lemma create_then_read_witness :
  castObjectId (freshId (Sample.up 300 Sample.idNew))
    = Some (freshId (Sample.up 300 Sample.idNew)) ∧
  (POST Student (Sample.fields "Bob" (Sample.num 30) "bob@x.com")
        (Sample.up 300 Sample.idNew) Sample.twoStudents).1
  = Return (jsonStatus
      (OneDoc (toObject (mkDoc Sample.idNew "Bob" (JS.ofZ 30) "bob@x.com" 300 300 0))) 201) ∧
  (GET_one Student (freshId (Sample.up 300 Sample.idNew))
           (Sample.down 400 Sample.idNew)
           (POST Student (Sample.fields "Bob" (Sample.num 30) "bob@x.com")
                 (Sample.up 300 Sample.idNew) Sample.twoStudents).2).1
  = Return (json (OneDoc
      (toObject (mkDoc Sample.idNew "Bob" (JS.ofZ 30) "bob@x.com" 300 300 0)))).
Proof.
  split; [reflexivity|]. split; [vm_compute; reflexivity|].
  apply (create_then_read Student
           (mkBody (Some (JS.VStr "Bob")) (Some (Sample.num 30)) (Some (JS.VStr "bob@x.com")))
           (Sample.up 300 Sample.idNew) Sample.twoStudents _
           (Sample.down 400 Sample.idNew));
    [reflexivity | vm_compute; reflexivity].
Defined.

(** X6.  A create whose body is otherwise valid but whose email, as it
    would be stored, is already the email of a stored entity of the kind, is
    answered 400 with "Email already exists", and nothing is stored. *)
Theorem duplicate_email_is_refused k b env w doc j dj :
  connected env w = true →
  missingField b = false →
  draftDoc env k b = Some doc →
  collection k w !! j = Some dj →
  email dj = email doc →
  (POST k (Some b) env w).1
    = Return (jsonStatus (ErrorMessage "Email already exists") 400) ∧
  students (POST k (Some b) env w).2 = students w ∧
  instructors (POST k (Some b) env w).2 = instructors w.
Proof.
  intros Hcon Hmiss Hdoc Hj Heq.
  destruct (connected_run env w Hcon) as (h & w1 & Hrun & Hs & Hi & _).
  unfold POST, request_json. unfold_monad. rewrite Hrun. simpl.
  unfold missingField in Hmiss. rewrite Hmiss. simpl.
  unfold save. unfold_monad. simpl.
  unfold draftDoc in Hdoc. simpl in Hdoc.
  destruct (validString (pName (schemaOf k)) _) as [n|]; [|done].
  destruct (validNumber (pAge (schemaOf k)) _) as [a|]; [|done].
  destruct (validString (pEmail (schemaOf k)) _) as [e|]; [|done].
  injection Hdoc as <-. simpl in *.
  assert (Hcoll : ∀ t, collection k (mkWorld (cached w1) (students w1) (instructors w1) t)
                       = collection k w) by (intros t; destruct k; simpl; congruence).
  rewrite !Hcoll.
  assert (Hdup : isSome (collection k w !! freshId env) ||
                 violatesUnique (schemaOf k) (collection k w) (freshId env)
                   (mkDoc (freshId env) n a e (now env) (now env) 0) = true).
  { destruct (decide (j = freshId env)) as [->|Hne].
    - by rewrite Hj.
    - apply orb_true_iff. right.
      destruct (violatesUnique _ _ _ _) eqn:Hviol; [done|].
      exfalso. by apply (violatesUnique_free k _ _ _ Hviol j dj Hj Hne). }
  rewrite Hdup. simpl. done.
Qed.

Lemma duplicate_email_is_refused_witness :
  connected (Sample.up 300 Sample.idNew) Sample.twoStudents = true ∧
  missingField (mkBody (Some (JS.VStr "Johnny")) (Some (Sample.num 30))
                       (Some (JS.VStr " A@X.COM "))) = false ∧
  draftDoc (Sample.up 300 Sample.idNew) Student
           (mkBody (Some (JS.VStr "Johnny")) (Some (Sample.num 30))
                   (Some (JS.VStr " A@X.COM ")))
    = Some (mkDoc Sample.idNew "Johnny" (JS.ofZ 30) "a@x.com" 300 300 0) ∧
  collection Student Sample.twoStudents !! Sample.idJohn = Some Sample.john ∧
  email Sample.john = "a@x.com" ∧
  (POST Student (Sample.fields "Johnny" (Sample.num 30) " A@X.COM ")
        (Sample.up 300 Sample.idNew) Sample.twoStudents).1
    = Return (jsonStatus (ErrorMessage "Email already exists") 400) ∧
  students (POST Student (Sample.fields "Johnny" (Sample.num 30) " A@X.COM ")
              (Sample.up 300 Sample.idNew) Sample.twoStudents).2
    = students Sample.twoStudents ∧
  instructors (POST Student (Sample.fields "Johnny" (Sample.num 30) " A@X.COM ")
                 (Sample.up 300 Sample.idNew) Sample.twoStudents).2
    = instructors Sample.twoStudents.
Proof.
  split; [reflexivity|]. split; [reflexivity|]. split; [vm_compute; reflexivity|].
  split; [vm_compute; reflexivity|]. split; [reflexivity|].
  apply (duplicate_email_is_refused Student
           (mkBody (Some (JS.VStr "Johnny")) (Some (Sample.num 30))
                   (Some (JS.VStr " A@X.COM ")))
           (Sample.up 300 Sample.idNew) Sample.twoStudents
           (mkDoc Sample.idNew "Johnny" (JS.ofZ 30) "a@x.com" 300 300 0)
           Sample.idJohn Sample.john);
    [reflexivity | reflexivity | vm_compute; reflexivity
    | vm_compute; reflexivity | reflexivity].
Defined.

(** X7.  Delete, then read: a delete answered 200 has removed the document
    under the id and nothing else, and a read by that id right after it is
    answered 404. *)
Theorem delete_then_read k id env w env' :
  statusOf (DELETE k id env w).1 = Some 200 →
  ∃ i d, castObjectId id = Some i ∧
         removed k i d w (DELETE k id env w).2 ∧
         (GET_one k id env' (DELETE k id env w).2).1
         = Return (jsonStatus (ErrorMessage (Noun k ++ " not found")) 404).
Proof.
  intros Hst. pose proof (DELETE_outcome k id env w) as Hout.
  destruct (castObjectId id) as [i|] eqn:Hid.
  2:{ destruct Hout as [_ (msg & st & Hres & Hge)]. rewrite Hres in Hst.
      simpl in Hst. injection Hst as ->. lia. }
  destruct (collection k w !! i) as [d|] eqn:Hd.
  2:{ destruct Hout as [_ (msg & st & Hres & Hge)]. rewrite Hres in Hst.
      simpl in Hst. injection Hst as ->. lia. }
  destruct (connected env w).
  2:{ destruct Hout as [_ (msg & st & Hres & Hge)]. rewrite Hres in Hst.
      simpl in Hst. injection Hst as ->. lia. }
  destruct Hout as (_ & Hrem & [h Hc]).
  exists i, d. split_and!; try done.
  rewrite (GET_one_run h k id i env' _ Hc Hid).
  destruct Hrem as (_ & -> & _). by rewrite lookup_delete_eq.
Qed.

Lemma delete_then_read_witness :
  statusOf (DELETE Student Sample.idJohn (Sample.up 300 Sample.idNew)
              Sample.twoStudents).1 = Some 200 ∧
  ∃ i d, castObjectId Sample.idJohn = Some i ∧
         removed Student i d Sample.twoStudents
           (DELETE Student Sample.idJohn (Sample.up 300 Sample.idNew)
              Sample.twoStudents).2 ∧
         (GET_one Student Sample.idJohn (Sample.up 400 Sample.idNew)
            (DELETE Student Sample.idJohn (Sample.up 300 Sample.idNew)
               Sample.twoStudents).2).1
         = Return (jsonStatus (ErrorMessage (Noun Student ++ " not found")) 404).
Proof.
  split; [vm_compute; reflexivity|].
  apply (delete_then_read Student Sample.idJohn (Sample.up 300 Sample.idNew)
           Sample.twoStudents (Sample.up 400 Sample.idNew)).
  vm_compute; reflexivity.
Defined.

End Composition.

(* ===================================================================== *)
(** ** Connection attempts, request by request *)
(* ===================================================================== *)

Section Attempts.

Lemma tryCatch_bind_run {A B} (m : M A) (f : A → M B) (h : Error → M B) w :
  tryCatch (m ≫= f) h w =
  match m w with
  | (Return a, w1) => tryCatch (f a) h w1
  | (Throw e, w1) => h e w1
  end.
Proof. unfold tryCatch, mbind, M_bind. by destruct (m w) as [[a|e] w1]. Qed.

Ltac keep_connection :=
  repeat first
    [ apply exec_sameConnection | apply save_sameConnection
    | apply findById_sameConnection | apply findByIdAndUpdate_sameConnection
    | apply findByIdAndUpdateWith_sameConnection
    | apply findByIdAndDelete_sameConnection | preserve_step ].

(** What follows [connectToDatabase] in a handler leaves the cache alone
    and attempts no connection. *)
Lemma after_connect {A B} (f : A → M B) (h : Error → M B) (m : M A) w :
  (∀ a, preserves sameConnection (tryCatch (f a) h)) →
  (∀ e, preserves sameConnection (h e)) →
  sameConnection (m w).2 (tryCatch (m ≫= f) h w).2.
Proof.
  intros Hf Hh. rewrite tryCatch_bind_run.
  destruct (m w) as [[a|e] w1]; simpl; [apply Hf | apply Hh].
Qed.

Lemma handle_after_connect r env w :
  reachesConnect r = true →
  sameConnection (connectToDatabase env w).2 (handle r env w).2.
Proof.
  destruct r as [k|k request|k id|k id request|k id body|k id|q]; simpl; intros Hr.
  - unfold GET_all. apply after_connect; intros; keep_connection.
  - unfold POST. apply after_connect; intros; unfold request_json; keep_connection.
  - unfold GET_one. apply after_connect; intros; keep_connection.
  - unfold PUT. apply after_connect; intros; unfold request_json; keep_connection.
  - unfold PUT_with. apply after_connect; intros; keep_connection.
  - unfold DELETE. apply after_connect; intros; keep_connection.
  - unfold GET_search, trimmedQuery, blank in *.
    destruct q as [s|]; simpl in *; [|done].
    destruct (JS.trim s) as [|c t] eqn:Ht; simpl in *; [done|].
    apply after_connect; intros; unfold newRegExp; keep_connection.
Qed.

Lemma connect_counts env w :
  connects (trace (connectToDatabase env w).2)
  = connects (trace w) + (if idle w then 1 else 0).
Proof.
  unfold idle. destruct (conn (cached w)) as [h|] eqn:Hc; simpl.
  { rewrite (connect_cached env w h Hc). simpl. lia. }
  destruct (awaited env w) as [h|reason] eqn:Ha.
  - destruct (connect_resolves env w h Hc Ha) as (w1 & Hrun & _ & _ & _ & Ht).
    rewrite Hrun. simpl. rewrite Ht.
    unfold pending. destruct (promise (cached w)); simpl; lia.
  - destruct (connect_rejects env w reason Hc Ha) as (w1 & Hrun & _ & _ & _ & Ht).
    rewrite Hrun. simpl. rewrite Ht.
    unfold pending. destruct (promise (cached w)); simpl; lia.
Qed.

(** X8.  A request calls [mongoose.connect] exactly when it reaches
    [connectToDatabase] (every request but a search with a blank query)
    while nothing is cached and nothing is pending, and then once. *)
Theorem one_attempt_when_idle r env w :
  connects (trace (handle r env w).2)
  = connects (trace w) + (if reachesConnect r && idle w then 1 else 0).
Proof.
  destruct (reachesConnect r) eqn:Hr; simpl.
  - destruct (handle_after_connect r env w Hr) as [_ ->]. apply connect_counts.
  - destruct r as [| | | | | |q]; try done. simpl in *.
    unfold GET_search, trimmedQuery, blank in *. unfold_monad.
    destruct q as [s|]; simpl in *; [|lia].
    apply negb_false_iff in Hr. rewrite Hr. simpl. lia.
Qed.

(** X9.  Single flight: while an attempt is pending and no handle is
    cached, a call awaits that attempt and starts none of its own; what it
    returns or throws is what the pending attempt settles to, whatever a
    new attempt would have given. *)
Theorem pending_attempt_is_shared env w p :
  conn (cached w) = None →
  promise (cached w) = Some p →
  (connectToDatabase env w).1
    = match p with
      | Resolves h => Return h
      | Rejects reason => Throw (ConnectionError reason)
      end ∧
  trace (connectToDatabase env w).2 = trace w.
Proof.
  intros Hc Hp.
  assert (Ha : awaited env w = p) by (unfold awaited; by rewrite Hp).
  destruct p as [h|reason].
  - destruct (connect_resolves env w h Hc Ha) as (w1 & Hrun & _ & _ & _ & Ht).
    rewrite Hrun. simpl. rewrite Ht. unfold pending. by rewrite Hp.
  - destruct (connect_rejects env w reason Hc Ha) as (w1 & Hrun & _ & _ & _ & Ht).
    rewrite Hrun. simpl. rewrite Ht. unfold pending. by rewrite Hp.
Qed.

Lemma pending_attempt_is_shared_witness :
  conn (cached (mkWorld (mkCache None (Some (Resolves 3))) ∅ ∅ [EvConnect])) = None ∧
  promise (cached (mkWorld (mkCache None (Some (Resolves 3))) ∅ ∅ [EvConnect]))
    = Some (Resolves 3) ∧
  (connectToDatabase (Sample.down 0 Sample.idNew)
     (mkWorld (mkCache None (Some (Resolves 3))) ∅ ∅ [EvConnect])).1 = Return 3 ∧
  trace (connectToDatabase (Sample.down 0 Sample.idNew)
           (mkWorld (mkCache None (Some (Resolves 3))) ∅ ∅ [EvConnect])).2
    = [EvConnect].
Proof.
  split; [reflexivity|]. split; [reflexivity|].
  apply (pending_attempt_is_shared (Sample.down 0 Sample.idNew)
           (mkWorld (mkCache None (Some (Resolves 3))) ∅ ∅ [EvConnect])
           (Resolves 3)); reflexivity.
Defined.

(** After a request that obtained the connection, the handle is cached. *)
Lemma cached_after r env w :
  connected env w = true → reachesConnect r = true →
  ∃ h, conn (cached (handle r env w).2) = Some h.
Proof.
  intros Hcon Hr.
  destruct (connected_run_cached env w Hcon) as (h & w1 & Hrun & Hc & _).
  destruct (handle_after_connect r env w Hr) as [-> _].
  rewrite Hrun. simpl. by exists h.
Qed.

Lemma connected_cached env w h : conn (cached w) = Some h → connected env w = true.
Proof. intros Hc. unfold connected. by rewrite (connect_cached env w h Hc). Qed.

(** X10.  Delete is idempotent in effect: after a delete that reached the
    store, a second delete of the same well-formed id is answered 404 and
    changes nothing. *)
Theorem second_delete_finds_nothing k id i env w env' :
  connected env w = true →
  castObjectId id = Some i →
  statusOf (DELETE k id env' (DELETE k id env w).2).1 = Some 404 ∧
  students (DELETE k id env' (DELETE k id env w).2).2
    = students (DELETE k id env w).2 ∧
  instructors (DELETE k id env' (DELETE k id env w).2).2
    = instructors (DELETE k id env w).2.
Proof.
  intros Hcon Hid.
  destruct (cached_after (Remove k id) env w Hcon eq_refl) as [h Hc]. simpl in Hc.
  assert (Hgone : collection k (DELETE k id env w).2 !! i = None).
  { pose proof (DELETE_outcome k id env w) as Hout. rewrite Hid, Hcon in Hout.
    destruct (collection k w !! i) as [d|] eqn:Hd.
    - destruct Hout as (_ & (_ & -> & _) & _). apply lookup_delete_eq.
    - destruct Hout as [[Hs Hi] _]. destruct k; simpl in *; congruence. }
  pose proof (connected_cached env' _ h Hc) as Hcon'.
  split.
  - pose proof (status_Remove k id env' (DELETE k id env w).2) as Hst.
    simpl in Hst. rewrite Hst. unfold routePrediction, diagnose, lookupFailure.
    by rewrite Hcon', Hid, Hgone.
  - pose proof (DELETE_outcome k id env' (DELETE k id env w).2) as Hout.
    rewrite Hid, Hgone in Hout. by destruct Hout as [Hsame _].
Qed.

Lemma second_delete_finds_nothing_witness :
  connected (Sample.up 300 Sample.idNew) Sample.twoStudents = true ∧
  castObjectId Sample.idJohn = Some Sample.idJohn ∧
  statusOf (DELETE Student Sample.idJohn (Sample.up 400 Sample.idNew)
              (DELETE Student Sample.idJohn (Sample.up 300 Sample.idNew)
                 Sample.twoStudents).2).1 = Some 404 ∧
  students (DELETE Student Sample.idJohn (Sample.up 400 Sample.idNew)
              (DELETE Student Sample.idJohn (Sample.up 300 Sample.idNew)
                 Sample.twoStudents).2).2
    = students (DELETE Student Sample.idJohn (Sample.up 300 Sample.idNew)
                  Sample.twoStudents).2 ∧
  instructors (DELETE Student Sample.idJohn (Sample.up 400 Sample.idNew)
              (DELETE Student Sample.idJohn (Sample.up 300 Sample.idNew)
                 Sample.twoStudents).2).2
    = instructors (DELETE Student Sample.idJohn (Sample.up 300 Sample.idNew)
                  Sample.twoStudents).2.
Proof.
  split; [reflexivity|]. split; [reflexivity|].
  apply (second_delete_finds_nothing Student Sample.idJohn Sample.idJohn
           (Sample.up 300 Sample.idNew) Sample.twoStudents (Sample.up 400 Sample.idNew));
    reflexivity.
Defined.

End Attempts.

(* ===================================================================== *)
(** ** Update, in general *)
(* ===================================================================== *)

Section Updating.

Lemma setValue_string_Some p v a :
  setValue (castStringPath p) (validateStringPath p) v = Some a →
  ∃ x s, v = Some x ∧ castString x = Casted (Some s) ∧ a = applySetters p s ∧
         validateStringPath p (Some a) = true.
Proof.
  unfold setValue, castStringPath. destruct v as [x|]; [|done].
  destruct (castString x) as [[s|]|] eqn:Hc; try done.
  destruct (validateStringPath p (Some (applySetters p s))) eqn:Hv; [|done].
  intros [= <-]. by exists x, s.
Qed.

Lemma setValue_number_Some p v a :
  setValue castNumber (validateNumberPath p) v = Some a →
  ∃ x, v = Some x ∧ castNumber x = Casted (Some a) ∧
       validateNumberPath p (Some a) = true.
Proof.
  unfold setValue. destruct v as [x|]; [|done].
  destruct (castNumber x) as [[n|]|] eqn:Hc; try done.
  destruct (validateNumberPath p (Some n)) eqn:Hv; [|done].
  intros [= <-]. by exists x.
Qed.

Lemma settable_Some {A} (cast : JS.Value → Cast (option A)) valid x :
  settable cast valid (Some x) = true → ∃ a, setValue cast valid (Some x) = Some a.
Proof. unfold settable. destruct (setValue cast valid (Some x)) as [a|]; [eauto|done]. Qed.

(** What the document left by a valid update holds: the fields the body
    does not mention keep their value, those it gives are stored as the
    setters leave them. *)
Lemma updatedDoc_fields env k b d :
  validUpdate k b = true →
  _id (updatedDoc env k b d) = _id d ∧
  createdAt (updatedDoc env k b d) = createdAt d ∧
  updatedAt (updatedDoc env k b d) = now env ∧
  (bName b = None → name (updatedDoc env k b d) = name d) ∧
  (bAge b = None → age (updatedDoc env k b d) = age d) ∧
  (bEmail b = None → email (updatedDoc env k b d) = email d) ∧
  (∀ s, bName b = Some (JS.VStr s) → name (updatedDoc env k b d) = JS.trim s) ∧
  (∀ n, bAge b = Some (JS.VNum n) → age (updatedDoc env k b d) = n) ∧
  (∀ s, bEmail b = Some (JS.VStr s) →
        email (updatedDoc env k b d) = JS.toLowerCase (JS.trim s)).
Proof.
  intros Hvalid. unfold validUpdate in Hvalid.
  apply andb_true_iff in Hvalid as [Hvalid He].
  apply andb_true_iff in Hvalid as [Hn Ha].
  unfold updatedDoc, applyUpdate. simpl.
  split_and!; try done.
  - by destruct k.
  - by intros ->.
  - by intros ->.
  - by intros ->.
  - intros s Hs. rewrite Hs in Hn |- *.
    apply settable_Some in Hn as [a Hset]. rewrite Hset. simpl.
    apply setValue_string_Some in Hset as (x & s' & [= <-] & [= <-] & -> & _).
    by destruct k.
  - intros n Hb. rewrite Hb in Ha |- *.
    apply settable_Some in Ha as [a Hset]. rewrite Hset. simpl.
    apply setValue_number_Some in Hset as (x & [= <-] & Hcast & _).
    simpl in Hcast. by destruct (JS.isNaN n); [|injection Hcast as ->].
  - intros s Hs. rewrite Hs in He |- *.
    apply settable_Some in He as [a Hset]. rewrite Hset. simpl.
    apply setValue_string_Some in Hset as (x & s' & [= <-] & [= <-] & -> & Hv).
    destruct k; [done|]. simpl in *.
    pose proof (validated_email_noWhiteSpace Instructor _ Hv) as Hws.
    simpl in Hws. rewrite noWhiteSpace_toLowerCase in Hws.
    by rewrite (trim_noWhiteSpace s Hws).
Qed.

(** X11.  An update, whatever its body and its outcome, neither adds nor
    removes a document, never changes the id of one, and leaves every
    document but the one addressed exactly as it is.  When the body is an
    object of plain [name], [age], [email] fields (or [null], or one
    Mongoose refuses), the creation time and the version of the addressed
    document stay as well; a body such as [{ "__v": 5 }] does change the
    version. *)
Theorem update_keeps_identity r k id env w k' j :
  updateTarget r = Some (k, id) →
  match collection k' w !! j, collection k' (handle r env w).2 !! j with
  | Some d, Some d' =>
      _id d' = _id d ∧
      (plain r = true → createdAt d' = createdAt d ∧ __v d' = __v d) ∧
      ((k' ≠ k ∨ castObjectId id ≠ Some j) → d' = d)
  | None, None => True
  | _, _ => False
  end.
Proof.
  intros Htarget.
  apply (handle_inv (fun w' =>
    match collection k' w !! j, collection k' w' !! j with
    | Some d, Some d' =>
        _id d' = _id d ∧
        (plain r = true → createdAt d' = createdAt d ∧ __v d' = __v d) ∧
        ((k' ≠ k ∨ castObjectId id ≠ Some j) → d' = d)
    | None, None => True
    | _, _ => False
    end)).
  - intros w' Hsame. rewrite (collection_same k' w w' Hsame).
    by destruct (collection k' w !! j).
  - intros k0 b doc w' -> _ _ _. discriminate Htarget.
  - intros k0 id0 i b d w' -> Hid Hvalid _ (Hd & Hk & Hother).
    injection Htarget as -> ->.
    destruct (updatedDoc_fields env k b d Hvalid) as (Hi1 & Hi2 & _).
    destruct (decide (k' = k ∧ j = i)) as [[-> ->]|Hne].
    + rewrite Hd, Hk, lookup_insert_eq. split_and!; try done.
      intros [?|?]; done.
    + assert (Hc : collection k' w' !! j = collection k' w !! j).
      { destruct (decide (k' = k)) as [->|Hk'].
        - rewrite Hk. apply lookup_insert_ne. intros ->. by apply Hne.
        - by rewrite (Hother k' Hk'). }
      rewrite Hc. by destruct (collection k' w !! j).
  - intros k0 id0 i f d x w' -> Hid Hf _ (Hd & Hk & Hother).
    injection Htarget as -> ->.
    destruct (decide (k' = k ∧ j = i)) as [[-> ->]|Hne].
    + rewrite Hd, Hk, lookup_insert_eq. split_and!; try done.
      intros [?|?]; done.
    + assert (Hc : collection k' w' !! j = collection k' w !! j).
      { destruct (decide (k' = k)) as [->|Hk'].
        - rewrite Hk. apply lookup_insert_ne. intros ->. by apply Hne.
        - by rewrite (Hother k' Hk'). }
      rewrite Hc. by destruct (collection k' w !! j).
  - intros k0 id0 i d w' -> _ _. discriminate Htarget.
Qed.

Lemma update_keeps_identity_witness :
  updateTarget (UpdateWith Student Sample.idJohn (Modify (Sample.setVersion 5)))
    = Some (Student, Sample.idJohn) ∧
  match collection Student Sample.twoStudents !! Sample.idJohn,
        collection Student
          (handle (UpdateWith Student Sample.idJohn (Modify (Sample.setVersion 5)))
             (Sample.up 300 Sample.idNew) Sample.twoStudents).2 !! Sample.idJohn with
  | Some d, Some d' =>
      _id d' = _id d ∧
      (plain (UpdateWith Student Sample.idJohn (Modify (Sample.setVersion 5))) = true →
       createdAt d' = createdAt d ∧ __v d' = __v d) ∧
      ((Student ≠ Student ∨ castObjectId Sample.idJohn ≠ Some Sample.idJohn) → d' = d)
  | None, None => True
  | _, _ => False
  end.
Proof.
  split; [reflexivity|].
  apply (update_keeps_identity
           (UpdateWith Student Sample.idJohn (Modify (Sample.setVersion 5)))
           Student Sample.idJohn (Sample.up 300 Sample.idNew) Sample.twoStudents
           Student Sample.idJohn).
  reflexivity.
Defined.

(** The version of John after the body [{ "__v": 5 }]. *)
Example version_can_be_set :
  __v <$> students
    (handle (UpdateWith Student Sample.idJohn (Modify (Sample.setVersion 5)))
       (Sample.up 300 Sample.idNew) Sample.twoStudents).2 !! Sample.idJohn = Some 5%Z.
Proof. vm_compute. reflexivity. Qed.

(** X12.  An update whose body is an object of plain [name], [age],
    [email] fields, when answered 200, returns the stored document as it now
    is: the fields the body does not mention keep their value, a name given
    as a string is stored trimmed, an email given as a string trimmed and in
    lower case, an age given as a number as it is, and [updatedAt] is the
    time of the request.  (The body [null] is no such object: it is answered
    as a read is.) *)
Theorem update_sets_what_is_sent k id b env w :
  statusOf (PUT k id (Some b) env w).1 = Some 200 →
  ∃ i d d', castObjectId id = Some i ∧
    collection k w !! i = Some d ∧
    collection k (PUT k id (Some b) env w).2 !! i = Some d' ∧
    (PUT k id (Some b) env w).1 = Return (json (OneDoc (toObject d'))) ∧
    updatedAt d' = now env ∧
    (bName b = None → name d' = name d) ∧
    (bAge b = None → age d' = age d) ∧
    (bEmail b = None → email d' = email d) ∧
    (∀ s, bName b = Some (JS.VStr s) → name d' = JS.trim s) ∧
    (∀ n, bAge b = Some (JS.VNum n) → age d' = n) ∧
    (∀ s, bEmail b = Some (JS.VStr s) → email d' = JS.toLowerCase (JS.trim s)).
Proof.
  intros Hst. pose proof (PUT_outcome k id (Some b) env w) as Hout.
  assert (Hno : ¬ refused w (PUT k id (Some b) env w)).
  { intros [_ (msg & st & Hres & Hge)]. rewrite Hres in Hst. simpl in Hst.
    injection Hst as ->. lia. }
  destruct (castObjectId id) as [i|] eqn:Hid; [|done].
  destruct (collection k w !! i) as [d|] eqn:Hd; [|done].
  destruct (updateGoesThrough k i b d env w) eqn:Hgo; [|done].
  destruct Hout as (Hres & (_ & Hk & _) & _).
  apply andb_true_iff in Hgo as [Hgo _]. apply andb_true_iff in Hgo as [_ Hvalid].
  destruct (updatedDoc_fields env k b d Hvalid)
    as (_ & _ & ? & ? & ? & ? & ? & ? & ?).
  exists i, d, (updatedDoc env k b d). split_and!; try done.
  rewrite Hk. apply lookup_insert_eq.
Qed.

Lemma update_sets_what_is_sent_witness :
  statusOf (PUT Student Sample.idJohn
              (Some (mkBody (Some (JS.VStr " Jon ")) None (Some (JS.VStr " Jon@X.com "))))
              (Sample.up 300 Sample.idNew) Sample.twoStudents).1 = Some 200 ∧
  ∃ i d d', castObjectId Sample.idJohn = Some i ∧
    collection Student Sample.twoStudents !! i = Some d ∧
    collection Student
      (PUT Student Sample.idJohn
         (Some (mkBody (Some (JS.VStr " Jon ")) None (Some (JS.VStr " Jon@X.com "))))
         (Sample.up 300 Sample.idNew) Sample.twoStudents).2 !! i = Some d' ∧
    (PUT Student Sample.idJohn
       (Some (mkBody (Some (JS.VStr " Jon ")) None (Some (JS.VStr " Jon@X.com "))))
       (Sample.up 300 Sample.idNew) Sample.twoStudents).1
      = Return (json (OneDoc (toObject d'))) ∧
    updatedAt d' = 300%Z ∧
    (Some (JS.VStr " Jon ") = None → name d' = name d) ∧
    (@None JS.Value = None → age d' = age d) ∧
    (Some (JS.VStr " Jon@X.com ") = None → email d' = email d) ∧
    (∀ s, Some (JS.VStr " Jon ") = Some (JS.VStr s) → name d' = JS.trim s) ∧
    (∀ n, @None JS.Value = Some (JS.VNum n) → age d' = n) ∧
    (∀ s, Some (JS.VStr " Jon@X.com ") = Some (JS.VStr s) →
          email d' = JS.toLowerCase (JS.trim s)).
Proof.
  split; [vm_compute; reflexivity|].
  apply (update_sets_what_is_sent Student Sample.idJohn
           (mkBody (Some (JS.VStr " Jon ")) None (Some (JS.VStr " Jon@X.com ")))
           (Sample.up 300 Sample.idNew) Sample.twoStudents).
  vm_compute; reflexivity.
Defined.

(** X13.  One request, one change at most: a request leaves both
    collections as they were, or adds the one document a valid create
    describes under the fresh id, or replaces the document an update
    addresses by one with the same id (for a body of plain fields: by what
    the valid update makes of it), or removes one stored document. *)
Theorem one_change_per_request r env w :
  sameCollections w (handle r env w).2 ∨
  (∃ k b doc, r = Create k (Some b) ∧ draftDoc env k b = Some doc ∧
              inserted k (freshId env) doc w (handle r env w).2) ∨
  (∃ k id i d d', updateTarget r = Some (k, id) ∧ castObjectId id = Some i ∧
                  replaced k i d d' w (handle r env w).2 ∧ _id d' = _id d ∧
                  ∀ b, r = Update k id (Some b) →
                       validUpdate k b = true ∧ d' = updatedDoc env k b d) ∨
  (∃ k id i d, r = Remove k id ∧ castObjectId id = Some i ∧
               removed k i d w (handle r env w).2).
Proof.
  apply (handle_inv (fun w' =>
    sameCollections w w' ∨
    (∃ k b doc, r = Create k (Some b) ∧ draftDoc env k b = Some doc ∧
                inserted k (freshId env) doc w w') ∨
    (∃ k id i d d', updateTarget r = Some (k, id) ∧ castObjectId id = Some i ∧
                    replaced k i d d' w w' ∧ _id d' = _id d ∧
                    ∀ b, r = Update k id (Some b) →
                         validUpdate k b = true ∧ d' = updatedDoc env k b d) ∨
    (∃ k id i d, r = Remove k id ∧ castObjectId id = Some i ∧ removed k i d w w'))).
  - intros w' Hsame. by left.
  - intros k b doc w' -> Hdoc _ Hins. right. left. by exists k, b, doc.
  - intros k id i b d w' -> Hid Hvalid _ Hrep. right. right. left.
    exists k, id, i, d, (updatedDoc env k b d). split_and!; try done.
    by intros b' [= <-].
  - intros k id i f d x w' -> Hid Hf _ Hrep. right. right. left.
    exists k, id, i, d, (replaceWith (schemaOf k) (now env) d x). by split_and!.
  - intros k id i d w' -> Hid Hrem. right. right. right. by exists k, id, i, d.
Qed.

(** X25.  A PUT whose body is the JSON value [null] changes nothing, not
    even [updatedAt]: with a connection and a well-formed id it is answered
    as a read is, 200 with the stored document as it was or 404. *)
Theorem null_body_is_a_read k id i env w :
  connected env w = true → castObjectId id = Some i →
  sameCollections w (handle (UpdateWith k id JsonNull) env w).2 ∧
  (handle (UpdateWith k id JsonNull) env w).1
  = Return (match collection k w !! i with
            | Some d => json (OneDoc (toObject d))
            | None => jsonStatus (ErrorMessage (Noun k ++ " not found")) 404
            end).
Proof.
  intros Hcon Hid.
  split; [by apply (PUT_plain_sameCollections k id JsonNull)|].
  simpl. unfold PUT_with, findByIdAndUpdateWith, findById.
  destruct (connected_run_cached env w Hcon) as (h & w1 & Hrun & Hc & Hs & Hi).
  unfold_monad. rewrite Hrun. simpl. rewrite Hid. simpl.
  destruct k; simpl; [rewrite Hs; destruct (students w !! i)
                     | rewrite Hi; destruct (instructors w !! i)]; done.
Qed.

Lemma null_body_is_a_read_witness :
  connected (Sample.up 300 Sample.idNew) Sample.twoStudents = true ∧
  castObjectId Sample.idJohn = Some Sample.idJohn ∧
  sameCollections Sample.twoStudents
    (handle (UpdateWith Student Sample.idJohn JsonNull)
            (Sample.up 300 Sample.idNew) Sample.twoStudents).2 ∧
  (handle (UpdateWith Student Sample.idJohn JsonNull)
          (Sample.up 300 Sample.idNew) Sample.twoStudents).1
  = Return (match collection Student Sample.twoStudents !! Sample.idJohn with
            | Some d => json (OneDoc (toObject d))
            | None => jsonStatus (ErrorMessage (Noun Student ++ " not found")) 404
            end).
Proof.
  split; [vm_compute; reflexivity|]. split; [vm_compute; reflexivity|].
  apply (null_body_is_a_read Student Sample.idJohn Sample.idJohn
           (Sample.up 300 Sample.idNew) Sample.twoStudents);
    vm_compute; reflexivity.
Defined.

End Updating.

(* ===================================================================== *)
(** ** What holds of every stored document *)
(* ===================================================================== *)

Section Stored.

(** Looking a document up after one document was written or removed. *)
Lemma lookup_written k i d w w' k' j x :
  collection k w' = <[i:=d]> (collection k w) →
  (∀ k', k' ≠ k → collection k' w' = collection k' w) →
  collection k' w' !! j = Some x →
  (k' = k ∧ j = i ∧ x = d) ∨ collection k' w !! j = Some x.
Proof.
  intros Hk Hother Hx.
  destruct (decide (k' = k)) as [->|Hne]; [|right; by rewrite <- (Hother k' Hne)].
  rewrite Hk in Hx. apply lookup_insert_Some in Hx as [[<- <-]|[_ Hx]]; auto.
Qed.

Lemma lookup_removed k i w w' k' j x :
  collection k w' = delete i (collection k w) →
  (∀ k', k' ≠ k → collection k' w' = collection k' w) →
  collection k' w' !! j = Some x →
  collection k' w !! j = Some x.
Proof.
  intros Hk Hother Hx.
  destruct (decide (k' = k)) as [->|Hne]; [|by rewrite <- (Hother k' Hne)].
  rewrite Hk in Hx. by apply lookup_delete_Some in Hx as [_ Hx].
Qed.

Lemma updatedDoc_valid env k b i d :
  validDoc i d → validUpdate k b = true → validDoc i (updatedDoc env k b d).
Proof.
  intros (Hid & Hne & Htrim & Hage) Hvalid. unfold validUpdate in Hvalid.
  apply andb_true_iff in Hvalid as [Hvalid _].
  apply andb_true_iff in Hvalid as [Hn Ha].
  unfold validDoc, updatedDoc, applyUpdate. simpl.
  split; [done|].
  assert (Hname : ∀ o, o = setValue (castStringPath (pName (schemaOf k)))
                             (validateStringPath (pName (schemaOf k))) (bName b) →
            default (name d) o ≠ "" ∧ JS.trim (default (name d) o) = default (name d) o).
  { intros [a|] Ho; simpl; [|done]. symmetry in Ho.
    apply setValue_string_Some in Ho as (x & s & _ & _ & -> & Hv). split.
    - intros Hempty. rewrite Hempty in Hv. by destruct k.
    - destruct k; simpl; apply trim_idem. }
  destruct (Hname _ eq_refl) as [? ?]. split_and!; try done.
  destruct (setValue castNumber _ (bAge b)) as [a|] eqn:Hset; simpl; [|done].
  apply setValue_number_Some in Hset as (x & _ & _ & Hv).
  unfold validateNumberPath in Hv. by destruct k.
Qed.

Lemma handle_storeValid r env w :
  plain r = true → storeValid w → storeValid (handle r env w).2.
Proof.
  intros Hplain Hv. apply (handle_inv storeValid).
  - intros w' Hsame k' j x. rewrite (collection_same k' w w' Hsame). apply Hv.
  - intros k' b doc w' _ Hdoc _ (_ & Hk & Hother) k'' j x Hx.
    destruct (lookup_written _ _ _ _ _ _ _ _ Hk Hother Hx) as [(-> & -> & ->)|Hold];
      [|by eapply Hv].
    destruct (draftDoc_fields env k' b doc Hdoc) as (? & _ & _ & _ & _ & _ & ? & ? & ?).
    done.
  - intros k' id j' b x w' _ _ Hvalid _ (Hx & Hk & Hother) k'' j y Hy.
    destruct (lookup_written _ _ _ _ _ _ _ _ Hk Hother Hy) as [(-> & -> & ->)|Hold];
      [|by eapply Hv].
    apply updatedDoc_valid; [by eapply Hv | done].
  - intros k' id j' f x y w' ->. discriminate Hplain.
  - intros k' id j' x w' _ _ (_ & Hk & Hother) k'' j y Hy.
    eapply Hv. by eapply lookup_removed.
Qed.

Lemma serve_storeValid rs w : plainRequests rs → storeValid w → storeValid (serve rs w).
Proof.
  revert w. induction rs as [|[r env] rs IH]; intros w Hplain Hv; simpl; [done|].
  apply Forall_cons in Hplain as [Hr Hrs]. by apply IH, handle_storeValid.
Qed.

Lemma initial_storeValid : storeValid initial.
Proof. intros k j x Hx. destruct k; simpl in Hx; by rewrite lookup_empty in Hx. Qed.

Lemma serve_storeInv rs w : plainRequests rs → storeInv w → storeInv (serve rs w).
Proof.
  revert w. induction rs as [|[r env] rs IH]; intros w Hplain Hinv; simpl; [done|].
  apply Forall_cons in Hplain as [Hr Hrs]. apply IH; [done|]. by apply handle_keepsInv.
Qed.

(** The unique index, write by write. *)
Lemma insert_keeps_unique k (c : gmap ObjectId Doc) i d :
  emailsUnique c →
  violatesUnique (schemaOf k) c i d = false →
  emailsUnique (<[i:=d]> c).
Proof.
  intros Hu Hviol. pose proof (violatesUnique_free k _ _ _ Hviol) as Hfree.
  intros j1 j2 d1 d2. rewrite !lookup_insert.
  repeat case_decide; subst.
  - done.
  - intros [= <-] H2 Heq. exfalso. by eapply (Hfree j2 d2).
  - intros H1 [= <-] Heq. exfalso. by eapply (Hfree j1 d1).
  - apply Hu.
Qed.

Lemma delete_keeps_unique (c : gmap ObjectId Doc) i :
  emailsUnique c → emailsUnique (delete i c).
Proof.
  intros Hu j1 j2 d1 d2 [_ H1]%lookup_delete_Some [_ H2]%lookup_delete_Some.
  by eapply Hu.
Qed.

Lemma written_uniqueEmails k i d w w' :
  uniqueEmails w →
  violatesUnique (schemaOf k) (collection k w) i d = false →
  collection k w' = <[i:=d]> (collection k w) →
  (∀ k', k' ≠ k → collection k' w' = collection k' w) →
  uniqueEmails w'.
Proof.
  intros Hu Hviol Hk Hother k'.
  destruct (decide (k' = k)) as [->|Hne].
  - rewrite Hk. by apply (insert_keeps_unique k).
  - rewrite (Hother k' Hne). apply Hu.
Qed.

Lemma handle_uniqueEmails r env w : uniqueEmails w → uniqueEmails (handle r env w).2.
Proof.
  intros Hu. apply (handle_inv uniqueEmails).
  - intros w' Hsame k. rewrite (collection_same k w w' Hsame). apply Hu.
  - intros k b doc w' _ _ Hviol (_ & Hk & Hother). by eapply written_uniqueEmails.
  - intros k id i b d w' _ _ _ Hviol (_ & Hk & Hother). by eapply written_uniqueEmails.
  - intros k id i f d x w' _ _ _ Hviol (_ & Hk & Hother). by eapply written_uniqueEmails.
  - intros k id i d w' _ _ (_ & Hk & Hother) k'.
    destruct (decide (k' = k)) as [->|Hne].
    + rewrite Hk. apply delete_keeps_unique, Hu.
    + rewrite (Hother k' Hne). apply Hu.
Qed.

Lemma serve_uniqueEmails rs w : uniqueEmails w → uniqueEmails (serve rs w).
Proof.
  revert w. induction rs as [|[r env] rs IH]; intros w Hu; simpl; [done|].
  by apply IH, handle_uniqueEmails.
Qed.

(** X14.  As long as no update is one the database applies as the client
    wrote it (operators, a [__v]: these pass no validator), every stored
    document is filed under its own id, has a name that is trimmed and not
    empty, and has an age of at least 1. *)
Theorem stored_documents_are_valid rs k i d :
  plainRequests rs →
  collection k (serve rs initial) !! i = Some d →
  _id d = i ∧ name d ≠ "" ∧ JS.trim (name d) = name d ∧ JS.geZ (age d) 1 = true.
Proof.
  intros Hplain Hd.
  exact (serve_storeValid rs initial Hplain initial_storeValid k i d Hd).
Qed.

Lemma stored_documents_are_valid_witness :
  plainRequests
    [(Create Student (Sample.fields " Zoe " (JS.VStr "7.5") "Zoe@x.com"),
      Sample.up 300 Sample.idNew)] ∧
  collection Student
    (serve [(Create Student (Sample.fields " Zoe " (JS.VStr "7.5") "Zoe@x.com"),
             Sample.up 300 Sample.idNew)] initial) !! Sample.idNew
  = Some (mkDoc Sample.idNew "Zoe" (JS.Dec 75 (-1)) "zoe@x.com" 300 300 0) ∧
  _id (mkDoc Sample.idNew "Zoe" (JS.Dec 75 (-1)) "zoe@x.com" 300 300 0) = Sample.idNew ∧
  name (mkDoc Sample.idNew "Zoe" (JS.Dec 75 (-1)) "zoe@x.com" 300 300 0) ≠ "" ∧
  JS.trim (name (mkDoc Sample.idNew "Zoe" (JS.Dec 75 (-1)) "zoe@x.com" 300 300 0))
    = name (mkDoc Sample.idNew "Zoe" (JS.Dec 75 (-1)) "zoe@x.com" 300 300 0) ∧
  JS.geZ (age (mkDoc Sample.idNew "Zoe" (JS.Dec 75 (-1)) "zoe@x.com" 300 300 0)) 1 = true.
Proof.
  split; [repeat constructor|]. split; [vm_compute; reflexivity|].
  apply (stored_documents_are_valid
           [(Create Student (Sample.fields " Zoe " (JS.VStr "7.5") "Zoe@x.com"),
             Sample.up 300 Sample.idNew)] Student Sample.idNew);
    [repeat constructor | vm_compute; reflexivity].
Defined.

(** Not so once an operator is sent: [{ "$mul": { "age": 0 } }] passes no
    validator and leaves John with the age 0. *)
Example operator_lowers_the_age :
  age <$> students
    (handle (UpdateWith Student Sample.idJohn (Modify Sample.mulAgeZero))
       (Sample.up 300 Sample.idNew) Sample.twoStudents).2 !! Sample.idJohn
  = Some (JS.Dec 0 0).
Proof. vm_compute. reflexivity. Qed.

(** X24.  No two stored entities of a kind ever share an email, whatever
    the requests: the unique index refuses the write.  And as long as no
    update is one the database applies as the client wrote it, every
    stored email is trimmed, in lower case and of the shape of the schema's
    pattern. *)
Theorem emails_unique_and_normal rs k :
  emailsUnique (collection k (serve rs initial)) ∧
  (plainRequests rs → emailsNormal (collection k (serve rs initial))).
Proof.
  split.
  - apply (serve_uniqueEmails rs initial).
    intros k'. destruct (initial_storeInv k') as [_ Hu]. exact Hu.
  - intros Hplain. by destruct (serve_storeInv rs initial Hplain initial_storeInv k).
Qed.

Lemma emails_unique_and_normal_witness :
  plainRequests
    [(Create Student (Sample.fields "Zoe" (Sample.num 7) " Zoe@X.com "),
      Sample.up 300 Sample.idNew)] ∧
  emailsUnique
    (collection Student
       (serve [(Create Student (Sample.fields "Zoe" (Sample.num 7) " Zoe@X.com "),
                Sample.up 300 Sample.idNew)] initial)) ∧
  emailsNormal
    (collection Student
       (serve [(Create Student (Sample.fields "Zoe" (Sample.num 7) " Zoe@X.com "),
                Sample.up 300 Sample.idNew)] initial)).
Proof.
  split; [repeat constructor|].
  destruct (emails_unique_and_normal
              [(Create Student (Sample.fields "Zoe" (Sample.num 7) " Zoe@X.com "),
                Sample.up 300 Sample.idNew)] Student) as [Hu Hn].
  split; [exact Hu | apply Hn; repeat constructor].
Defined.

(** C3, at the input on which the code fails it.  [PUT /api/students/<id>]
    with the body [{ "$max": { "email": "zzz" } }], sent for John among the
    two students, is answered 200 and leaves John with the email [zzz],
    which the schema's pattern does not match: [findByIdAndUpdate] is given
    the body as it is, and [runValidators] checks no [$max].  The same
    email in a body of plain fields is refused with 400. *)
Theorem operator_update_stores_any_email :
  statusOf (handle (UpdateWith Student Sample.idJohn (Modify (Sample.maxEmail "zzz")))
                   (Sample.up 300 Sample.idNew) Sample.twoStudents).1 = Some 200 ∧
  email <$> students
    (handle (UpdateWith Student Sample.idJohn (Modify (Sample.maxEmail "zzz")))
            (Sample.up 300 Sample.idNew) Sample.twoStudents).2 !! Sample.idJohn
  = Some "zzz" ∧
  ¬ emailNormal "zzz" ∧
  ¬ emailsNormal
      (students
         (handle (UpdateWith Student Sample.idJohn (Modify (Sample.maxEmail "zzz")))
                 (Sample.up 300 Sample.idNew) Sample.twoStudents).2) ∧
  statusOf (handle (Update Student Sample.idJohn
                      (Some (mkBody None None (Some (JS.VStr "zzz")))))
                   (Sample.up 300 Sample.idNew) Sample.twoStudents).1 = Some 400.
Proof.
  assert (Hbad : ¬ emailNormal "zzz").
  { intros (_ & _ & re & Hre & Htest). rewrite email_pattern_parses in Hre.
    injection Hre as <-. vm_compute in Htest. discriminate Htest. }
  split_and!; [vm_compute; reflexivity | vm_compute; reflexivity | exact Hbad | |
               vm_compute; reflexivity].
  intros Hall. apply Hbad.
  refine (Hall Sample.idJohn
            (mkDoc Sample.idJohn "John Doe" (JS.ofZ 20) "zzz" 100 300 0) _).
  vm_compute. reflexivity.
Qed.

End Stored.

(* ===================================================================== *)
(** ** Timestamps *)
(* ===================================================================== *)

Section Timestamps.

Lemma timesOrdered_step r env w t :
  timesOrdered t w → (t ≤ now env)%Z → timesOrdered (now env) (handle r env w).2.
Proof.
  intros Hw Ht. apply (handle_inv (timesOrdered (now env))).
  - intros w' Hsame k j x. rewrite (collection_same k w w' Hsame). intros Hx.
    destruct (Hw k j x Hx). lia.
  - intros k b doc w' _ Hdoc _ (_ & Hk & Hother) k' j x Hx.
    destruct (lookup_written _ _ _ _ _ _ _ _ Hk Hother Hx) as [(-> & -> & ->)|Hold].
    + destruct (draftDoc_fields env k b doc Hdoc) as (_ & -> & -> & _). lia.
    + destruct (Hw k' j x Hold). lia.
  - intros k id i b d w' _ _ _ _ (Hd & Hk & Hother) k' j x Hx.
    destruct (lookup_written _ _ _ _ _ _ _ _ Hk Hother Hx) as [(-> & -> & ->)|Hold].
    + destruct (Hw k i d Hd). unfold updatedDoc, applyUpdate. destruct k; simpl; lia.
    + destruct (Hw k' j x Hold). lia.
  - intros k id i f d y w' _ _ _ _ (Hd & Hk & Hother) k' j x Hx.
    destruct (lookup_written _ _ _ _ _ _ _ _ Hk Hother Hx) as [(-> & -> & ->)|Hold].
    + destruct (Hw k i d Hd). unfold replaceWith. destruct k; simpl; lia.
    + destruct (Hw k' j x Hold). lia.
  - intros k id i d w' _ _ (_ & Hk & Hother) k' j x Hx.
    destruct (Hw k' j x (lookup_removed _ _ _ _ _ _ _ Hk Hother Hx)). lia.
Qed.

(** X15.  When the clock does not go back from one request to the next,
    every stored document was created no later than it was last updated,
    and that no later than the last request served. *)
Theorem timestamps_are_ordered t rs k i d :
  clockFrom t rs →
  collection k (serve rs initial) !! i = Some d →
  (createdAt d ≤ updatedAt d)%Z ∧ (updatedAt d ≤ lastTime t rs)%Z.
Proof.
  assert (Hall : ∀ rs t w, timesOrdered t w → clockFrom t rs →
                           timesOrdered (lastTime t rs) (serve rs w)).
  { clear. induction rs as [|[r env] rs IH]; intros t w Hw Hclock; simpl; [done|].
    destruct Hclock as [Ht Hclock]. apply IH; [|done]. by apply timesOrdered_step with t. }
  intros Hclock. apply (Hall rs t initial); [|done].
  intros k' j x Hx. destruct k'; simpl in Hx; by rewrite lookup_empty in Hx.
Qed.

Lemma timestamps_are_ordered_witness :
  clockFrom 0
    [(Create Student (Sample.fields "Zoe" (Sample.num 7) "zoe@x.com"),
      Sample.up 300 Sample.idNew);
     (Update Student Sample.idNew (Sample.ageOnly (Sample.num 8)),
      Sample.up 400 Sample.idJohn)] ∧
  collection Student
    (serve [(Create Student (Sample.fields "Zoe" (Sample.num 7) "zoe@x.com"),
             Sample.up 300 Sample.idNew);
            (Update Student Sample.idNew (Sample.ageOnly (Sample.num 8)),
             Sample.up 400 Sample.idJohn)] initial) !! Sample.idNew
  = Some (mkDoc Sample.idNew "Zoe" (JS.ofZ 8) "zoe@x.com" 300 400 0) ∧
  (createdAt (mkDoc Sample.idNew "Zoe" (JS.ofZ 8) "zoe@x.com" 300 400 0)
   ≤ updatedAt (mkDoc Sample.idNew "Zoe" (JS.ofZ 8) "zoe@x.com" 300 400 0))%Z ∧
  (updatedAt (mkDoc Sample.idNew "Zoe" (JS.ofZ 8) "zoe@x.com" 300 400 0)
   ≤ lastTime 0
       [(Create Student (Sample.fields "Zoe" (Sample.num 7) "zoe@x.com"),
         Sample.up 300 Sample.idNew);
        (Update Student Sample.idNew (Sample.ageOnly (Sample.num 8)),
         Sample.up 400 Sample.idJohn)])%Z.
Proof.
  split; [simpl; lia|]. split; [vm_compute; reflexivity|].
  apply (timestamps_are_ordered 0
           [(Create Student (Sample.fields "Zoe" (Sample.num 7) "zoe@x.com"),
             Sample.up 300 Sample.idNew);
            (Update Student Sample.idNew (Sample.ageOnly (Sample.num 8)),
             Sample.up 400 Sample.idJohn)] Student Sample.idNew);
    [simpl; lia | vm_compute; reflexivity].
Defined.

End Timestamps.

(* ===================================================================== *)
(** ** The search, whatever the pattern *)
(* ===================================================================== *)

Section AnySearch.

(** X16.  Whatever the query (ordinary text or a pattern the engine
    accepts, answered or failed), the search lists at most 50 objects; they
    render stored students, in ascending order of name.  A query that is no
    valid pattern is answered 500 and lists nothing. *)
Theorem search_lists_at_most_fifty q env w :
  ∃ ds, found (GET_search q env w).1 = renderFound <$> ds ∧
        (length ds ≤ 50)%nat ∧
        Sorted (sortRel ByName true) ds ∧
        ∀ d, d ∈ ds → d ∈ documents (students w).
Proof.
  assert (Hnone : ∃ ds : list Doc, [] = renderFound <$> ds ∧ (length ds ≤ 50)%nat ∧
                    Sorted (sortRel ByName true) ds ∧
                    ∀ d, d ∈ ds → d ∈ documents (students w)).
  { exists []. split_and!; [done | simpl; lia | constructor | by intros d Hd%elem_of_nil]. }
  unfold GET_search, trimmedQuery, newRegExp.
  destruct q as [s|]; simpl; [|done].
  destruct (JS.isEmpty (JS.trim s) || (String.length (JS.trim s) <? 1)%nat); [done|].
  unfold tryCatch, mbind, M_bind.
  pose proof (connect_frame env w) as Hframe.
  destruct (connectToDatabase env w) as [[h|e] w1]; simpl; try done.
  destruct Hframe as (Hs & _).
  assert (Hfound : ∀ re,
    ∃ ds, found ((l ← exec (limit 50 (sort ByName true (select ["name"; "age"; "email"]
                       (find Student (nameOrEmail re)))));
                  mret (json (Docs l))) w1).1 = renderFound <$> ds ∧
          (length ds ≤ 50)%nat ∧
          Sorted (sortRel ByName true) ds ∧
          ∀ d, d ∈ ds → d ∈ documents (students w)).
  { intros re. unfold mbind, M_bind, mret, M_ret. simpl. rewrite Hs.
    set (R := sortRel ByName true).
    exists (take 50 (merge_sort R (List.filter (nameOrEmail re) (documents (students w))))).
    split_and!.
    - done.
    - rewrite length_take. lia.
    - apply Sorted_take, (Sorted_merge_sort R).
    - intros d Hd. apply subseteq_take in Hd. rewrite (merge_sort_Permutation R) in Hd.
      apply list_elem_of_In, filter_In in Hd as [Hd _]. by apply list_elem_of_In. }
  destruct (JS.RegExp_new (JS.trim s) true) as [re|]; simpl; [apply Hfound|].
  destruct (JS.malformed (JS.trim s)); simpl; [done|].
  destruct (engine env (JS.trim s)) as [test|]; simpl; [apply Hfound | done].
Qed.

(** The search for [jo|amy], a pattern, finds both students; the search
    for [(], which is no pattern, fails and is answered 500. *)
Example search_with_patterns :
  (GET_search (Some "jo|amy") (Sample.up 300 Sample.idNew) Sample.twoStudents).1
  = Return (json (Docs [renderFound Sample.amy; renderFound Sample.john])) ∧
  (GET_search (Some "(") (Sample.up 300 Sample.idNew) Sample.twoStudents).1
  = Return (jsonStatus (ErrorMessage "Failed to search students") 500).
Proof. split; vm_compute; reflexivity. Qed.

End AnySearch.

(* ===================================================================== *)
(** ** The form and the list *)
(* ===================================================================== *)

Section Form.

Lemma refusal_not_ok msg st : (400 ≤ st)%nat → ok (jsonStatus (ErrorMessage msg) st) = false.
Proof.
  intros Hge. unfold ok. simpl. apply andb_false_iff. right.
  apply Nat.leb_gt. lia.
Qed.

(** What [parseInt] gives: NaN or a whole number. *)
Lemma parseInt10_cases v : parseInt10 v = JS.NaN ∨ ∃ z, parseInt10 v = JS.Dec z 0.
Proof.
  unfold parseInt10. destruct (JS.readSign _) as [negative s1].
  destruct (JS.readDigits 10 s1 0 0) as [[z k] rest].
  destruct (k =? 0)%Z; eauto.
Qed.

(** X17.  A student added through the form has a whole age of at least 1,
    the number [parseInt] reads at the start of the age typed: when the
    submit succeeds, one student was stored, with that age. *)
Theorem form_stores_whole_ages f env w :
  saved (handleSubmit None f env w).1 = true →
  ∃ d z, inserted Student (freshId env) d w (handleSubmit None f env w).2 ∧
         parseInt10 (fAge f) = JS.Dec z 0 ∧ age d = JS.Dec z 0 ∧ (1 ≤ z)%Z.
Proof.
  unfold handleSubmit. simpl.
  destruct (POST_outcome Student (Some (submittedBody f)) env w)
    as [(b & doc & [= <-] & _ & Hmiss & Hdoc & _ & Hres & Hins & _)
       | [_ (msg & st & Hres & Hge)]].
  - destruct (POST Student (Some (submittedBody f)) env w) as [r w'].
    simpl in Hres, Hins. subst r. simpl. intros _.
    destruct (draftDoc_fields env Student _ doc Hdoc)
      as (_ & _ & _ & _ & _ & Hage & _ & _ & Hmin).
    unfold missingField in Hmiss. apply orb_false_iff in Hmiss as [Hmiss _].
    apply orb_false_iff in Hmiss as [_ Hmiss]. apply negb_false_iff in Hmiss.
    simpl in Hage, Hmiss.
    destruct (parseInt10_cases (fAge f)) as [Hnan | [z Hz]].
    + rewrite Hnan in Hmiss. discriminate Hmiss.
    + rewrite Hz in Hage. simpl in Hage. specialize (Hage _ eq_refl).
      exists doc, z. split_and!; try done.
      rewrite Hage in Hmin. unfold JS.geZ in Hmin. simpl in Hmin.
      apply Z.leb_le in Hmin. lia.
  - destruct (POST Student (Some (submittedBody f)) env w) as [r w'].
    simpl in Hres. subst r. rewrite (refusal_not_ok msg st Hge). simpl. discriminate.
Qed.

Lemma form_stores_whole_ages_witness :
  saved (handleSubmit None (Cases.formOf "Zoe" " 7.9 years" "zoe@x.com")
           (Sample.up 300 Sample.idNew) initial).1 = true ∧
  ∃ d z, inserted Student Sample.idNew d initial
           (handleSubmit None (Cases.formOf "Zoe" " 7.9 years" "zoe@x.com")
              (Sample.up 300 Sample.idNew) initial).2 ∧
         parseInt10 (JS.VStr " 7.9 years") = JS.Dec z 0 ∧ age d = JS.Dec z 0 ∧ (1 ≤ z)%Z.
Proof.
  split; [vm_compute; reflexivity|].
  apply (form_stores_whole_ages (Cases.formOf "Zoe" " 7.9 years" "zoe@x.com")
           (Sample.up 300 Sample.idNew) initial).
  vm_compute; reflexivity.
Defined.

End Form.

(* ===================================================================== *)
(** ** A number, written and read back *)
(* ===================================================================== *)

Section Digits.

Local Open Scope Z_scope.

Lemma usize_nb_digits u : DecimalPos.Unsigned.usize u = N.of_nat (Decimal.nb_digits u).
Proof. induction u; simpl; rewrite ?IHu; lia. Qed.

(** The value of a numeral, digit by digit, most significant first. *)
Lemma of_uint_cons (u : Decimal.uint) :
  match u with
  | Decimal.Nil => Pos.of_uint u = 0%N
  | Decimal.D0 v => Z.of_N (Pos.of_uint u) = 0 * 10 ^ Z.of_nat (Decimal.nb_digits v) + Z.of_N (Pos.of_uint v)
  | Decimal.D1 v => Z.of_N (Pos.of_uint u) = 1 * 10 ^ Z.of_nat (Decimal.nb_digits v) + Z.of_N (Pos.of_uint v)
  | Decimal.D2 v => Z.of_N (Pos.of_uint u) = 2 * 10 ^ Z.of_nat (Decimal.nb_digits v) + Z.of_N (Pos.of_uint v)
  | Decimal.D3 v => Z.of_N (Pos.of_uint u) = 3 * 10 ^ Z.of_nat (Decimal.nb_digits v) + Z.of_N (Pos.of_uint v)
  | Decimal.D4 v => Z.of_N (Pos.of_uint u) = 4 * 10 ^ Z.of_nat (Decimal.nb_digits v) + Z.of_N (Pos.of_uint v)
  | Decimal.D5 v => Z.of_N (Pos.of_uint u) = 5 * 10 ^ Z.of_nat (Decimal.nb_digits v) + Z.of_N (Pos.of_uint v)
  | Decimal.D6 v => Z.of_N (Pos.of_uint u) = 6 * 10 ^ Z.of_nat (Decimal.nb_digits v) + Z.of_N (Pos.of_uint v)
  | Decimal.D7 v => Z.of_N (Pos.of_uint u) = 7 * 10 ^ Z.of_nat (Decimal.nb_digits v) + Z.of_N (Pos.of_uint v)
  | Decimal.D8 v => Z.of_N (Pos.of_uint u) = 8 * 10 ^ Z.of_nat (Decimal.nb_digits v) + Z.of_N (Pos.of_uint v)
  | Decimal.D9 v => Z.of_N (Pos.of_uint u) = 9 * 10 ^ Z.of_nat (Decimal.nb_digits v) + Z.of_N (Pos.of_uint v)
  end.
Proof.
  destruct u as [|v|v|v|v|v|v|v|v|v|v]; [reflexivity|..].
  all: rewrite !DecimalPos.Unsigned.of_uint_alt; unfold Decimal.rev at 1; simpl Decimal.revapp.
  all: rewrite DecimalPos.Unsigned.of_lu_revapp, usize_nb_digits; fold (Decimal.rev v).
  all: simpl DecimalPos.Unsigned.of_lu.
  all: rewrite N2Z.inj_add, N2Z.inj_mul, N2Z.inj_pow, nat_N_Z; simpl Z.of_N; lia.
Qed.

Lemma of_uint_bounds u : 0 ≤ Z.of_N (Pos.of_uint u) < 10 ^ Z.of_nat (Decimal.nb_digits u).
Proof.
  induction u as [|v IH|v IH|v IH|v IH|v IH|v IH|v IH|v IH|v IH|v IH].
  { simpl. lia. }
  all: match goal with |- context [Pos.of_uint ?u] => pose proof (of_uint_cons u) as Hc end.
  all: cbv beta iota in Hc; rewrite Hc.
  all: replace (Z.of_nat (Decimal.nb_digits (_ v))) with (Z.succ (Z.of_nat (Decimal.nb_digits v)))
         by (simpl; lia).
  all: rewrite Z.pow_succ_r by lia; lia.
Qed.

(** Reading the digits of a numeral. *)
Lemma readDigits_uint u r acc c :
  JS.readDigits 10 (NilEmpty.string_of_uint u ++ r) acc c =
  JS.readDigits 10 r (acc * 10 ^ Z.of_nat (Decimal.nb_digits u) + Z.of_N (Pos.of_uint u))
                (c + Z.of_nat (Decimal.nb_digits u)).
Proof.
  revert acc c.
  induction u as [|v IH|v IH|v IH|v IH|v IH|v IH|v IH|v IH|v IH|v IH]; intros acc c.
  { simpl. f_equal; lia. }
  all: match goal with |- context [Pos.of_uint ?u] => pose proof (of_uint_cons u) as Hc end.
  all: cbv beta iota in Hc; rewrite Hc.
  all: cbn [NilEmpty.string_of_uint]; rewrite append_cons; cbn [JS.readDigits].
  all: change (JS.digitValue 10 _) with (Some 0) || change (JS.digitValue 10 _) with (Some 1)
       || change (JS.digitValue 10 _) with (Some 2) || change (JS.digitValue 10 _) with (Some 3)
       || change (JS.digitValue 10 _) with (Some 4) || change (JS.digitValue 10 _) with (Some 5)
       || change (JS.digitValue 10 _) with (Some 6) || change (JS.digitValue 10 _) with (Some 7)
       || change (JS.digitValue 10 _) with (Some 8) || change (JS.digitValue 10 _) with (Some 9).
  all: cbv beta iota; rewrite IH.
  all: replace (Z.of_nat (Decimal.nb_digits (_ v))) with (Z.succ (Z.of_nat (Decimal.nb_digits v)))
         by (simpl; lia).
  all: rewrite Z.pow_succ_r by lia; f_equal; lia.
Qed.

Lemma readDigits_zeros n acc c :
  JS.readDigits 10 (JS.zeros n) acc c = (acc * 10 ^ Z.of_nat n, c + Z.of_nat n, "").
Proof.
  revert acc c. induction n as [|n IH]; intros acc c.
  { simpl. f_equal; try f_equal; lia. }
  cbn [JS.zeros JS.readDigits]. change (JS.digitValue 10 "0") with (Some 0).
  cbv beta iota. rewrite IH. rewrite Nat2Z.inj_succ, Z.pow_succ_r by lia. f_equal; try f_equal; lia.
Qed.


(** The numeral of a positive number does not start with a zero, so the
    number is at least the power of ten its length gives. *)
Lemma to_uint_lower_bound (n : N) :
  (0 < n)%N →
  0 < Z.of_nat (Decimal.nb_digits (N.to_uint n)) ∧
  10 ^ (Z.of_nat (Decimal.nb_digits (N.to_uint n)) - 1) ≤ Z.of_N n.
Proof.
  intros Hn.
  pose proof (DecimalN.Unsigned.of_to n) as Hof.
  pose proof (DecimalN.Unsigned.to_of (N.to_uint n)) as Hto. rewrite Hof in Hto.
  change (N.of_uint (N.to_uint n)) with (Pos.of_uint (N.to_uint n)) in Hof.
  set (u := N.to_uint n) in *. clearbody u.
  unfold Decimal.unorm in Hto.
  pose proof (of_uint_cons u) as Hc. pose proof (nb_digits_nzhead u) as Hlen.
  destruct u as [|v|v|v|v|v|v|v|v|v|v].
  { rewrite Hc in Hof. lia. }
  { exfalso. simpl in Hto, Hlen.
    pose proof (nb_digits_nzhead v) as Hv.
    destruct (Decimal.nzhead v) eqn:Hnz.
    - injection Hto as ->. simpl in Hof. lia.
    - rewrite <- Hto in Hv. simpl in Hv. lia.
    - rewrite <- Hto in Hv. simpl in Hv. lia.
    - rewrite <- Hto in Hv. simpl in Hv. lia.
    - rewrite <- Hto in Hv. simpl in Hv. lia.
    - rewrite <- Hto in Hv. simpl in Hv. lia.
    - rewrite <- Hto in Hv. simpl in Hv. lia.
    - rewrite <- Hto in Hv. simpl in Hv. lia.
    - rewrite <- Hto in Hv. simpl in Hv. lia.
    - rewrite <- Hto in Hv. simpl in Hv. lia.
    - rewrite <- Hto in Hv. simpl in Hv. lia. }
  all: rewrite <- Hof, Hc.
  all: pose proof (of_uint_bounds v) as Hb.
  all: replace (Z.of_nat (Decimal.nb_digits (_ v)) - 1) with (Z.of_nat (Decimal.nb_digits v))
         by (simpl; lia).
  all: split; [simpl; lia | nia].
Qed.

Lemma dropTrailingZeros_spec fuel m e :
  0 < m →
  0 < (JS.dropTrailingZeros fuel m e).1 ∧ e ≤ (JS.dropTrailingZeros fuel m e).2 ∧
  (JS.dropTrailingZeros fuel m e).1 * 10 ^ ((JS.dropTrailingZeros fuel m e).2 - e) = m.
Proof.
  revert m e. induction fuel as [|fuel IH]; intros m e Hm; simpl.
  { rewrite Z.sub_diag. simpl. lia. }
  destruct (m mod 10 =? 0) eqn:Hmod; simpl; [|rewrite Z.sub_diag; simpl; lia].
  apply Z.eqb_eq in Hmod.
  assert (Hdiv : m = 10 * (m / 10)) by (pose proof (Z.div_mod m 10); lia).
  destruct (IH (m / 10) (e + 1)) as (Ha & He & Hprod); [lia|].
  split_and!; [done | lia |].
  replace ((JS.dropTrailingZeros fuel (m / 10) (e + 1)).2 - e)
    with (Z.succ ((JS.dropTrailingZeros fuel (m / 10) (e + 1)).2 - (e + 1))) by lia.
  rewrite Z.pow_succ_r by lia. lia.
Qed.

Lemma length_string_of_uint u :
  String.length (NilEmpty.string_of_uint u) = Decimal.nb_digits u.
Proof. induction u; simpl; congruence. Qed.

Lemma dropTrailingZeros_stripped fuel m e :
  0 < m → Z.log2 m ≤ Z.of_nat fuel → (JS.dropTrailingZeros fuel m e).1 mod 10 ≠ 0.
Proof.
  revert m e. induction fuel as [|fuel IH]; intros m e Hm Hfuel; simpl.
  - assert (m = 1) as ->; [|done].
    pose proof (Z.log2_nonneg m) as Hnn.
    assert (Hl : Z.log2 m = 0) by lia. apply Z.log2_null in Hl. lia.
  - destruct (Z.eqb_spec (m mod 10) 0) as [Hmod|Hmod]; simpl; [|done].
    assert (Hdiv : m = 10 * (m / 10)) by (pose proof (Z.div_mod m 10); lia).
    apply IH; [lia|].
    destruct (Z.log2_spec m Hm) as [_ Hup].
    assert (Hlt : m / 10 < 2 ^ Z.log2 m).
    { rewrite Z.pow_succ_r in Hup by apply Z.log2_nonneg. lia. }
    apply Z.log2_lt_pow2 in Hlt; lia.
Qed.

(** The digits and zeros [Number.prototype.toString] writes for a whole
    number. *)
Lemma whole_stripped n z :
  wholeValue n = Some z → 1 ≤ z →
  ∃ m e a e', n = JS.Dec m e ∧ 0 < m ∧
    JS.dropTrailingZeros (Z.to_nat (Z.log2 m)) m e = (a, e') ∧
    0 < a ∧ 0 ≤ e' ∧ a * 10 ^ e' = z.
Proof.
  destruct n as [m e| |]; simpl; try done. intros Hwhole Hz.
  assert (Hm : 0 < m).
  { destruct (Z.leb_spec 0 e).
    - injection Hwhole as <-. pose proof (Z.pow_pos_nonneg 10 e). nia.
    - destruct (Z.eqb_spec (m mod 10 ^ (- e)) 0) as [Hmod|]; [|done].
      injection Hwhole as <-. pose proof (Z.pow_pos_nonneg 10 (- e)).
      pose proof (Z.div_mod m (10 ^ (- e))). nia. }
  pose proof (dropTrailingZeros_spec (Z.to_nat (Z.log2 m)) m e Hm) as (Ha & He & Hprod).
  pose proof (dropTrailingZeros_stripped (Z.to_nat (Z.log2 m)) m e Hm) as Hstripped.
  rewrite Z2Nat.id in Hstripped by apply Z.log2_nonneg. specialize (Hstripped ltac:(lia)).
  destruct (JS.dropTrailingZeros _ m e) as [a e'] eqn:Hdrop. simpl in *.
  exists m, e, a, e'. split_and!; try done.
  - destruct (Z.leb_spec 0 e); [lia|].
    destruct (Z.eqb_spec (m mod 10 ^ (- e)) 0) as [Hmod|]; [|done].
    destruct (Z.le_gt_cases 0 e') as [|Hneg]; [done|]. exfalso. apply Hstripped.
    assert (Hmz : m = m / 10 ^ (- e) * 10 ^ (- e)).
    { pose proof (Z.div_mod m (10 ^ (- e))). pose proof (Z.pow_pos_nonneg 10 (- e)). lia. }
    replace (- e) with ((e' - e) + (- e')) in Hmz at 2 by lia.
    rewrite Z.pow_add_r in Hmz by lia.
    assert (Hcancel : a = m / 10 ^ (- e) * 10 ^ (- e')).
    { pose proof (Z.pow_pos_nonneg 10 (e' - e)). nia. }
    replace (- e') with (Z.succ (- e' - 1)) in Hcancel by lia.
    rewrite Z.pow_succ_r in Hcancel by lia.
    rewrite Hcancel. replace (m / 10 ^ (- e) * (10 * 10 ^ (- e' - 1)))
      with ((m / 10 ^ (- e) * 10 ^ (- e' - 1)) * 10) by ring.
    apply Z.mod_mul. lia.
  - destruct (Z.leb_spec 0 e).
    + injection Hwhole as <-. rewrite <- Hprod.
      replace e' with ((e' - e) + e) at 1 by lia. rewrite Z.pow_add_r by lia. ring.
    + destruct (Z.eqb_spec (m mod 10 ^ (- e)) 0) as [Hmod|]; [|done].
      injection Hwhole as <-.
      destruct (Z.le_gt_cases 0 e') as [He'|Hneg].
      * assert (Hmz : m = a * 10 ^ e' * 10 ^ (- e)).
        { rewrite <- Hprod. replace (e' - e) with (e' + - e) by lia.
          rewrite Z.pow_add_r by lia. ring. }
        rewrite Hmz at 1. rewrite Z.div_mul; [done|].
        pose proof (Z.pow_pos_nonneg 10 (- e)). lia.
      * exfalso. apply Hstripped.
        assert (Hmz : m = m / 10 ^ (- e) * 10 ^ (- e)).
        { pose proof (Z.div_mod m (10 ^ (- e))). pose proof (Z.pow_pos_nonneg 10 (- e)). lia. }
        replace (- e) with ((e' - e) + (- e')) in Hmz at 2 by lia.
        rewrite Z.pow_add_r in Hmz by lia.
        assert (Hcancel : a = m / 10 ^ (- e) * 10 ^ (- e')).
        { pose proof (Z.pow_pos_nonneg 10 (e' - e)). nia. }
        replace (- e') with (Z.succ (- e' - 1)) in Hcancel by lia.
        rewrite Z.pow_succ_r in Hcancel by lia.
        rewrite Hcancel. replace (m / 10 ^ (- e) * (10 * 10 ^ (- e' - 1)))
          with ((m / 10 ^ (- e) * 10 ^ (- e' - 1)) * 10) by ring.
        apply Z.mod_mul. lia.
Qed.

(** [parseInt] reads back a whole number below [10^21] from its string,
    however the number was written. *)
Lemma parseInt10_whole n z :
  wholeValue n = Some z → 1 ≤ z < 10 ^ 21 → parseInt10 (JS.VNum n) = JS.Dec z 0.
Proof.
  intros Hwhole [Hlo Hhi].
  destruct (whole_stripped n z Hwhole Hlo) as (m & e0 & a & e & -> & Hm & Hdrop & Ha & He & Hprod).
  unfold parseInt10, ToString, JS.Number_toString.
  destruct (Z.eqb_spec m 0) as [?|_]; [lia|]. rewrite Z.abs_eq by lia.
  rewrite Hdrop.
  unfold JS.digitsOf. rewrite length_string_of_uint.
  destruct (to_uint_lower_bound (Z.to_N a) ltac:(lia)) as [Hk Hbound].
  rewrite Z2N.id in Hbound by lia.
  set (u := N.to_uint (Z.to_N a)) in *.
  set (k := Z.of_nat (Decimal.nb_digits u)) in *.
  assert (Hp : k + e ≤ 21).
  { assert (10 ^ (k - 1 + e) < 10 ^ 21); [|apply Z.pow_lt_mono_r_iff in H; lia].
    rewrite Z.pow_add_r by lia. nia. }
  assert (Hb1 : (k <=? k + e) = true) by (apply Z.leb_le; lia).
  assert (Hb2 : (k + e <=? 21) = true) by (apply Z.leb_le; lia).
  rewrite Hb1, Hb2. simpl andb. cbv iota.
  destruct (Z.ltb_spec m 0) as [?|_]; [lia|].
  replace (Z.to_nat (k + e - k)) with (Z.to_nat e) by lia.
  assert (Hu : Z.of_N (Pos.of_uint u) = a).
  { unfold u. change (Pos.of_uint (N.to_uint (Z.to_N a))) with (N.of_uint (N.to_uint (Z.to_N a))).
    rewrite DecimalN.Unsigned.of_to. lia. }
  assert (Hstart : JS.trimStart (NilEmpty.string_of_uint u ++ JS.zeros (Z.to_nat e))
                   = NilEmpty.string_of_uint u ++ JS.zeros (Z.to_nat e) ∧
                   JS.readSign (NilEmpty.string_of_uint u ++ JS.zeros (Z.to_nat e))
                   = (false, NilEmpty.string_of_uint u ++ JS.zeros (Z.to_nat e))).
  { destruct u; [simpl in k; lia|..]; cbn [NilEmpty.string_of_uint];
      rewrite append_cons; split; reflexivity. }
  destruct Hstart as [-> ->].
  rewrite readDigits_uint, readDigits_zeros. fold k. rewrite Hu.
  destruct (Z.eqb_spec (0 + k + Z.of_nat (Z.to_nat e)) 0) as [Hcount|_]; [lia|].
  unfold JS.signed. f_equal. rewrite Z2Nat.id by lia. rewrite <- Hprod. ring_simplify. reflexivity.
Qed.

End Digits.

(* ===================================================================== *)
(** ** Editing through the form *)
(* ===================================================================== *)

Section Editing.

Lemma email_nonempty e : emailNormal e → JS.isEmpty e = false.
Proof.
  intros (_ & _ & re & Hre & Htest). rewrite email_pattern_parses in Hre.
  injection Hre as <-. by destruct e.
Qed.

(** The body the form sends for a student opened and left as it is. *)
Lemma unchanged_body d z :
  name d ≠ "" → JS.isEmpty (email d) = false →
  wholeValue (age d) = Some z → (1 ≤ z < 10 ^ 21)%Z →
  submittedBody (prefill (Some d) blankForm)
  = mkBody (Some (JS.VStr (name d))) (Some (JS.VNum (JS.Dec z 0)))
           (Some (JS.VStr (email d))).
Proof.
  intros Hname Hemail Hage Hz.
  pose proof (parseInt10_whole (age d) z Hage Hz) as Hparse.
  unfold submittedBody, prefill, received, orEmpty.
  destruct (age d) as [m e| |] eqn:Ha; try done. simpl.
  destruct (name d) as [|c n] eqn:Hn; [done|]. simpl.
  destruct (email d) as [|c' s] eqn:He; [done|]. simpl.
  destruct (Z.eqb_spec m 0) as [->|_].
  { exfalso. cbn [wholeValue] in Hage. rewrite Zmod_0_l, Zdiv_0_l, Z.mul_0_l in Hage.
    change (0 =? 0)%Z with true in Hage. cbv iota in Hage.
    destruct (0 <=? e)%Z; injection Hage as <-; lia. }
  simpl. by rewrite Hparse.
Qed.

(** X18.  Opening a stored student in the form and submitting it as it is
    changes nothing but its [updatedAt]: the name, the age and the email
    survive the form, [parseInt], the JSON body, the setters and the
    validators.  This is so for a student as the schema leaves it (a name
    that is trimmed and not empty, an email in normal form that no other
    student has) whose age is a whole number from 1 to below [10^21],
    however that number is written; the connection is there and the id is
    well formed. *)
Theorem unchanged_edit_keeps_the_student d env w z :
  students w !! _id d = Some d →
  castObjectId (_id d) = Some (_id d) →
  connected env w = true →
  name d ≠ "" → JS.trim (name d) = name d →
  emailNormal (email d) →
  (∀ j dj, students w !! j = Some dj → j ≠ _id d → email dj ≠ email d) →
  wholeValue (age d) = Some z → (1 ≤ z < 10 ^ 21)%Z →
  saved (handleSubmit (Some d) (prefill (Some d) blankForm) env w).1 = true ∧
  students (handleSubmit (Some d) (prefill (Some d) blankForm) env w).2
    = <[_id d := mkDoc (_id d) (name d) (JS.Dec z 0) (email d) (createdAt d) (now env)
                       (__v d)]> (students w) ∧
  instructors (handleSubmit (Some d) (prefill (Some d) blankForm) env w).2
    = instructors w.
Proof.
  intros Hd Hid Hcon Hne Htrim Hemail Hothers Hage Hz.
  pose proof (email_nonempty _ Hemail) as Hee.
  destruct Hemail as (Het & Hel & re & Hre & Htest).
  set (b := mkBody (Some (JS.VStr (name d))) (Some (JS.VNum (JS.Dec z 0)))
                   (Some (JS.VStr (email d)))).
  assert (Hn : setValue (castStringPath (pName studentSchema))
                 (validateStringPath (pName studentSchema)) (bName b) = Some (name d)).
  { unfold setValue, castStringPath, applySetters, validateStringPath, checkRequiredString.
    simpl. rewrite Htrim. by destruct (name d). }
  assert (Ha : setValue castNumber (validateNumberPath (pAge studentSchema)) (bAge b)
               = Some (JS.Dec z 0)).
  { unfold setValue, validateNumberPath, minValidator, JS.geZ. simpl.
    destruct (Z.leb_spec 1 (z * 10 ^ 0)) as [_|?]; [done|lia]. }
  assert (He : setValue (castStringPath (pEmail studentSchema))
                 (validateStringPath (pEmail studentSchema)) (bEmail b) = Some (email d)).
  { unfold setValue, castStringPath, applySetters, validateStringPath, checkRequiredString,
      matchValidator.
    change (sTrim (pEmail studentSchema)) with true.
    change (sLowercase (pEmail studentSchema)) with true.
    change (sRequired (pEmail studentSchema)) with true.
    change (sMatch (pEmail studentSchema)) with (JS.RegExp_new "^\S+@\S+\.\S+$" false).
    rewrite Hre. cbn [bEmail b castString]. rewrite Het, Hel, Hee, Htest. done. }
  assert (Hvalid : validUpdate Student b = true).
  { unfold validUpdate, settable. change (schemaOf Student) with studentSchema.
    cbv zeta. rewrite Hn, Ha, He. done. }
  assert (Hdoc : updatedDoc env Student b d
                 = mkDoc (_id d) (name d) (JS.Dec z 0) (email d) (createdAt d) (now env)
                         (__v d)).
  { unfold updatedDoc. change (schemaOf Student) with studentSchema.
    cbv zeta. rewrite Hn, Ha, He. reflexivity. }
  assert (Hfree : violatesUnique (schemaOf Student) (collection Student w) (_id d)
                    (updatedDoc env Student b d) = false).
  { apply violatesUnique_false. intros j dj Hj Hne' Heq. rewrite Hdoc in Heq.
    simpl in Heq. by apply (Hothers j dj). }
  unfold handleSubmit, submittedRequest.
  rewrite (unchanged_body d z Hne Hee Hage Hz). fold b.
  change (handle (Update Student (_id d) (Some b)) env w)
    with (PUT Student (_id d) (Some b) env w).
  pose proof (PUT_outcome Student (_id d) (Some b) env w) as Hout.
  unfold updateGoesThrough in Hout. rewrite Hid in Hout.
  change (collection Student w) with (students w) in Hout, Hfree.
  rewrite Hd, Hcon, Hvalid, Hfree in Hout. simpl in Hout.
  destruct Hout as (Hres & (_ & Hrep & Hother) & _).
  destruct (PUT Student (_id d) (Some b) env w) as [r w'].
  simpl in Hres, Hrep, Hother. subst r. simpl.
  split_and!; [done | by rewrite Hrep, Hdoc | exact (Hother Instructor ltac:(done))].
Qed.

Lemma unchanged_edit_keeps_the_student_witness :
  students Sample.threeStudents !! Sample.idNew = Some Sample.zoe ∧
  age Sample.zoe = JS.Dec 1 3 ∧
  students
    (handleSubmit (Some Sample.zoe) (prefill (Some Sample.zoe) blankForm)
       (Sample.up 400 Sample.idJohn) Sample.threeStudents).2
  = <[Sample.idNew := mkDoc Sample.idNew "Zoe" (JS.Dec 1000 0) "zoe@x.com" 300 400 0]>
      (students Sample.threeStudents).
Proof.
  split; [vm_compute; reflexivity|]. split; [reflexivity|].
  apply (unchanged_edit_keeps_the_student Sample.zoe (Sample.up 400 Sample.idJohn)
           Sample.threeStudents 1000).
  - vm_compute; reflexivity.
  - vm_compute; reflexivity.
  - vm_compute; reflexivity.
  - discriminate.
  - vm_compute; reflexivity.
  - split_and!; [vm_compute; reflexivity | vm_compute; reflexivity |].
    eexists. split; [apply email_pattern_parses | vm_compute; reflexivity].
  - intros j dj Hj Hne Heq.
    change (students Sample.threeStudents)
      with (<[Sample.idNew := Sample.zoe]>
              (<[Sample.idAmy := Sample.amy]> (<[Sample.idJohn := Sample.john]> ∅))
              : gmap ObjectId Doc) in Hj.
    apply lookup_insert_Some in Hj as [[? _]|[_ Hj]]; [done|].
    apply lookup_insert_Some in Hj as [[_ <-]|[_ Hj]]; [discriminate Heq|].
    apply lookup_insert_Some in Hj as [[_ <-]|[_ Hj]]; [discriminate Heq|].
    by rewrite lookup_empty in Hj.
  - reflexivity.
  - lia.
Defined.

(** Not so for an age with a fraction (which the API accepts): [parseInt]
    drops the fraction, and the unchanged submit stores a different age. *)
Example unchanged_edit_truncates_the_age :
  parseInt10 (JS.VNum (JS.Dec 75 (-1))) = JS.Dec 7 0.
Proof. vm_compute. reflexivity. Qed.

End Editing.

(* ===================================================================== *)
(** ** The shape of an accepted email *)
(* ===================================================================== *)

Section EmailShape.

Lemma consumePlus_nonspace s r :
  In r (JS.consumePlus false JS.CNonSpace s) ↔
  ∃ a, a ≠ "" ∧ noWhiteSpace a = true ∧ s = (a ++ r)%string.
Proof.
  induction s as [|c s IH]; simpl.
  - split; [done|]. intros (a & Ha & _ & Heq). by destruct a.
  - destruct (JS.isWhiteSpace c) eqn:Hc; simpl.
    + split; [done|]. intros ([|c' a] & Ha & Hws & Heq); [done|].
      rewrite append_cons in Heq. injection Heq as <- _. simpl in Hws. by rewrite Hc in Hws.
    + split.
      * intros [<-|Hin].
        -- exists (String c ""). simpl. by rewrite Hc.
        -- apply IH in Hin as (a & _ & Hws & ->).
           exists (String c a). simpl. by rewrite Hc, Hws.
      * intros ([|c' a] & Ha & Hws & Heq); [done|].
        rewrite append_cons in Heq. injection Heq as <- ->. simpl in Hws.
        apply andb_true_iff in Hws as [_ Hws].
        destruct a as [|c'' a]; [by left|].
        right. apply IH. by exists (String c'' a).
Qed.

Lemma matchOne_lit c s r :
  In r (JS.matchItem false (JS.CLit c, JS.QOne) s) ↔ s = String c r.
Proof.
  unfold JS.matchItem. simpl. destruct s as [|c' s]; simpl; [done|].
  destruct (Ascii.eqb_spec c c') as [<-|Hne]; simpl.
  - split; [by intros [<-|[]] | by intros [= <-]; left].
  - split; [done | by intros [= <-]].
Qed.

(** X19.  The email validator of either schema accepts exactly the strings
    [local@domain.tld] in which the three parts are non-empty and free of
    whitespace (they may themselves hold further [@] and dots). *)
Theorem email_validator_accepts_the_shape k e :
  validateStringPath (pEmail (schemaOf k)) (Some e) = true ↔ emailShape e.
Proof.
  assert (Hval : validateStringPath (pEmail (schemaOf k)) (Some e)
                 = negb (JS.isEmpty e) &&
                   existsb JS.isEmpty
                     (JS.matchItems false
                        [(JS.CNonSpace, JS.QPlus); (JS.CLit "@", JS.QOne);
                         (JS.CNonSpace, JS.QPlus); (JS.CLit ".", JS.QOne);
                         (JS.CNonSpace, JS.QPlus)] e)).
  { unfold validateStringPath, checkRequiredString, matchValidator.
    assert (Hm : sMatch (pEmail (schemaOf k)) = JS.RegExp_new "^\S+@\S+\.\S+$" false)
      by by destruct k.
    assert (Hr : sRequired (pEmail (schemaOf k)) = true) by by destruct k.
    rewrite Hm, Hr, email_pattern_parses. by destruct (JS.isEmpty e). }
  rewrite Hval. clear Hval.
  assert (Hmatch : existsb JS.isEmpty
                     (JS.matchItems false
                        [(JS.CNonSpace, JS.QPlus); (JS.CLit "@", JS.QOne);
                         (JS.CNonSpace, JS.QPlus); (JS.CLit ".", JS.QOne);
                         (JS.CNonSpace, JS.QPlus)] e) = true ↔ emailShape e).
  { rewrite existsb_exists. unfold emailShape. split.
    - intros (r & Hin & Hr). destruct r; [|done]. clear Hr.
      cbn [JS.matchItems] in Hin.
      apply in_flat_map in Hin as (r1 & H1 & Hin).
      apply in_flat_map in Hin as (r2 & H2 & Hin).
      apply in_flat_map in Hin as (r3 & H3 & Hin).
      apply in_flat_map in Hin as (r4 & H4 & Hin).
      apply in_flat_map in Hin as (r5 & H5 & Hin).
      destruct Hin as [->|[]].
      change (JS.matchItem false (JS.CNonSpace, JS.QPlus))
        with (JS.consumePlus false JS.CNonSpace) in H1, H3, H5.
      apply consumePlus_nonspace in H1 as (a & Ha & Hwa & ->).
      apply matchOne_lit in H2 as ->.
      apply consumePlus_nonspace in H3 as (b & Hb & Hwb & ->).
      apply matchOne_lit in H4 as ->.
      apply consumePlus_nonspace in H5 as (c & Hc & Hwc & ->).
      exists a, b, c. rewrite append_empty_r. done.
    - intros (a & b & c & -> & Ha & Hb & Hc & Hwa & Hwb & Hwc).
      exists "". split; [|done]. cbn [JS.matchItems].
      apply in_flat_map. exists (String "@" (b ++ String "." c)). split.
      { apply consumePlus_nonspace. by exists a. }
      apply in_flat_map. exists (b ++ String "." c)%string. split.
      { by apply matchOne_lit. }
      apply in_flat_map. exists (String "." c). split.
      { apply consumePlus_nonspace. by exists b. }
      apply in_flat_map. exists c. split.
      { by apply matchOne_lit. }
      apply in_flat_map. exists "". split; [|by left].
      apply consumePlus_nonspace. exists c. by rewrite append_empty_r. }
  rewrite andb_true_iff, Hmatch. split; [by intros [_ ?]|].
  intros Hs. split; [|done].
  destruct Hs as (a & b & c & -> & Ha & _). by destruct a.
Qed.

End EmailShape.

(* ===================================================================== *)
(** ** The list on the page *)
(* ===================================================================== *)

Section Listing.

(** What the list route answers, with a connection. *)
Lemma GET_all_run k env w :
  connected env w = true →
  (GET_all k env w).1
  = Return (json (Docs (toObject <$>
      merge_sort (sortRel ByCreatedAt false) (documents (collection k w))))).
Proof.
  intros Hcon.
  destruct (connected_run env w Hcon) as (h & w1 & Hrun & Hs & Hi & _).
  unfold GET_all, tryCatch, mbind, M_bind. rewrite Hrun.
  rewrite exec_run. simpl.
  assert (Hc : collection k w1 = collection k w) by (destruct k; simpl; congruence).
  rewrite Hc. unfold selectDocs. simpl.
  assert (Hall : List.filter (fun _ : Doc => true) (documents (collection k w))
                 = documents (collection k w)).
  { induction (documents (collection k w)) as [|x l IH]; simpl; [done|]. by rewrite IH. }
  by rewrite Hall.
Qed.

(** X20.  A confirmed delete of a stored student, with a connection,
    removes it and leaves the page with the list of the students that
    remain (the refresh needs no new connection: the delete left one
    cached). *)
Theorem confirmed_delete_refreshes_the_list id i d envDelete envFetch st w :
  castObjectId id = Some i →
  students w !! i = Some d →
  connected envDelete w = true →
  ∃ ds, studentsShown (handleDelete true id envDelete envFetch st w).1
          = Docs (toObject <$> ds) ∧
        ds ≡ₚ documents (delete i (students w)) ∧
        students (handleDelete true id envDelete envFetch st w).2 = delete i (students w).
Proof.
  intros Hid Hd Hcon. unfold handleDelete. simpl negb. cbv iota.
  pose proof (DELETE_outcome Student id envDelete w) as Hout.
  rewrite Hid in Hout. change (collection Student w) with (students w) in Hout.
  rewrite Hd, Hcon in Hout. destruct Hout as (Hres & (_ & Hrem & _) & [h Hc]).
  destruct (DELETE Student id envDelete w) as [r w1].
  simpl in Hres, Hrem, Hc. subst r.
  pose proof (GET_all_run Student envFetch w1 (connected_cached envFetch w1 h Hc)) as Hlist.
  pose proof (readOnly_sameCollections (ListAll Student) envFetch eq_refl w1) as [Hs _].
  unfold fetchStudents. simpl in Hs.
  destruct (GET_all Student envFetch w1) as [r2 w2]. simpl in Hlist, Hs. subst r2. simpl.
  exists (merge_sort (sortRel ByCreatedAt false) (documents (students w1))).
  split_and!; [done | | by rewrite Hs].
  rewrite (merge_sort_Permutation (sortRel ByCreatedAt false)). by rewrite Hrem.
Qed.

Lemma confirmed_delete_refreshes_the_list_witness :
  castObjectId Sample.idJohn = Some Sample.idJohn ∧
  students Sample.twoStudents !! Sample.idJohn = Some Sample.john ∧
  connected (Sample.up 300 Sample.idNew) Sample.twoStudents = true ∧
  ∃ ds, studentsShown (handleDelete true Sample.idJohn (Sample.up 300 Sample.idNew)
                         (Sample.down 400 Sample.idNew) listAtStart Sample.twoStudents).1
          = Docs (toObject <$> ds) ∧
        ds ≡ₚ documents (delete Sample.idJohn (students Sample.twoStudents)) ∧
        students (handleDelete true Sample.idJohn (Sample.up 300 Sample.idNew)
                    (Sample.down 400 Sample.idNew) listAtStart Sample.twoStudents).2
          = delete Sample.idJohn (students Sample.twoStudents).
Proof.
  split; [reflexivity|]. split; [vm_compute; reflexivity|]. split; [reflexivity|].
  apply (confirmed_delete_refreshes_the_list Sample.idJohn Sample.idJohn Sample.john
           (Sample.up 300 Sample.idNew) (Sample.down 400 Sample.idNew) listAtStart
           Sample.twoStudents);
    [reflexivity | vm_compute; reflexivity | reflexivity].
Defined.

(** X21.  When the connection fails, [fetchStudents] puts the error object
    of the 500 answer where the list was: the page no longer holds a list. *)
Theorem failed_fetch_replaces_the_list env st w :
  connected env w = false →
  studentsShown (fetchStudents env st w).1 = ErrorMessage "Failed to fetch students" ∧
  loading (fetchStudents env st w).1 = false.
Proof.
  intros Hcon.
  destruct (disconnected_run env w Hcon) as (reason & w1 & Hrun & _).
  unfold fetchStudents, GET_all, tryCatch, mbind, M_bind. rewrite Hrun. done.
Qed.

Lemma failed_fetch_replaces_the_list_witness :
  connected (Sample.down 300 Sample.idNew) initial = false ∧
  studentsShown (fetchStudents (Sample.down 300 Sample.idNew) listAtStart initial).1
    = ErrorMessage "Failed to fetch students" ∧
  loading (fetchStudents (Sample.down 300 Sample.idNew) listAtStart initial).1 = false.
Proof.
  split; [reflexivity|].
  apply (failed_fetch_replaces_the_list (Sample.down 300 Sample.idNew) listAtStart initial).
  reflexivity.
Defined.

End Listing.

(* ===================================================================== *)
(** ** Submits that fail, and blanks around an instructor's email *)
(* ===================================================================== *)

Section Refusals.

Lemma errorText_nonempty data : errorText data ≠ "".
Proof. destruct data as [| | |s]; simpl; try done. by destruct s. Qed.

Lemma refused_submit studentToEdit f env w :
  refused w (handle (submittedRequest studentToEdit f) env w) →
  formAfter (handleSubmit studentToEdit f env w).1 = f ∧
  (∃ msg, alerted (handleSubmit studentToEdit f env w).1 = Some msg ∧ msg ≠ "") ∧
  students (handleSubmit studentToEdit f env w).2 = students w ∧
  instructors (handleSubmit studentToEdit f env w).2 = instructors w.
Proof.
  intros [[Hs Hi] (msg & st & Hres & Hge)]. unfold handleSubmit.
  destruct (handle (submittedRequest studentToEdit f) env w) as [r w'].
  simpl in Hs, Hi, Hres. subst r. rewrite (refusal_not_ok msg st Hge). simpl.
  split_and!; try done. eexists. split; [done|].
  apply (errorText_nonempty (ErrorMessage msg)).
Qed.

(** X22.  A submit that does not succeed, adding or editing, stores
    nothing, leaves the form as it was typed and shows an alert that is not
    empty. *)
Theorem failed_submit_keeps_form_and_store studentToEdit f env w :
  saved (handleSubmit studentToEdit f env w).1 = false →
  formAfter (handleSubmit studentToEdit f env w).1 = f ∧
  (∃ msg, alerted (handleSubmit studentToEdit f env w).1 = Some msg ∧ msg ≠ "") ∧
  students (handleSubmit studentToEdit f env w).2 = students w ∧
  instructors (handleSubmit studentToEdit f env w).2 = instructors w.
Proof.
  intros Hsaved. apply refused_submit.
  assert (Hok : ∀ res, (handle (submittedRequest studentToEdit f) env w).1 = Return res →
                       ok res = true → False).
  { intros res Hres Hok. unfold handleSubmit in Hsaved.
    destruct (handle (submittedRequest studentToEdit f) env w) as [r w'].
    simpl in Hres. subst r. by rewrite Hok in Hsaved. }
  destruct studentToEdit as [d|]; simpl in *.
  - pose proof (PUT_outcome Student (_id d) (Some (submittedBody f)) env w) as Hout.
    destruct (castObjectId (_id d)) as [i|]; [|done].
    destruct (collection Student w !! i) as [x|]; [|done].
    destruct (updateGoesThrough Student i (submittedBody f) x env w); [|done].
    destruct Hout as (Hres & _). by destruct (Hok _ Hres).
  - destruct (POST_outcome Student (Some (submittedBody f)) env w)
      as [(b & doc & _ & _ & _ & _ & _ & Hres & _) | Href]; [|done].
    by destruct (Hok _ Hres).
Qed.

Lemma failed_submit_keeps_form_and_store_witness :
  saved (handleSubmit None (Cases.formOf "Zoe" "seven" "zoe@x.com")
           (Sample.up 300 Sample.idNew) Sample.twoStudents).1 = false ∧
  formAfter (handleSubmit None (Cases.formOf "Zoe" "seven" "zoe@x.com")
               (Sample.up 300 Sample.idNew) Sample.twoStudents).1
    = Cases.formOf "Zoe" "seven" "zoe@x.com" ∧
  (∃ msg, alerted (handleSubmit None (Cases.formOf "Zoe" "seven" "zoe@x.com")
                     (Sample.up 300 Sample.idNew) Sample.twoStudents).1 = Some msg ∧
          msg ≠ "") ∧
  students (handleSubmit None (Cases.formOf "Zoe" "seven" "zoe@x.com")
              (Sample.up 300 Sample.idNew) Sample.twoStudents).2
    = students Sample.twoStudents ∧
  instructors (handleSubmit None (Cases.formOf "Zoe" "seven" "zoe@x.com")
                 (Sample.up 300 Sample.idNew) Sample.twoStudents).2
    = instructors Sample.twoStudents.
Proof.
  split; [vm_compute; reflexivity|].
  apply (failed_submit_keeps_form_and_store None (Cases.formOf "Zoe" "seven" "zoe@x.com")
           (Sample.up 300 Sample.idNew) Sample.twoStudents).
  vm_compute; reflexivity.
Defined.

(** X23.  The instructor's email has no [trim]: a create whose email comes
    with whitespace around it is refused and stores nothing, where the same
    create of a student would store the email trimmed. *)
Theorem instructor_email_with_blanks_is_refused b s env w :
  bEmail b = Some (JS.VStr s) →
  JS.trim s ≠ s →
  (∃ msg st, (POST Instructor (Some b) env w).1
               = Return (jsonStatus (ErrorMessage msg) st) ∧ (400 ≤ st)%nat) ∧
  students (POST Instructor (Some b) env w).2 = students w ∧
  instructors (POST Instructor (Some b) env w).2 = instructors w.
Proof.
  intros Hb Htrim.
  destruct (POST_outcome Instructor (Some b) env w)
    as [(b' & doc & [= <-] & _ & _ & Hdoc & _) | [[Hs Hi] Hres]]; [|done].
  exfalso. apply Htrim.
  unfold draftDoc, newModel in Hdoc. cbn [dName dAge dEmail] in Hdoc.
  destruct (validString (pName (schemaOf Instructor)) _) as [n|]; [|done].
  destruct (validNumber (pAge (schemaOf Instructor)) _) as [a|]; [|done].
  destruct (validString (pEmail (schemaOf Instructor)) _) as [e|] eqn:He; [|done].
  apply validString_Some in He as [Hcast Hvalid].
  rewrite Hb in Hcast. unfold castStringPath in Hcast. simpl in Hcast.
  injection Hcast as <-.
  pose proof (validated_email_noWhiteSpace Instructor _ Hvalid) as Hws.
  rewrite noWhiteSpace_toLowerCase in Hws. by apply trim_noWhiteSpace.
Qed.

Lemma instructor_email_with_blanks_is_refused_witness :
  bEmail (mkBody (Some (JS.VStr "Eve")) (Some (Sample.num 30)) (Some (JS.VStr " eve@x.org")))
    = Some (JS.VStr " eve@x.org") ∧
  JS.trim " eve@x.org" ≠ " eve@x.org" ∧
  (∃ msg st, (POST Instructor (Sample.fields "Eve" (Sample.num 30) " eve@x.org")
                (Sample.up 300 Sample.idNew) initial).1
               = Return (jsonStatus (ErrorMessage msg) st) ∧ (400 ≤ st)%nat) ∧
  students (POST Instructor (Sample.fields "Eve" (Sample.num 30) " eve@x.org")
              (Sample.up 300 Sample.idNew) initial).2 = students initial ∧
  instructors (POST Instructor (Sample.fields "Eve" (Sample.num 30) " eve@x.org")
                 (Sample.up 300 Sample.idNew) initial).2 = instructors initial.
Proof.
  split; [reflexivity|]. split; [discriminate|].
  apply (instructor_email_with_blanks_is_refused
           (mkBody (Some (JS.VStr "Eve")) (Some (Sample.num 30))
                   (Some (JS.VStr " eve@x.org")))
           " eve@x.org" (Sample.up 300 Sample.idNew) initial);
    [reflexivity | discriminate].
Defined.

End Refusals.
